(** * maxminddb-to-nft: the extraction, aggregation and set-file pipeline

    A shallow embedding of [main.go] and the properties of its
    extraction-and-aggregation pipeline.

    Conventions of the embedding.
    - A Go [string] is a sequence of bytes: Rocq's [string], whose
      characters ([ascii]) are the bytes.  [byteval] gives a byte as an
      integer.
    - A rune is an integer ([Z]); [DecodeRuneInString] is the UTF-8 decoder
      that [for _, r := range s] runs.
    - Go's [map[string][]netip.Prefix] is a [gmap string (list Prefix)];
      the order in which [range] visits a map is not fixed by Go, so every
      function that ranges over a map takes the visiting order as an
      argument.
    - Go's [error] is the text of the error, built as [fmt.Errorf] builds
      it; [nil] is the [Ok] side of [result].
    - The operating system is GOOS=linux: the path separator is [/]. *)

From Stdlib Require Import ZArith Lia Ascii DecimalString.
From stdpp Require Import gmap strings list sorting.

Local Open Scope Z_scope.

(** ** Bytes and strings *)

Definition byteval (c : ascii) : Z := Z.of_N (N_of_ascii c).

(** [len(s)] *)
Definition len (s : string) : Z := Z.of_nat (String.length s).

(** [s[n:]] for [0 <= n] ([n] beyond the end gives the empty string). *)
Fixpoint strDrop (n : nat) (s : string) : string :=
  match n, s with
  | O, _ => s
  | S n', String _ s' => strDrop n' s'
  | S _, EmptyString => EmptyString
  end.

(** [strings.HasPrefix(s, prefix)]:
    [len(s) >= len(prefix) && s[:len(prefix)] == prefix]. *)
Fixpoint HasPrefix (s prefix : string) : bool :=
  match prefix, s with
  | EmptyString, _ => true
  | String p prefix', String c s' => bool_decide (c = p) && HasPrefix s' prefix'
  | String _ _, EmptyString => false
  end.

(** [strings.HasSuffix(s, suffix)]:
    [len(s) >= len(suffix) && s[len(s)-len(suffix):] == suffix]. *)
Definition HasSuffix (s suffix : string) : bool :=
  (len suffix <=? len s) &&
  bool_decide (strDrop (String.length s - String.length suffix) s = suffix).

(** [strings.Contains(s, substr)]: [substr] starts at some index of [s]. *)
Fixpoint Contains (s substr : string) : bool :=
  HasPrefix s substr ||
  match s with
  | EmptyString => false
  | String _ s' => Contains s' substr
  end.

(** [strings.Join(elems, sep)] *)
Fixpoint Join (elems : list string) (sep : string) : string :=
  match elems with
  | [] => ""
  | [e] => e
  | e :: es => e +:+ sep +:+ Join es sep
  end.

(** ** UTF-8 decoding, as [range] over a string does it *)

Definition RuneError : Z := 0xFFFD.
Definition RuneSelf : Z := 0x80.

(** The table [first] of [unicode/utf8] with its accept ranges: for a lead
    byte of a multi-byte sequence, the length of the sequence and the
    bounds on the second byte; [None] for an invalid lead byte. *)
Definition first (s0 : Z) : option (Z * Z * Z) :=
  if s0 <? 0xC2 then None
  else if s0 <=? 0xDF then Some (2, 0x80, 0xBF)
  else if s0 =? 0xE0 then Some (3, 0xA0, 0xBF)
  else if s0 =? 0xED then Some (3, 0x80, 0x9F)
  else if s0 <=? 0xEF then Some (3, 0x80, 0xBF)
  else if s0 =? 0xF0 then Some (4, 0x90, 0xBF)
  else if s0 <=? 0xF3 then Some (4, 0x80, 0xBF)
  else if s0 =? 0xF4 then Some (4, 0x80, 0x8F)
  else None.

Definition contByte (b : Z) : bool := (0x80 <=? b) && (b <=? 0xBF).

(** [utf8.DecodeRuneInString]: the rune at the start of [s] and its width
    in bytes. *)
Definition DecodeRuneInString (s : string) : Z * nat :=
  match s with
  | EmptyString => (RuneError, 0%nat)
  | String c0 t0 =>
    let s0 := byteval c0 in
    if s0 <? RuneSelf then (s0, 1%nat)
    else match first s0 with
    | None => (RuneError, 1%nat)
    | Some (sz, lo, hi) =>
      if len s <? sz then (RuneError, 1%nat)
      else match t0 with
      | EmptyString => (RuneError, 1%nat)
      | String c1 t1 =>
        let s1 := byteval c1 in
        if (s1 <? lo) || (hi <? s1) then (RuneError, 1%nat)
        else if sz <=? 2
        then (Z.lor (Z.shiftl (Z.land s0 0x1F) 6) (Z.land s1 0x3F), 2%nat)
        else match t1 with
        | EmptyString => (RuneError, 1%nat)
        | String c2 t2 =>
          let s2 := byteval c2 in
          if negb (contByte s2) then (RuneError, 1%nat)
          else if sz <=? 3
          then (Z.lor (Z.lor (Z.shiftl (Z.land s0 0x0F) 12)
                             (Z.shiftl (Z.land s1 0x3F) 6))
                      (Z.land s2 0x3F), 3%nat)
          else match t2 with
          | EmptyString => (RuneError, 1%nat)
          | String c3 _ =>
            let s3 := byteval c3 in
            if negb (contByte s3) then (RuneError, 1%nat)
            else (Z.lor (Z.lor (Z.lor (Z.shiftl (Z.land s0 0x07) 18)
                                      (Z.shiftl (Z.land s1 0x3F) 12))
                               (Z.shiftl (Z.land s2 0x3F) 6))
                        (Z.land s3 0x3F), 4%nat)
          end
        end
      end
    end
  end.

(** The runes that [for _, r := range s] yields, in order.  Every step
    consumes at least one byte, so [String.length s] steps are enough. *)
Fixpoint rangeRunes (fuel : nat) (s : string) : list Z :=
  match fuel with
  | O => []
  | S fuel' =>
    match s with
    | EmptyString => []
    | String _ _ =>
      let '(r, size) := DecodeRuneInString s in
      r :: rangeRunes fuel' (strDrop size s)
    end
  end.

Definition runes (s : string) : list Z := rangeRunes (String.length s) s.

(** ** Country-code validation *)

(** [isAlphaOnly]: the loop returns [false] at the first rune outside
    ['A'..'Z'] and [true] when there is none. *)
Definition isAlphaOnly (s : string) : bool :=
  forallb (fun r => negb ((r <? 65) || (90 <? r))) (runes s).

(** [strings.Map(unicode.ToUpper, s)], the branch [strings.ToUpper] takes
    on a string with a byte outside ASCII.  It depends on the Unicode case
    tables, which are not part of this program: it is a parameter of
    whatever uses [strings.ToUpper]. *)
Class UnicodeTables := { unicodeMapToUpper : string -> string }.

Definition isASCII (s : string) : bool :=
  forallb (fun c => byteval c <? RuneSelf) (String.list_ascii_of_string s).

Definition hasLower (s : string) : bool :=
  existsb (fun c => (97 <=? byteval c) && (byteval c <=? 122))
          (String.list_ascii_of_string s).

Definition upperByte (c : ascii) : ascii :=
  if (97 <=? byteval c) && (byteval c <=? 122)
  then ascii_of_N (Z.to_N (byteval c - 32))
  else c.

Fixpoint mapBytes (f : ascii -> ascii) (s : string) : string :=
  match s with
  | EmptyString => EmptyString
  | String c s' => String (f c) (mapBytes f s')
  end.

(** [strings.ToUpper] *)
Definition ToUpper `{UnicodeTables} (s : string) : string :=
  if isASCII s then
    if negb (hasLower s) then s else mapBytes upperByte s
  else unicodeMapToUpper s.

(** [isValidCountryCode] *)
Definition isValidCountryCode `{UnicodeTables} (code : string) : bool :=
  (len code =? 2) &&
  bool_decide (code = ToUpper code) &&
  isAlphaOnly code.


(** ** [path/filepath] on linux *)

Definition Separator : ascii := "/"%char.
Definition IsPathSeparator (c : ascii) : bool := bool_decide (c = Separator).
Definition dot : ascii := "."%char.

(** The [..] case of [Clean] when it can backtrack:
    [out.w--; for out.w > dotdot && !IsPathSeparator(out.index(out.w)) { out.w-- }].
    The buffer is kept reversed, last byte first: [x] is the byte at index
    [out.w] and [rest] the [out.w] bytes below it. *)
Fixpoint backtrack (dotdot : nat) (x : ascii) (rest : list ascii) : list ascii :=
  if bool_decide (dotdot < length rest)%nat && negb (IsPathSeparator x) then
    match rest with
    | x' :: rest' => backtrack dotdot x' rest'
    | [] => []
    end
  else rest.

(** The bytes of [path] up to the next separator, reversed onto [out], and
    what follows them: the copy loop of the default case. *)
Fixpoint copyElement (path : string) (out : list ascii) : string * list ascii :=
  match path with
  | EmptyString => (path, out)
  | String c rest =>
    if IsPathSeparator c then (path, out) else copyElement rest (c :: out)
  end.

(** The main loop of [filepath.Clean].  [path] is what is left to read
    ([path[r:]]), [out] the buffer (reversed), [dotdot] the index where
    [..] must stop.  Every turn reads at least one byte. *)
Fixpoint cleanLoop (fuel : nat) (rooted : bool) (path : string)
    (out : list ascii) (dotdot : nat) : list ascii :=
  match fuel with
  | O => out
  | S fuel' =>
    match path with
    | EmptyString => out
    | String c rest =>
      if IsPathSeparator c then
        (* empty path element *)
        cleanLoop fuel' rooted rest out dotdot
      else if bool_decide (c = dot) &&
              match rest with
              | EmptyString => true
              | String c1 _ => IsPathSeparator c1
              end then
        (* . element *)
        cleanLoop fuel' rooted rest out dotdot
      else if bool_decide (c = dot) &&
              match rest with
              | String c1 EmptyString => bool_decide (c1 = dot)
              | String c1 (String c2 _) =>
                  bool_decide (c1 = dot) && IsPathSeparator c2
              | EmptyString => false
              end then
        (* .. element: remove to last separator *)
        let rest2 := strDrop 1 rest in
        if bool_decide (dotdot < length out)%nat then
          match out with
          | x :: below => cleanLoop fuel' rooted rest2 (backtrack dotdot x below) dotdot
          | [] => cleanLoop fuel' rooted rest2 out dotdot
          end
        else if negb rooted then
          let out1 := if bool_decide (0 < length out)%nat then Separator :: out else out in
          let out2 := dot :: dot :: out1 in
          cleanLoop fuel' rooted rest2 out2 (length out2)
        else cleanLoop fuel' rooted rest2 out dotdot
      else
        (* real path element: add slash if needed, copy element *)
        let out1 :=
          if (rooted && negb (bool_decide (length out = 1%nat))) ||
             (negb rooted && negb (bool_decide (length out = 0%nat)))
          then Separator :: out else out in
        let '(rest', out2) := copyElement path out1 in
        cleanLoop fuel' rooted rest' out2 dotdot
    end
  end.

Definition ofBytes (l : list ascii) : string := String.string_of_list_ascii l.

(** [filepath.Clean] *)
Definition Clean (path : string) : string :=
  match path with
  | EmptyString => "."
  | String c rest =>
    let rooted := IsPathSeparator c in
    let out :=
      if rooted then cleanLoop (String.length path) true rest [Separator] 1
      else cleanLoop (String.length path) false path [] 0 in
    (* Turn empty string into "." *)
    match out with
    | [] => "."
    | _ => ofBytes (reverse out)
    end
  end.

(** [filepath.Join] of two elements: the elements from the first non-empty
    one on, joined by the separator and cleaned. *)
Definition filepathJoin (a b : string) : string :=
  if bool_decide (a = "") then
    if bool_decide (b = "") then "" else Clean b
  else Clean (a +:+ "/" +:+ b).

(** ** The path-safety check *)

(** [isValidTarPath] *)
Definition isValidTarPath (path : string) : bool :=
  let cleanPath := Clean path in
  negb (Contains cleanPath "..") &&
  negb (HasPrefix cleanPath "/") &&
  negb (HasPrefix cleanPath "\").


(** ** Errors *)

(** A Go call that returns [(value, error)]. *)
Inductive result (A : Type) : Type :=
| Ok (a : A)
| Err (e : string).
Arguments Ok {A} a.
Arguments Err {A} e.

(** [%d] of an integer, and [itoa.Itoa]. *)
Definition Itoa (n : Z) : string := NilZero.string_of_int (Z.to_int n).

Definition maxDownloadSize : Z := 1024 * 1024 * 1024.

(** ** The tar reader *)

(** [tar.Header], the fields the program reads. *)
Record Header := { Name : string; Size : Z }.

(** What a [tar.Reader] delivers.  [tr.Next()] returns [io.EOF], another
    error, or the header of the next entry; after a header, [tr.Read]
    delivers the bytes [data] of the entry and then reports [io.EOF]
    ([readErr = None]) or an error such as [io.ErrUnexpectedEOF] for a
    truncated archive ([readErr = Some e]). *)
Inductive tarStream :=
| TarEOF
| TarError (e : string)
| TarEntry (hdr : Header) (data : string) (readErr : option string)
           (next : tarStream).

Fixpoint strTake (n : nat) (s : string) : string :=
  match n, s with
  | S n', String c s' => String c (strTake n' s')
  | _, _ => EmptyString
  end.

(** [io.ReadAll(io.LimitReader(tr, n))] on the current entry: the limited
    reader reports [io.EOF] once [n] bytes went through, without asking the
    tar reader again; with fewer than [n] bytes in the entry the end of the
    entry decides. *)
Definition readAllLimited (data : string) (readErr : option string) (n : Z)
    : result string :=
  if n <=? len data then Ok (strTake (Z.to_nat n) data)
  else match readErr with
       | None => Ok data
       | Some e => Err e
       end.

(** [extractMMDBFromTar]: the loop over [tr.Next()]. *)
Fixpoint extractMMDBFromTar (tr : tarStream) : result string :=
  match tr with
  | TarEOF => Err "MMDB file not found in archive"
  | TarError e => Err ("reading tar header: " +:+ e)
  | TarEntry hdr data readErr next =>
    if negb (isValidTarPath (Name hdr)) then extractMMDBFromTar next
    else if HasSuffix (Name hdr) ".mmdb" then
      if maxDownloadSize <? Size hdr then
        Err ("MMDB file too large: " +:+ Itoa (Size hdr) +:+ " bytes")
      else
        match readAllLimited data readErr (Size hdr) with
        | Err e => Err ("reading MMDB file: " +:+ e)
        | Ok mmdbData => Ok mmdbData
        end
    else extractMMDBFromTar next
  end.

(** ** [net/netip] *)

(** The field [z] of [netip.Addr].  A [netip.Prefix] never carries a zone
    ([PrefixFrom] strips it), so the zoned case does not occur in this
    program. *)
Inductive addrZ := z0 | z4 | z6noz.

Global Instance addrZ_eq_dec : EqDecision addrZ.
Proof. solve_decision. Defined.

(** [netip.Addr]: a 128-bit value in two 64-bit halves, and [z]. *)
Record Addr := { hi : Z; lo : Z; z : addrZ }.

(** [netip.Prefix] *)
Record Prefix := { ip : Addr; bitsPlusOne : Z }.

Global Instance Addr_eq_dec : EqDecision Addr.
Proof. solve_decision. Defined.
Global Instance Prefix_eq_dec : EqDecision Prefix.
Proof. solve_decision. Defined.

Definition Is4 (a : Addr) : bool := bool_decide (z a = z4).
Definition Is6 (a : Addr) : bool :=
  negb (bool_decide (z a = z0)) && negb (bool_decide (z a = z4)).
Definition Is4In6 (a : Addr) : bool :=
  Is6 a && (hi a =? 0) && (Z.shiftr (lo a) 32 =? 0xffff).

Definition uint8 (x : Z) : Z := x mod 2 ^ 8.
Definition uint16 (x : Z) : Z := x mod 2 ^ 16.

(** [ip.v4(i)] and [ip.v6u16(i)] *)
Definition v4 (a : Addr) (i : Z) : Z := uint8 (Z.shiftr (lo a) ((3 - i) * 8)).
Definition v6u16 (a : Addr) (i : Z) : Z :=
  uint16 (Z.shiftr (if (i / 4) mod 2 =? 0 then hi a else lo a)
                   ((3 - i mod 4) * 16)).

(** [digits[x]] of ["0123456789abcdef"] *)
Definition digit (x : Z) : string :=
  match String.get (Z.to_nat x) "0123456789abcdef" with
  | Some c => String c ""
  | None => ""
  end.

Definition appendDecimal (b : string) (x : Z) : string :=
  let b := if 100 <=? x then b +:+ digit (x / 100) else b in
  let b := if 10 <=? x then b +:+ digit (x / 10 mod 10) else b in
  b +:+ digit (x mod 10).

Definition appendHex (b : string) (x : Z) : string :=
  let b := if 0x1000 <=? x then b +:+ digit (Z.shiftr x 12) else b in
  let b := if 0x100 <=? x then b +:+ digit (Z.land (Z.shiftr x 8) 0xf) else b in
  let b := if 0x10 <=? x then b +:+ digit (Z.land (Z.shiftr x 4) 0xf) else b in
  b +:+ digit (Z.land x 0xf).

Definition appendTo4 (ret : string) (a : Addr) : string :=
  let ret := appendDecimal ret (v4 a 0) in
  let ret := ret +:+ "." in
  let ret := appendDecimal ret (v4 a 1) in
  let ret := ret +:+ "." in
  let ret := appendDecimal ret (v4 a 2) in
  let ret := ret +:+ "." in
  appendDecimal ret (v4 a 3).

(** The inner loop of the zero-run search of [appendTo6]:
    [for j < 8 && ip.v6u16(j) == 0 { j++ }]. *)
Fixpoint zeroRunEnd (fuel : nat) (a : Addr) (j : Z) : Z :=
  match fuel with
  | O => j
  | S fuel' =>
    if (j <? 8) && (v6u16 a j =? 0) then zeroRunEnd fuel' a (j + 1) else j
  end.

(** The outer loop: the longest run of at least two zero groups. *)
Fixpoint zeroRun (fuel : nat) (a : Addr) (i : Z) (zeroStart zeroEnd : Z) : Z * Z :=
  match fuel with
  | O => (zeroStart, zeroEnd)
  | S fuel' =>
    if i <? 8 then
      let j := zeroRunEnd 8 a i in
      let l := j - i in
      if (2 <=? l) && (zeroEnd - zeroStart <? l)
      then zeroRun fuel' a (i + 1) i j
      else zeroRun fuel' a (i + 1) zeroStart zeroEnd
    else (zeroStart, zeroEnd)
  end.

(** The printing loop of [appendTo6]. *)
Fixpoint appendGroups (fuel : nat) (a : Addr) (zeroStart zeroEnd : Z) (i : Z)
    (ret : string) : string :=
  match fuel with
  | O => ret
  | S fuel' =>
    if i <? 8 then
      if i =? zeroStart then
        let ret := ret +:+ "::" in
        let i := zeroEnd in
        if 8 <=? i then ret
        else appendGroups fuel' a zeroStart zeroEnd (i + 1) (appendHex ret (v6u16 a i))
      else
        let ret := if 0 <? i then ret +:+ ":" else ret in
        appendGroups fuel' a zeroStart zeroEnd (i + 1) (appendHex ret (v6u16 a i))
    else ret
  end.

Definition appendTo6 (ret : string) (a : Addr) : string :=
  let '(zeroStart, zeroEnd) := zeroRun 8 a 0 255 255 in
  appendGroups 8 a zeroStart zeroEnd 0 ret.

(** [ip.Unmap()] *)
Definition Unmap (a : Addr) : Addr :=
  if Is4In6 a then {| hi := hi a; lo := lo a; z := z4 |} else a.

(** [Addr.String] *)
Definition AddrString (a : Addr) : string :=
  match z a with
  | z0 => "invalid IP"
  | z4 => appendTo4 "" a
  | z6noz =>
    if Is4In6 a then appendTo4 "::ffff:" (Unmap a)
    else appendTo6 "" a
  end.

Definition IsValid (p : Prefix) : bool := 0 <? bitsPlusOne p.
Definition Bits (p : Prefix) : Z := bitsPlusOne p - 1.

(** [Prefix.String] *)
Definition PrefixString (p : Prefix) : string :=
  if negb (IsValid p) then "invalid Prefix"
  else AddrString (ip p) +:+ "/" +:+ Itoa (Bits p).


(** ** The decoder and the aggregator *)

(** [countryRecord] *)
Record CountryT := { ISOCode : string }.
Record countryRecord := { Country : CountryT }.

(** One [maxminddb.Result] of [db.Networks()]: what [result.Decode(&rec)]
    does ([None] when it returns an error) and [result.Prefix()]. *)
Record Result := { Decode : option countryRecord; ResultPrefix : Prefix }.

(** [maxminddb.FromBytes] followed by [db.Networks()]: the binary format of
    the database is not part of this program, the decoder is a parameter of
    whatever opens a database.  It fails or gives the networks in the order
    it yields them. *)
Class MaxMindDB := { maxminddbNetworks : string -> result (list Result) }.

(** [geoIPGenerator], without its HTTP client. *)
Record geoIPGenerator := {
  ipv4 : gmap string (list Prefix);
  ipv6 : gmap string (list Prefix)
}.

(** [newGeoIPGenerator] *)
Definition newGeoIPGenerator : geoIPGenerator := {| ipv4 := ∅; ipv6 := ∅ |}.

(** [m[code]] of a Go map: the zero value, a nil slice, for a missing key. *)
Definition index (m : gmap string (list Prefix)) (code : string) : list Prefix :=
  default [] (m !! code).

(** [m[code] = append(m[code], pfx)] *)
Definition appendTo (m : gmap string (list Prefix)) (code : string) (pfx : Prefix)
    : gmap string (list Prefix) :=
  <[code := index m code ++ [pfx]]> m.

(** The body of the loop of [loadGeoIPData] for one result. *)
Definition loadResult `{UnicodeTables} (g : geoIPGenerator) (result : Result)
    : geoIPGenerator :=
  match Decode result with
  | None => g (* Skip invalid records *)
  | Some rec =>
    let pfx := ResultPrefix result in
    let code := ISOCode (Country rec) in
    if bool_decide (code = "") || negb (isValidCountryCode code) then g
    else if Is4 (ip pfx)
    then {| ipv4 := appendTo (ipv4 g) code pfx; ipv6 := ipv6 g |}
    else {| ipv4 := ipv4 g; ipv6 := appendTo (ipv6 g) code pfx |}
  end.

(** [for result := range db.Networks()] *)
Definition loadNetworks `{UnicodeTables} (g : geoIPGenerator) (networks : list Result)
    : geoIPGenerator :=
  foldl loadResult g networks.

(** [loadGeoIPData]: the generator afterwards and the error returned. *)
Definition loadGeoIPData `{UnicodeTables} `{MaxMindDB} (g : geoIPGenerator)
    (mmdbData : string)
    : geoIPGenerator * option string :=
  match maxminddbNetworks mmdbData with
  | Err err => (g, Some ("opening MMDB: " +:+ err))
  | Ok networks => (loadNetworks g networks, None)
  end.

(** ** The file system *)

(** The files with their content, the directories, the standard output, and
    the failures of the operating system: for a path, the error that
    [os.MkdirAll], [os.OpenFile] or a write to the file returns, if any. *)
Record World := {
  files : gmap string string;
  dirs : gset string;
  stdout : string;
  mkdirErr : string -> option string;
  openErr : string -> option string;
  writeErr : string -> option string
}.

(** A computation on the world. *)
Definition IO (A : Type) : Type := World -> A * World.

Global Instance IO_ret : MRet IO := fun A a w => (a, w).
Global Instance IO_bind : MBind IO := fun A B k m w =>
  let '(a, w') := m w in k a w'.

(** The world after the directory [path] was made. *)
Definition withDir (w : World) (path : string) : World :=
  {| files := files w; dirs := {[path]} ∪ dirs w; stdout := stdout w;
     mkdirErr := mkdirErr w; openErr := openErr w; writeErr := writeErr w |}.

(** The directories above [path], outermost first: [path] cut before every
    separator that follows a name and is followed by one.  [os.MkdirAll]
    makes them, when they are missing, before [path] itself
    ([MkdirAll(parent)] comes before [Mkdir(path)]).  [seen] holds the
    bytes before [rest], the last one first. *)
Fixpoint ancestorsFrom (seen rest : list ascii) : list string :=
  match rest with
  | [] => []
  | c :: rest' =>
    (if IsPathSeparator c &&
        match seen with
        | [] => false
        | p :: _ => negb (IsPathSeparator p)
        end &&
        existsb (fun x => negb (IsPathSeparator x)) rest'
     then [ofBytes (reverse seen)] else []) ++
    ancestorsFrom (c :: seen) rest'
  end.

Definition ancestors (path : string) : list string :=
  ancestorsFrom [] (String.list_ascii_of_string path).

(** The directories above a path that a failing [os.MkdirAll] has made:
    those before the first one that cannot be made. *)
Fixpoint madeBefore (w : World) (above : list string) : list string :=
  match above with
  | [] => []
  | d :: above' =>
    match mkdirErr w d with
    | None => d :: madeBefore w above'
    | Some _ => []
    end
  end.

(** [os.MkdirAll(path, dirPermissions)]; [mkdirErr w path] is the error
    of the call, if any.  A call that succeeds leaves [path] and every
    directory above it; a call that fails may have made directories above
    [path] before it failed. *)
Definition MkdirAll (path : string) : IO (option string) := fun w =>
  match mkdirErr w path with
  | Some err => (Some err, foldl withDir w (madeBefore w (ancestors path)))
  | None => (None, foldl withDir w (ancestors path ++ [path]))
  end.

Definition setFile (w : World) (name content : string) : World :=
  {| files := <[name := content]> (files w); dirs := dirs w;
     stdout := stdout w; mkdirErr := mkdirErr w; openErr := openErr w;
     writeErr := writeErr w |}.

(** [os.OpenFile(name, os.O_CREATE|os.O_WRONLY|os.O_TRUNC, filePermissions)]:
    the file exists and is empty afterwards; the handle is the name. *)
Definition OpenFile (name : string) : IO (result string) := fun w =>
  match openErr w name with
  | Some err => (Err err, w)
  | None => (Ok name, setFile w name "")
  end.

(** [fmt.Fprint(f, s)]: appends [s] to the file, or fails and writes
    nothing.  It returns the error. *)
Definition Fprint (f : string) (s : string) : IO (option string) := fun w =>
  match writeErr w f with
  | Some err => (Some err, w)
  | None => (None, setFile w f (default "" (files w !! f) +:+ s))
  end.

Definition newline : string := String (ascii_of_nat 10) "".

(** [fmt.Fprintln(f, s)] *)
Definition Fprintln (f : string) (s : string) : IO (option string) :=
  Fprint f (s +:+ newline).

(** [fmt.Printf] to the standard output *)
Definition Printf (s : string) : IO unit := fun w =>
  (tt, {| files := files w; dirs := dirs w; stdout := stdout w +:+ s;
          mkdirErr := mkdirErr w; openErr := openErr w;
          writeErr := writeErr w |}).

(** ** The set-file writer *)

(** [writeNFTSet]: the results of the [fmt] calls are not looked at, and
    the function returns [nil]. *)
Definition writeNFTSet (w : string) (code : string) (prefixes : list Prefix)
    (ipType : string) : IO (option string) :=
  Fprint w ("    set " +:+ code +:+ " {" +:+ newline) ;;
  Fprint w ("        type " +:+ ipType +:+ "_addr" +:+ newline) ;;
  Fprintln w "        flags interval" ;;
  Fprint w "        elements = { " ;;
  let parts := map PrefixString prefixes in
  Fprint w (Join parts ", ") ;;
  Fprintln w " }" ;;
  Fprintln w "    }" ;;
  mret None.

(** [sort.Strings]: ascending in Go's order of strings, which compares
    bytes.  For strings every sorting algorithm gives the same slice. *)
Definition sortStrings (codes : list string) : list string :=
  merge_sort String.le codes.

(** The loop [for _, code := range codes] of [generateGlobalFile]. *)
Fixpoint writeSets (f : string) (countryMap : gmap string (list Prefix))
    (ipType : string) (codes : list string) : IO (option string) :=
  match codes with
  | [] => mret None
  | code :: codes' =>
    let prefixes := index countryMap code in
    if bool_decide (length prefixes = 0%nat) then
      writeSets f countryMap ipType codes'
    else
      err ← writeNFTSet f code prefixes ipType ;
      match err with
      | Some err => mret (Some ("writing NFT set for " +:+ code +:+ ": " +:+ err))
      | None => writeSets f countryMap ipType codes'
      end
  end.

(** [generateGlobalFile]; [order] is the order in which
    [for code := range countryMap] visits the keys. *)
Definition generateGlobalFile (order : list string)
    (countryMap : gmap string (list Prefix)) (filename ipType : string)
    : IO (option string) :=
  r ← OpenFile filename ;
  match r with
  | Err err => mret (Some ("creating file " +:+ filename +:+ ": " +:+ err))
  | Ok f =>
    Fprintln f "#!/usr/sbin/nft -f" ;;
    Fprintln f "table inet geoip {" ;;
    (* Sort country codes for consistent output *)
    let codes := sortStrings order in
    err ← writeSets f countryMap ipType codes ;
    match err with
    | Some err => mret (Some err)
    | None =>
      Fprintln f "}" ;;
      Printf ("✅ Generated " +:+ filename +:+ newline) ;;
      mret None
    end
  end.

(** [generateCountryFile] *)
Definition generateCountryFile (code : string) (prefixes : list Prefix)
    (ipType : string) : IO (option string) :=
  if bool_decide (length prefixes = 0%nat) then mret None
  else
    let countryDir := filepathJoin "by_country" code in
    err ← MkdirAll countryDir ;
    match err with
    | Some err =>
      mret (Some ("creating country directory " +:+ countryDir +:+ ": " +:+ err))
    | None =>
      let filename := filepathJoin countryDir (code +:+ "_" +:+ ipType +:+ ".nft") in
      r ← OpenFile filename ;
      match r with
      | Err err => mret (Some ("creating file " +:+ filename +:+ ": " +:+ err))
      | Ok f =>
        Fprintln f "#!/usr/sbin/nft -f" ;;
        Fprintln f "table inet geoip {" ;;
        err ← writeNFTSet f code prefixes ipType ;
        match err with
        | Some err => mret (Some ("writing NFT set: " +:+ err))
        | None =>
          Fprintln f "}" ;;
          mret None
        end
      end
    end.

(** One of the two loops of [generateCountryFiles], over the keys of
    [countryMap] in the order [order]. *)
Fixpoint countryFilesLoop (countryMap : gmap string (list Prefix))
    (ipType family : string) (order : list string) : IO (option string) :=
  match order with
  | [] => mret None
  | code :: order' =>
    err ← generateCountryFile code (index countryMap code) ipType ;
    match err with
    | Some err =>
      mret (Some ("generating " +:+ family +:+ " file for " +:+ code +:+ ": " +:+ err))
    | None => countryFilesLoop countryMap ipType family order'
    end
  end.

(** [generateCountryFiles]; [order4] and [order6] are the orders in which
    the two [range] loops visit the keys. *)
Definition generateCountryFiles (g : geoIPGenerator) (order4 order6 : list string)
    : IO (option string) :=
  err ← countryFilesLoop (ipv4 g) "ipv4" "IPv4" order4 ;
  match err with
  | Some err => mret (Some err)
  | None => countryFilesLoop (ipv6 g) "ipv6" "IPv6" order6
  end.

(** The four [range] orders of one run of [generateAllFiles]. *)
Record RangeOrders := {
  global4 : list string; global6 : list string;
  country4 : list string; country6 : list string
}.

(** [generateAllFiles] *)
Definition generateAllFiles (g : geoIPGenerator) (o : RangeOrders)
    : IO (option string) :=
  (* Create output directory *)
  err ← MkdirAll "by_country" ;
  match err with
  | Some err => mret (Some ("creating by_country directory: " +:+ err))
  | None =>
    (* Generate general files *)
    err ← generateGlobalFile (global4 o) (ipv4 g) "geoip_ipv4.nft" "ipv4" ;
    match err with
    | Some err => mret (Some ("generating IPv4 global file: " +:+ err))
    | None =>
      err ← generateGlobalFile (global6 o) (ipv6 g) "geoip_ipv6.nft" "ipv6" ;
      match err with
      | Some err => mret (Some ("generating IPv6 global file: " +:+ err))
      | None =>
        (* Generate per-country files *)
        err ← generateCountryFiles g (country4 o) (country6 o) ;
        match err with
        | Some err => mret (Some ("generating country files: " +:+ err))
        | None => mret None
        end
      end
    end
  end.


(** ** The run *)

(** What [g.client.Do(req)] answers: the status code and the body.  The
    body is read through [io.LimitReader] and [gzip.NewReader]: either the
    gzip reader cannot be made, or the tar reader gets a stream from
    it. *)
Record Response := { StatusCode : Z; Body : result tarStream }.

(** The HTTP transport is not part of this program: for a URL, the error
    of [http.NewRequestWithContext], if any, and the outcome of
    [client.Do], an error (a timeout among them) or a response. *)
Class HTTP := {
  newRequestErr : string -> option string;
  clientDo : string -> result Response
}.

Definition StatusOK : Z := 200.

(** [downloadAndExtractMMDB] *)
Definition downloadAndExtractMMDB `{HTTP} (url : string) : result string :=
  match newRequestErr url with
  | Some err => Err ("creating request: " +:+ err)
  | None =>
    match clientDo url with
    | Err err => Err ("HTTP request failed: " +:+ err)
    | Ok resp =>
      if negb (StatusCode resp =? StatusOK) then
        Err ("HTTP status " +:+ Itoa (StatusCode resp))
      else
        match Body resp with
        | Err err => Err ("gzip reader: " +:+ err)
        | Ok gz => extractMMDBFromTar gz
        end
    end
  end.

Definition url : string :=
  "https://github.com/GitSquared/node-geolite2-redist/raw/refs/heads/master/redist/GeoLite2-Country.tar.gz".

(** [run], on the generator [g]; [o] gives the orders of the [range]
    loops over the bucket mappings. *)
Definition run `{UnicodeTables} `{MaxMindDB} `{HTTP} (g : geoIPGenerator)
    (o : RangeOrders) : IO (option string) :=
  match downloadAndExtractMMDB url with
  | Err err => mret (Some ("failed to download and extract MMDB: " +:+ err))
  | Ok mmdbData =>
    match loadGeoIPData g mmdbData with
    | (_, Some err) => mret (Some ("failed to load GeoIP data: " +:+ err))
    | (g', None) =>
      err ← generateAllFiles g' o ;
      match err with
      | Some err => mret (Some ("failed to generate files: " +:+ err))
      | None => mret None
      end
    end
  end.

(** ** Definitions that follow the words of the specification *)

(** A byte in [A-Z]. *)
Definition isUpperByte (c : ascii) : bool :=
  (65 <=? byteval c) && (byteval c <=? 90).

(** A rune in ['A'..'Z'], the test of [isAlphaOnly]. *)
Definition inAZ (r : Z) : bool := negb ((r <? 65) || (90 <? r)).

(** The pattern [^[A-Z]{2}$] of the specification: exactly two bytes, both
    uppercase letters. *)
Definition matchesTwoUpper (s : string) : bool :=
  match s with
  | String a (String b EmptyString) => isUpperByte a && isUpperByte b
  | _ => false
  end.

(** The pairs of the decoder that count for the bucket of [code] in one
    family: the record decodes, its ISO code is [code], the code passes the
    validation, and the prefix's address is of the family ([fam4] for IPv4,
    otherwise IPv6). *)
Definition selects `{UnicodeTables} (fam4 : bool) (code : string) (r : Result)
    : bool :=
  match Decode r with
  | None => false
  | Some rec =>
    bool_decide (ISOCode (Country rec) = code) &&
    isValidCountryCode code &&
    bool_decide (Is4 (ip (ResultPrefix r)) = fam4)
  end.

(** The prefixes the decoder yields for [code] in one family, in the order
    it yields them and as often as it yields them. *)
Definition yielded `{UnicodeTables} (fam4 : bool) (code : string)
    (networks : list Result)
    : list Prefix :=
  map ResultPrefix (List.filter (selects fam4 code) networks).

(** What a bucket mapping holds under [code] when [l] are its prefixes:
    no key for an empty list. *)
Definition bucketOf (l : list Prefix) : option (list Prefix) :=
  match l with
  | [] => None
  | _ => Some l
  end.

(** The invariant of the buckets: every key is a valid country code and no
    list is empty. *)
Definition bucketsOk `{UnicodeTables} (m : gmap string (list Prefix)) : Prop :=
  forall code l, m !! code = Some l -> isValidCountryCode code = true /\ l <> [].

(** The bucket mapping of one family. *)
Definition bucket (fam4 : bool) (g : geoIPGenerator) : gmap string (list Prefix) :=
  if fam4 then ipv4 g else ipv6 g.

(** An entry of the archive as the tar reader delivers it. *)
Record Entry := {
  entryHeader : Header;
  entryData : string;
  entryReadErr : option string
}.

(** The stream that delivers the entries [es] and then goes on as [tl]. *)
Definition entries (es : list Entry) (tl : tarStream) : tarStream :=
  foldr (fun e s => TarEntry (entryHeader e) (entryData e) (entryReadErr e) s) tl es.

(** A qualifying entry: its name passes the path-safety check and ends
    with the suffix of the database file. *)
Definition qualifies (hdr : Header) : bool :=
  isValidTarPath (Name hdr) && HasSuffix (Name hdr) ".mmdb".

Definition notFound : string := "MMDB file not found in archive".

Definition tooLarge (size : Z) : string :=
  "MMDB file too large: " +:+ Itoa size +:+ " bytes".

(** The bytes of a string. *)
Definition bytes (s : string) : list ascii := String.list_ascii_of_string s.

(** Two dots in a row somewhere in a sequence of bytes. *)
Fixpoint hasDotDot (l : list ascii) : bool :=
  match l with
  | [] => false
  | c1 :: t =>
    match t with
    | c2 :: _ => bool_decide (c1 = dot) && bool_decide (c2 = dot)
    | [] => false
    end || hasDotDot t
  end.

Definition backslash : ascii := "\"%char.

(** A buffer of [Clean] (reversed) that holds no two dots in a row and no
    backslash, and whose first byte is not the separator. *)
Definition goodOut (out : list ascii) : Prop :=
  hasDotDot out = false /\ (backslash ∉ out) /\ last out <> Some Separator.

(** The first segment of a path: its bytes up to the next separator, and
    what follows them. *)
Fixpoint spanElem (p : string) : list ascii * string :=
  match p with
  | EmptyString => ([], EmptyString)
  | String c r =>
    if IsPathSeparator c then ([], p)
    else let '(e, r') := spanElem r in (c :: e, r')
  end.

(** The segments of a path that are not empty, in order. *)
Fixpoint elemsOf (fuel : nat) (p : string) : list (list ascii) :=
  match fuel with
  | O => []
  | S fuel' =>
    match p with
    | EmptyString => []
    | String c r =>
      if IsPathSeparator c then elemsOf fuel' r
      else let '(e, r') := spanElem p in e :: elemsOf fuel' r'
    end
  end.

Definition pathElements (p : string) : list (list ascii) :=
  elemsOf (String.length p) p.

(** A path climbs out when one of its [..] segments has no ordinary
    segment before it left to cancel: [depth] counts the ordinary segments
    not yet cancelled. *)
Fixpoint escapesFrom (depth : nat) (es : list (list ascii)) : bool :=
  match es with
  | [] => false
  | e :: es' =>
    if bool_decide (e = [dot]) then escapesFrom depth es'
    else if bool_decide (e = [dot; dot]) then
      match depth with
      | O => true
      | S depth' => escapesFrom depth' es'
      end
    else escapesFrom (S depth) es'
  end.

Definition escapes (p : string) : bool := escapesFrom 0 (pathElements p).

(** [Clean]'s loop, read segment by segment. *)
Fixpoint cleanElems (rooted : bool) (es : list (list ascii))
    (out : list ascii) (dotdot : nat) : list ascii :=
  match es with
  | [] => out
  | e :: es' =>
    if bool_decide (e = [dot]) then cleanElems rooted es' out dotdot
    else if bool_decide (e = [dot; dot]) then
      if bool_decide (dotdot < length out)%nat then
        match out with
        | x :: below => cleanElems rooted es' (backtrack dotdot x below) dotdot
        | [] => cleanElems rooted es' out dotdot
        end
      else if negb rooted then
        let out1 := if bool_decide (0 < length out)%nat then Separator :: out else out in
        let out2 := dot :: dot :: out1 in
        cleanElems rooted es' out2 (length out2)
      else cleanElems rooted es' out dotdot
    else
      let out1 :=
        if (rooted && negb (bool_decide (length out = 1%nat))) ||
           (negb rooted && negb (bool_decide (length out = 0%nat)))
        then Separator :: out else out in
      cleanElems rooted es' (reverse e ++ out1) dotdot
  end.

(** The buffer of [Clean] on a path that is not rooted: [depth] segments
    on top of the [dotdot] bytes that [..] must not remove. *)
Inductive stacked (dotdot : nat) : nat -> list ascii -> Prop :=
| stacked_base out : length out = dotdot -> stacked dotdot 0 out
| stacked_push depth out e :
    stacked dotdot depth out ->
    e <> [] -> Forall (fun c => IsPathSeparator c = false) e ->
    stacked dotdot (S depth)
      (reverse e ++ (if bool_decide (length out = 0%nat) then out else Separator :: out)).

(** The segments of a path that remain when every [.] segment is dropped
    and every [..] segment takes away the nearest segment before it that
    is still there; [None] when a [..] segment finds none: the path climbs
    out.  [kept] holds the segments still there, the last one first. *)
Fixpoint remainingFrom (kept es : list (list ascii)) : option (list (list ascii)) :=
  match es with
  | [] => Some (reverse kept)
  | e :: es' =>
    if bool_decide (e = [dot]) then remainingFrom kept es'
    else if bool_decide (e = [dot; dot]) then
      match kept with
      | [] => None
      | _ :: kept' => remainingFrom kept' es'
      end
    else remainingFrom (e :: kept) es'
  end.

Definition remaining (p : string) : option (list (list ascii)) :=
  remainingFrom [] (pathElements p).

(** The first of the segments begins with a backslash. *)
Definition beginsWithBackslash (segs : list (list ascii)) : bool :=
  match segs with
  | (c :: _) :: _ => bool_decide (c = backslash)
  | _ => false
  end.

(** The remaining segments that the check lets through: none has two dots
    in a row and the first does not begin with a backslash. *)
Definition safeSegments (segs : list (list ascii)) : bool :=
  forallb (fun e => negb (hasDotDot e)) segs && negb (beginsWithBackslash segs).

(** The buffer of [Clean] (reversed) that holds the segments [kept], the
    last one first, with the separator between them. *)
Fixpoint buffered (kept : list (list ascii)) : list ascii :=
  match kept with
  | [] => []
  | e :: kept' =>
    reverse e ++
    (if bool_decide (length (buffered kept') = 0%nat) then buffered kept'
     else Separator :: buffered kept')
  end.

(** A path with a [..] segment. *)
Definition hasParentSegment (p : string) : bool :=
  bool_decide ([dot; dot] ∈ pathElements p).

(** The two lines every output file starts with, and its last line. *)
Definition fileHeader : string :=
  "#!/usr/sbin/nft -f" +:+ newline +:+ "table inet geoip {" +:+ newline.

Definition fileFooter : string := "}" +:+ newline.

(** The set block of the specification for the country [code], the
    prefixes [prefixes] and the family token [ipType]. *)
Definition setBlock (code : string) (prefixes : list Prefix) (ipType : string)
    : string :=
  "    set " +:+ code +:+ " {" +:+ newline +:+
  "        type " +:+ ipType +:+ "_addr" +:+ newline +:+
  "        flags interval" +:+ newline +:+
  "        elements = { " +:+ Join (map PrefixString prefixes) ", " +:+ " }" +:+ newline +:+
  "    }" +:+ newline.

(** The set blocks of the countries [codes], one after the other. *)
Fixpoint setBlocks (countryMap : gmap string (list Prefix)) (ipType : string)
    (codes : list string) : string :=
  match codes with
  | [] => ""
  | code :: codes' =>
    setBlock code (index countryMap code) ipType +:+ setBlocks countryMap ipType codes'
  end.

(** [order] is an order in which [range] can visit the keys of [m]: every
    key once. *)
Definition rangeOrder (m : gmap string (list Prefix)) (order : list string) : Prop :=
  NoDup order /\ forall code, code ∈ order <-> is_Some (m !! code).

(** The world after [stdout] has received [s]. *)
Definition printed (w : World) (s : string) : World :=
  {| files := files w; dirs := dirs w; stdout := stdout w +:+ s;
     mkdirErr := mkdirErr w; openErr := openErr w; writeErr := writeErr w |}.

(** The name of the file of a country and a family token. *)
Definition countryFileName (code ipType : string) : string :=
  "by_country/" +:+ code +:+ "/" +:+ code +:+ "_" +:+ ipType +:+ ".nft".

(** The family token of the writer. *)
Definition ipTypeOf (fam4 : bool) : string := if fam4 then "ipv4" else "ipv6".

(** The uppercase letters, and the strings of two of them. *)
Definition upperLetters : list ascii :=
  (fun n => ascii_of_N (Z.to_N n)) <$> seqZ 65 26.

Definition upperCodes : list string :=
  a ← upperLetters; b ← upperLetters; [String a (String b EmptyString)].

(** The operating system reports no failure. *)
Definition noFaults (w : World) : Prop :=
  (forall p, mkdirErr w p = None) /\ (forall p, openErr w p = None) /\
  (forall p, writeErr w p = None).

(** The content of the file of a country. *)
Definition countryFile (code : string) (prefixes : list Prefix) (ipType : string)
    : string :=
  fileHeader +:+ setBlock code prefixes ipType +:+ fileFooter.

(** *** A line-oriented reader of set blocks *)

Definition lineFeed : ascii := ascii_of_nat 10.
Definition comma : ascii := ","%char.
Definition space : ascii := " "%char.

(** The lines of a text, as [strings.Split(text, "\n")] gives them. *)
Fixpoint splitLines (cur : list ascii) (s : string) : list string :=
  match s with
  | EmptyString => [ofBytes (reverse cur)]
  | String c r =>
    if bool_decide (c = lineFeed) then ofBytes (reverse cur) :: splitLines [] r
    else splitLines (c :: cur) r
  end.

(** The pieces of a text between the separators [", "]. *)
Fixpoint splitCommaSpace (cur : list ascii) (s : string) : list string :=
  match s with
  | EmptyString => [ofBytes (reverse cur)]
  | String c r =>
    match r with
    | String c2 r2 =>
      if bool_decide (c = comma) && bool_decide (c2 = space)
      then ofBytes (reverse cur) :: splitCommaSpace [] r2
      else splitCommaSpace (c :: cur) r
    | EmptyString => splitCommaSpace (c :: cur) r
    end
  end.

(** [s] without its prefix [p], when it has it. *)
Definition stripPrefix (p s : string) : option string :=
  if HasPrefix s p then Some (strDrop (String.length p) s) else None.

(** [s] without its suffix [suf], when it has it. *)
Definition stripSuffix (suf s : string) : option string :=
  if HasSuffix s suf
  then Some (strTake (String.length s - String.length suf) s)
  else None.

(** The elements between the braces: none for an empty body. *)
Definition readElements (body : string) : list string :=
  if bool_decide (body = "") then [] else splitCommaSpace [] body.

(** The reader: the five lines of a set block give the country code, the
    family token and the elements. *)
Definition readSetBlock (text : string) : option (string * string * list string) :=
  match splitLines [] text with
  | [l1; l2; l3; l4; l5; EmptyString] =>
    code ← stripPrefix "    set " l1 ≫= stripSuffix " {";
    ipType ← stripPrefix "        type " l2 ≫= stripSuffix "_addr";
    body ← stripPrefix "        elements = { " l4 ≫= stripSuffix " }";
    if bool_decide (l3 = "        flags interval") && bool_decide (l5 = "    }")
    then Some (code, ipType, readElements body)
    else None
  | _ => None
  end.

(** A text without the byte [c]. *)
Definition lacks (c : ascii) (s : string) : bool :=
  forallb (fun x => negb (bool_decide (x = c))) (bytes s).

(** A text with neither a comma nor a line feed. *)
Definition plainText (s : string) : bool := lacks comma s && lacks lineFeed s.

(** Two worlds with the same failures of the operating system. *)
Definition sameFaults (w w' : World) : Prop :=
  mkdirErr w' = mkdirErr w /\ openErr w' = openErr w /\ writeErr w' = writeErr w.

(** *** Data for the examples *)

(** Unicode tables that leave every string as it is. *)
Definition plainTables : UnicodeTables := {| unicodeMapToUpper := fun s => s |}.

Definition prefix4 (a b c d bits : Z) : Prefix :=
  {| ip := {| hi := 0; lo := a * 2 ^ 24 + b * 2 ^ 16 + c * 2 ^ 8 + d; z := z4 |};
     bitsPlusOne := bits + 1 |}.

Definition prefix6 (h l bits : Z) : Prefix :=
  {| ip := {| hi := h; lo := l; z := z6noz |}; bitsPlusOne := bits + 1 |}.

Definition network (code : string) (p : Prefix) : Result :=
  {| Decode := Some {| Country := {| ISOCode := code |} |}; ResultPrefix := p |}.

(** What a database yields in the examples: the three networks of the
    example of the specification, a record that does not decode, an IPv6
    network, a second country, and the first network once more. *)
Definition exampleNetworks : list Result :=
  [ network "US" (prefix4 1 2 3 0 24);
    network "us" (prefix4 4 5 6 0 24);
    network "" (prefix4 7 8 9 0 24);
    {| Decode := None; ResultPrefix := prefix4 10 0 0 0 8 |};
    network "US" (prefix6 0x20010db800000000 0 32);
    network "DE" (prefix4 9 9 9 0 24);
    network "US" (prefix4 1 2 3 0 24) ].

Definition exampleDB : MaxMindDB :=
  {| maxminddbNetworks := fun _ => Ok exampleNetworks |}.

Definition exampleGenerator : geoIPGenerator :=
  fst (@loadGeoIPData plainTables exampleDB newGeoIPGenerator "").

(** A world without files in which nothing fails, and one in which every
    write fails. *)
Definition quietWorld : World :=
  {| files := ∅; dirs := ∅; stdout := "";
     mkdirErr := fun _ => None; openErr := fun _ => None;
     writeErr := fun _ => None |}.

Definition fullDiskWorld : World :=
  {| files := ∅; dirs := ∅; stdout := "";
     mkdirErr := fun _ => None; openErr := fun _ => None;
     writeErr := fun _ => Some "no space left on device" |}.

Definition exampleOrders : RangeOrders :=
  {| global4 := ["US"; "DE"]; global6 := ["US"];
     country4 := ["DE"; "US"]; country6 := ["US"] |}.

(** From [w] to [w'] no file other than [f] has changed, no directory was
    made, and the failures of the operating system are the same. *)
Definition touchesOnly (f : string) (w w' : World) : Prop :=
  (forall n, n <> f -> files w' !! n = files w !! n) /\
  dirs w' = dirs w /\ sameFaults w w'.

(** The same, and the file [f] exists in [w']. *)
Definition written (f : string) (w w' : World) : Prop :=
  touchesOnly f w w' /\ is_Some (files w' !! f).

(** The world after the file of the country [code] was written in the
    family [fam4], when nothing fails: with the directory of the country
    under [by_country] and the file in it; as it was for a country without
    prefixes. *)
Definition afterCountry (m : gmap string (list Prefix)) (fam4 : bool)
    (w : World) (code : string) : World :=
  match index m code with
  | [] => w
  | prefixes =>
    setFile (withDir (withDir w "by_country") ("by_country/" +:+ code))
            (countryFileName code (ipTypeOf fam4))
            (countryFile code prefixes (ipTypeOf fam4))
  end.

(** The content of the global file of a family: the set blocks of the
    countries with a prefix, in the order of [sort.Strings]. *)
Definition globalFile (m : gmap string (list Prefix)) (ipType : string)
    (order : list string) : string :=
  fileHeader +:+
  setBlocks m ipType (filter (fun code => index m code <> []) (sortStrings order)) +:+
  fileFooter.

(** The line [generateGlobalFile] prints for a file. *)
Definition generatedLine (filename : string) : string :=
  "✅ Generated " +:+ filename +:+ newline.

(** The family as the error messages of [generateCountryFiles] name it. *)
Definition familyOf (fam4 : bool) : string := if fam4 then "IPv4" else "IPv6".

(** The country order of one family. *)
Definition countryOrder (fam4 : bool) (o : RangeOrders) : list string :=
  if fam4 then country4 o else country6 o.

(** The per-country loop failed at the country [code] with the message
    [msg]: the directory could not be made or the file could not be
    opened. *)
Definition countryFailure (w : World) (family ipType code msg : string) : Prop :=
  let dir := filepathJoin "by_country" code in
  let file := filepathJoin dir (code +:+ "_" +:+ ipType +:+ ".nft") in
  exists e,
    (mkdirErr w dir = Some e /\
     msg = "generating " +:+ family +:+ " file for " +:+ code +:+
           ": creating country directory " +:+ dir +:+ ": " +:+ e) \/
    (mkdirErr w dir = None /\ openErr w file = Some e /\
     msg = "generating " +:+ family +:+ " file for " +:+ code +:+
           ": creating file " +:+ file +:+ ": " +:+ e).

(** A world in which the IPv6 global file cannot be opened and every write
    fails. *)
Definition lockedWorld : World :=
  {| files := ∅; dirs := ∅; stdout := "";
     mkdirErr := fun _ => None;
     openErr := fun p => if String.eqb p "geoip_ipv6.nft"
                         then Some "permission denied" else None;
     writeErr := fun _ => Some "no space left on device" |}.

(** The same buckets visited in other orders. *)
Definition exampleOrders' : RangeOrders :=
  {| global4 := ["DE"; "US"]; global6 := ["US"];
     country4 := ["US"; "DE"]; country6 := ["US"] |}.

(** An archive as the release has it, and a transport that answers every
    request with it. *)
Definition exampleArchive : tarStream :=
  TarEntry {| Name := "GeoLite2-Country_20240101/README.txt"; Size := 2 |} "hi" None
    (TarEntry {| Name := "GeoLite2-Country_20240101/GeoLite2-Country.mmdb"; Size := 4 |}
       "mmdb" None TarEOF).

Definition exampleHTTP : HTTP :=
  {| newRequestErr := fun _ => None;
     clientDo := fun _ => Ok {| StatusCode := 200; Body := Ok exampleArchive |} |}.

(** ** Properties of the country-code validator *)

Lemma byteval_range c : 0 <= byteval c < 256.
Proof.
  unfold byteval. pose proof (N_ascii_bounded c) as H. lia.
Qed.

Lemma lor_ge_pow2 k a b : 0 <= k -> 0 <= a -> 0 <= b -> 2 ^ k <= a -> 2 ^ k <= Z.lor a b.
Proof.
  intros Hk Ha Hb Hka.
  assert (0 < a) by (pose proof (Z.pow_pos_nonneg 2 k); lia).
  assert (Hab : 0 <= Z.lor a b) by (apply Z.lor_nonneg; lia).
  assert (Hpos : 0 < Z.lor a b).
  { destruct (Z.eq_dec (Z.lor a b) 0) as [E|E]; [|lia].
    apply Z.lor_eq_0_iff in E. lia. }
  apply Z.log2_le_pow2; [lia|].
  rewrite Z.log2_lor by lia.
  apply Z.log2_le_pow2 in Hka; lia.
Qed.

Lemma lor_ge_pow2_r k a b : 0 <= k -> 0 <= a -> 0 <= b -> 2 ^ k <= b -> 2 ^ k <= Z.lor a b.
Proof. intros. rewrite Z.lor_comm. by apply lor_ge_pow2. Qed.

Lemma land_mask_nonneg a m : 0 <= m -> 0 <= Z.land a m.
Proof. intros. apply Z.land_nonneg. by right. Qed.

Lemma shiftl_nonneg' a n : 0 <= a -> 0 <= Z.shiftl a n.
Proof. intros. by apply Z.shiftl_nonneg. Qed.

Lemma decode_ascii c t :
  byteval c < RuneSelf -> DecodeRuneInString (String c t) = (byteval c, 1%nat).
Proof.
  intros H. unfold DecodeRuneInString.
  destruct (Z.ltb_spec (byteval c) RuneSelf); [done|lia].
Qed.

Lemma land_ones_mod a n : 0 <= n -> Z.land a (Z.ones n) = a mod 2 ^ n.
Proof. apply Z.land_ones. Qed.

(** A multi-byte sequence or an invalid byte never decodes to a rune below
    [RuneSelf]. *)
Lemma decode_nonascii c t :
  RuneSelf <= byteval c -> RuneSelf <= fst (DecodeRuneInString (String c t)).
Proof.
  intros H. pose proof (byteval_range c) as Hc.
  unfold DecodeRuneInString, RuneSelf, RuneError in *.
  destruct (Z.ltb_spec (byteval c) 128); [lia|].
  set (s0 := byteval c) in *.
  assert (H1F : Z.land s0 0x1F = s0 mod 2 ^ 5) by (apply (land_ones_mod s0 5); lia).
  assert (H0F : Z.land s0 0x0F = s0 mod 2 ^ 4) by (apply (land_ones_mod s0 4); lia).
  assert (H07 : Z.land s0 0x07 = s0 mod 2 ^ 3) by (apply (land_ones_mod s0 3); lia).
  destruct (first s0) as [[[sz lo0] hi0]|] eqn:Hf; [|simpl; lia].
  destruct (len (String c t) <? sz); [simpl; lia|].
  destruct t as [|c1 t1]; [simpl; lia|].
  pose proof (byteval_range c1) as Hc1.
  set (s1 := byteval c1) in *.
  assert (H3F : Z.land s1 0x3F = s1 mod 2 ^ 6) by (apply (land_ones_mod s1 6); lia).
  destruct (Z.ltb_spec s1 lo0); [simpl; lia|].
  destruct (Z.ltb_spec hi0 s1); [simpl; lia|]. cbn [orb].
  assert (Hsz : (sz = 2 /\ 0xC2 <= s0 <= 0xDF) \/
                (sz = 3 /\ 0xE0 <= s0 <= 0xEF /\ (s0 = 0xE0 -> 0xA0 <= lo0)) \/
                (sz = 4 /\ 0xF0 <= s0 <= 0xF4 /\ (s0 = 0xF0 -> 0x90 <= lo0))).
  { unfold first in Hf.
    repeat match type of Hf with
    | context [Z.ltb ?a ?b] => destruct (Z.ltb_spec a b)
    | context [Z.leb ?a ?b] => destruct (Z.leb_spec a b)
    | context [Z.eqb ?a ?b] => destruct (Z.eqb_spec a b)
    end; simplify_eq; lia. }
  assert (Hs1 : 0x80 <= lo0 /\ hi0 <= 0xBF).
  { unfold first in Hf.
    repeat match type of Hf with
    | context [Z.ltb ?a ?b] => destruct (Z.ltb_spec a b)
    | context [Z.leb ?a ?b] => destruct (Z.leb_spec a b)
    | context [Z.eqb ?a ?b] => destruct (Z.eqb_spec a b)
    end; simplify_eq; lia. }
  destruct Hsz as [[-> Hr]|[[-> [Hr Hlo]]|[-> [Hr Hlo]]]].
  - cbn [Z.leb Z.compare Pos.compare Pos.compare_cont fst].
    change 128 with (2 ^ 7).
    apply lor_ge_pow2; [lia|apply shiftl_nonneg', land_mask_nonneg; lia
                       |apply land_mask_nonneg; lia|].
    rewrite Z.shiftl_mul_pow2, H1F by lia.
    assert (2 <= s0 mod 2 ^ 5) by (change (2 ^ 5) with 32; Z.div_mod_to_equations; lia).
    lia.
  - cbn [Z.leb Z.compare Pos.compare Pos.compare_cont].
    destruct t1 as [|c2 t2]; [simpl; lia|].
    destruct (negb (contByte (byteval c2))); [simpl; lia|].
    cbn [fst]. change 128 with (2 ^ 7).
    apply lor_ge_pow2; [lia| |apply land_mask_nonneg; lia|].
    { apply Z.lor_nonneg; split; apply shiftl_nonneg', land_mask_nonneg; lia. }
    destruct (Z.eq_dec s0 0xE0) as [E|E].
    + apply lor_ge_pow2_r; [lia|apply shiftl_nonneg', land_mask_nonneg; lia
                           |apply shiftl_nonneg', land_mask_nonneg; lia|].
      rewrite Z.shiftl_mul_pow2, H3F by lia.
      assert (32 <= s1 mod 2 ^ 6)
        by (specialize (Hlo E); change (2 ^ 6) with 64; Z.div_mod_to_equations; lia).
      lia.
    + apply lor_ge_pow2; [lia|apply shiftl_nonneg', land_mask_nonneg; lia
                         |apply shiftl_nonneg', land_mask_nonneg; lia|].
      rewrite Z.shiftl_mul_pow2, H0F by lia.
      assert (1 <= s0 mod 2 ^ 4) by (change (2 ^ 4) with 16; Z.div_mod_to_equations; lia).
      lia.
  - cbn [Z.leb Z.compare Pos.compare Pos.compare_cont].
    destruct t1 as [|c2 t2]; [simpl; lia|].
    destruct (negb (contByte (byteval c2))); [simpl; lia|].
    destruct t2 as [|c3 t3]; [simpl; lia|].
    destruct (negb (contByte (byteval c3))); [simpl; lia|].
    cbn [fst]. change 128 with (2 ^ 7).
    apply lor_ge_pow2; [lia| |apply land_mask_nonneg; lia|].
    { repeat (apply Z.lor_nonneg; split);
        apply shiftl_nonneg', land_mask_nonneg; lia. }
    apply lor_ge_pow2; [lia| |apply shiftl_nonneg', land_mask_nonneg; lia|].
    { apply Z.lor_nonneg; split; apply shiftl_nonneg', land_mask_nonneg; lia. }
    destruct (Z.eq_dec s0 0xF0) as [E|E].
    + apply lor_ge_pow2_r; [lia|apply shiftl_nonneg', land_mask_nonneg; lia
                           |apply shiftl_nonneg', land_mask_nonneg; lia|].
      rewrite Z.shiftl_mul_pow2, H3F by lia.
      assert (16 <= s1 mod 2 ^ 6)
        by (specialize (Hlo E); change (2 ^ 6) with 64; Z.div_mod_to_equations; lia).
      lia.
    + apply lor_ge_pow2; [lia|apply shiftl_nonneg', land_mask_nonneg; lia
                         |apply shiftl_nonneg', land_mask_nonneg; lia|].
      rewrite Z.shiftl_mul_pow2, H07 by lia.
      assert (1 <= s0 mod 2 ^ 3) by (change (2 ^ 3) with 8; Z.div_mod_to_equations; lia).
      lia.
Qed.

Lemma rangeRunes_alpha fuel s :
  (String.length s <= fuel)%nat ->
  forallb inAZ (rangeRunes fuel s) =
  forallb isUpperByte (String.list_ascii_of_string s).
Proof.
  revert s. induction fuel as [|fuel IH]; intros [|c t] Hlen; simpl in Hlen;
    try done; try lia.
  cbn [rangeRunes String.list_ascii_of_string forallb].
  destruct (Z.lt_ge_cases (byteval c) RuneSelf) as [Hlt|Hge].
  - rewrite decode_ascii by done. cbn [forallb strDrop].
    rewrite IH by lia. f_equal.
    unfold inAZ, isUpperByte.
    destruct (Z.ltb_spec (byteval c) 65), (Z.ltb_spec 90 (byteval c)),
      (Z.leb_spec 65 (byteval c)), (Z.leb_spec (byteval c) 90); simpl; lia.
  - pose proof (decode_nonascii c t Hge) as Hr.
    destruct (DecodeRuneInString (String c t)) as [r size]. simpl in Hr.
    cbn [forallb].
    assert (inAZ r = false) as ->.
    { unfold inAZ, RuneSelf in *.
      destruct (Z.ltb_spec r 65), (Z.ltb_spec 90 r); simpl; lia. }
    assert (isUpperByte c = false) as ->; [|done].
    unfold isUpperByte, RuneSelf in *.
    destruct (Z.leb_spec 65 (byteval c)), (Z.leb_spec (byteval c) 90); simpl; lia.
Qed.

(** [isAlphaOnly] holds exactly of the strings whose bytes are all in
    [A-Z]: a byte outside ASCII starts a rune outside that range. *)
Lemma isAlphaOnly_bytes s :
  isAlphaOnly s = forallb isUpperByte (String.list_ascii_of_string s).
Proof. unfold isAlphaOnly, runes. by apply rangeRunes_alpha. Qed.

Lemma upper_isASCII s :
  forallb isUpperByte (String.list_ascii_of_string s) = true -> isASCII s = true.
Proof.
  unfold isASCII. induction s as [|c t IH]; simpl; [done|].
  intros [Hc Ht]%andb_true_iff. rewrite IH by done.
  unfold isUpperByte, RuneSelf in *.
  destruct (Z.leb_spec 65 (byteval c)), (Z.leb_spec (byteval c) 90),
    (Z.ltb_spec (byteval c) 128); simpl in *; try done; lia.
Qed.

Lemma upper_hasLower s :
  forallb isUpperByte (String.list_ascii_of_string s) = true -> hasLower s = false.
Proof.
  unfold hasLower. induction s as [|c t IH]; simpl; [done|].
  intros [Hc Ht]%andb_true_iff. rewrite IH by done.
  unfold isUpperByte in *.
  destruct (Z.leb_spec 65 (byteval c)), (Z.leb_spec (byteval c) 90),
    (Z.leb_spec 97 (byteval c)), (Z.leb_spec (byteval c) 122);
    simpl in *; try done; lia.
Qed.

Lemma len_2 s : len s = 2 <-> exists a b, s = String a (String b EmptyString).
Proof.
  unfold len. split.
  - destruct s as [|a [|b [|c t]]]; simpl; try lia. eauto.
  - by intros (a & b & ->).
Qed.

Lemma isUpperByte_range c : isUpperByte c = true <-> 65 <= byteval c <= 90.
Proof. unfold isUpperByte. by rewrite andb_true_iff, !Z.leb_le. Qed.

Section Validator.
Context {tables : UnicodeTables}.

(** [strings.ToUpper] leaves a string of uppercase letters as it is. *)
Lemma ToUpper_upper s :
  forallb isUpperByte (String.list_ascii_of_string s) = true -> ToUpper s = s.
Proof.
  intros H. unfold ToUpper.
  by rewrite upper_isASCII, upper_hasLower.
Qed.

(** The validator computes the pattern of the specification. *)
Lemma isValidCountryCode_matches code :
  isValidCountryCode code = matchesTwoUpper code.
Proof.
  unfold isValidCountryCode. rewrite isAlphaOnly_bytes.
  destruct (Z.eqb_spec (len code) 2) as [H2|H2].
  - apply len_2 in H2 as (a & b & ->). cbn [andb matchesTwoUpper].
    destruct (forallb isUpperByte (String.list_ascii_of_string
               (String a (String b EmptyString)))) eqn:Hup.
    + rewrite ToUpper_upper by done. rewrite bool_decide_eq_true_2 by done.
      simpl in Hup. rewrite andb_true_r in Hup. by rewrite Hup.
    + rewrite andb_false_r. simpl in Hup. rewrite andb_true_r in Hup.
      by rewrite Hup.
  - cbn [andb]. destruct code as [|a [|b [|c t]]]; try done;
      exfalso; by apply H2.
Qed.

(** C5: the country-code validator accepts exactly the strings of two
    uppercase letters, the pattern [^[A-Z]{2}$]; so it rejects the empty
    string, every string whose length is not 2, and every string with a
    byte that is not an uppercase letter (lowercase, mixed case, digits,
    punctuation, bytes outside ASCII). *)
Theorem isValidCountryCode_two_upper :
  (forall code, isValidCountryCode code = matchesTwoUpper code) /\
  (forall code, isValidCountryCode code = true <->
     exists a b, code = String a (String b EmptyString) /\
       65 <= byteval a <= 90 /\ 65 <= byteval b <= 90) /\
  isValidCountryCode "" = false /\
  (forall code, len code <> 2 -> isValidCountryCode code = false) /\
  (forall code c, c ∈ String.list_ascii_of_string code ->
     ~ (65 <= byteval c <= 90) -> isValidCountryCode code = false).
Proof.
  split_and!.
  - apply isValidCountryCode_matches.
  - intros code. rewrite isValidCountryCode_matches. split.
    + destruct code as [|a [|b [|c t]]]; simpl; try done.
      intros [Ha Hb]%andb_true_iff. exists a, b. by rewrite <-!isUpperByte_range.
    + intros (a & b & -> & Ha & Hb). simpl. apply andb_true_iff.
      by rewrite !isUpperByte_range.
  - by rewrite isValidCountryCode_matches.
  - intros code Hlen. rewrite isValidCountryCode_matches.
    destruct code as [|a [|b [|c t]]]; try done; exfalso; by apply Hlen.
  - intros code c Hin Hc. rewrite isValidCountryCode_matches.
    destruct code as [|a [|b [|d t]]]; try done. simpl in *.
    apply andb_false_iff. rewrite <-!not_true_iff_false, !isUpperByte_range.
    apply elem_of_cons in Hin as [->|Hin]; [by left|].
    apply elem_of_cons in Hin as [->|Hin]; [by right|].
    by apply elem_of_nil in Hin.
Qed.

End Validator.

(** ** Properties of the aggregator *)

Lemma index_appendTo m code pfx code' :
  index (appendTo m code pfx) code' =
  index m code' ++ (if bool_decide (code = code') then [pfx] else []).
Proof.
  unfold index, appendTo. case_bool_decide as Hc.
  - subst. by rewrite lookup_insert_eq.
  - rewrite lookup_insert_ne by done. by rewrite app_nil_r.
Qed.

Section Aggregator.
Context {tables : UnicodeTables}.

Lemma bucketsOk_empty : bucketsOk ∅.
Proof. intros code l. by rewrite lookup_empty. Qed.

Lemma bucketsOk_appendTo m code pfx :
  isValidCountryCode code = true -> bucketsOk m -> bucketsOk (appendTo m code pfx).
Proof.
  intros Hv Hm code' l. unfold appendTo.
  destruct (decide (code = code')) as [->|Hne].
  - rewrite lookup_insert_eq. intros [= <-]. split; [done|].
    by destruct (index m code').
  - rewrite lookup_insert_ne by done. apply Hm.
Qed.

Lemma loadResult_index fam4 g r code :
  index (bucket fam4 (loadResult g r)) code =
  index (bucket fam4 g) code ++
  (if selects fam4 code r then [ResultPrefix r] else []).
Proof.
  unfold loadResult, selects, bucket.
  destruct (Decode r) as [rec|]; [|by rewrite app_nil_r].
  set (c := ISOCode (Country rec)).
  assert (Hemp : c = "" -> isValidCountryCode c = false).
  { intros ->. by rewrite isValidCountryCode_matches. }
  destruct (isValidCountryCode c) eqn:Hv.
  - rewrite bool_decide_eq_false_2 by (intros E; by specialize (Hemp E)).
    cbn [orb negb].
    destruct (Is4 (ip (ResultPrefix r))), fam4; cbn [ipv4 ipv6];
      rewrite ?index_appendTo; repeat case_bool_decide; subst;
      rewrite ?Hv; cbn [andb]; by rewrite ?app_nil_r.
  - rewrite orb_true_r. case_bool_decide; subst; rewrite ?Hv; cbn [andb];
      by rewrite ?app_nil_r.
Qed.

Lemma loadResult_index4 g r code :
  index (ipv4 (loadResult g r)) code =
  index (ipv4 g) code ++ (if selects true code r then [ResultPrefix r] else []).
Proof. apply (loadResult_index true). Qed.

Lemma loadResult_index6 g r code :
  index (ipv6 (loadResult g r)) code =
  index (ipv6 g) code ++ (if selects false code r then [ResultPrefix r] else []).
Proof. apply (loadResult_index false). Qed.

Lemma loadNetworks_index4 networks g code :
  index (ipv4 (loadNetworks g networks)) code =
  index (ipv4 g) code ++ yielded true code networks.
Proof.
  unfold loadNetworks, yielded. revert g.
  induction networks as [|r ns IH]; intros g; simpl; [by rewrite app_nil_r|].
  rewrite IH, loadResult_index4, <-app_assoc. f_equal.
  by destruct (selects true code r).
Qed.

Lemma loadNetworks_index6 networks g code :
  index (ipv6 (loadNetworks g networks)) code =
  index (ipv6 g) code ++ yielded false code networks.
Proof.
  unfold loadNetworks, yielded. revert g.
  induction networks as [|r ns IH]; intros g; simpl; [by rewrite app_nil_r|].
  rewrite IH, loadResult_index6, <-app_assoc. f_equal.
  by destruct (selects false code r).
Qed.

Lemma loadResult_bucketsOk g r :
  bucketsOk (ipv4 g) /\ bucketsOk (ipv6 g) ->
  bucketsOk (ipv4 (loadResult g r)) /\ bucketsOk (ipv6 (loadResult g r)).
Proof.
  intros [H4 H6]. unfold loadResult.
  destruct (Decode r) as [rec|]; [|done].
  destruct (bool_decide (ISOCode (Country rec) = "")); [done|]. cbn [orb].
  destruct (isValidCountryCode (ISOCode (Country rec))) eqn:Hv; [|done].
  cbn [negb]. destruct (Is4 (ip (ResultPrefix r))); cbn [ipv4 ipv6];
    split; try done; by apply bucketsOk_appendTo.
Qed.

Lemma loadNetworks_bucketsOk networks g :
  bucketsOk (ipv4 g) /\ bucketsOk (ipv6 g) ->
  bucketsOk (ipv4 (loadNetworks g networks)) /\
  bucketsOk (ipv6 (loadNetworks g networks)).
Proof.
  unfold loadNetworks. revert g.
  induction networks as [|r ns IH]; intros g Hg; simpl; [done|].
  by apply IH, loadResult_bucketsOk.
Qed.

Lemma lookup_of_index m code :
  bucketsOk m -> m !! code = bucketOf (index m code).
Proof.
  intros Hm. unfold index. destruct (m !! code) as [l|] eqn:E; [|done].
  destruct (Hm _ _ E) as [_ Hl]. by destruct l.
Qed.

Section Decoding.
Context {database : MaxMindDB}.

(** C1: the aggregator.  A pair whose record does not decode, or whose ISO
    code is empty or fails the validation, leaves both buckets as they are;
    any other pair appends the prefix to the IPv4 bucket of its code when
    the address of the prefix is an IPv4 address, and to the IPv6 bucket
    otherwise.  So after the loop over what the decoder yields, starting
    from the empty generator, the bucket of a code in a family holds
    exactly the prefixes yielded for that code and family, in the order and
    as often as they were yielded. *)
Theorem loadGeoIPData_buckets :
  (forall g r rec, Decode r = Some rec ->
     ISOCode (Country rec) = "" \/ isValidCountryCode (ISOCode (Country rec)) = false ->
     loadResult g r = g) /\
  (forall g r rec, Decode r = Some rec ->
     isValidCountryCode (ISOCode (Country rec)) = true ->
     loadResult g r =
       if Is4 (ip (ResultPrefix r))
       then {| ipv4 := <[ISOCode (Country rec) :=
                          index (ipv4 g) (ISOCode (Country rec)) ++ [ResultPrefix r]]> (ipv4 g);
               ipv6 := ipv6 g |}
       else {| ipv4 := ipv4 g;
               ipv6 := <[ISOCode (Country rec) :=
                          index (ipv6 g) (ISOCode (Country rec)) ++ [ResultPrefix r]]> (ipv6 g) |}) /\
  (forall networks g code,
     index (ipv4 (loadNetworks g networks)) code =
       index (ipv4 g) code ++ yielded true code networks /\
     index (ipv6 (loadNetworks g networks)) code =
       index (ipv6 g) code ++ yielded false code networks) /\
  (forall mmdbData networks code,
     maxminddbNetworks mmdbData = Ok networks ->
     let g := fst (loadGeoIPData newGeoIPGenerator mmdbData) in
     ipv4 g !! code = bucketOf (yielded true code networks) /\
     ipv6 g !! code = bucketOf (yielded false code networks)).
Proof.
  split_and!.
  - intros g r rec Hd Hc. unfold loadResult. rewrite Hd.
    destruct Hc as [->| ->]; [done|]. by rewrite orb_true_r.
  - intros g r rec Hd Hv. unfold loadResult. rewrite Hd, Hv.
    assert (ISOCode (Country rec) <> "") as Hne.
    { intros E. by rewrite E, isValidCountryCode_matches in Hv. }
    by rewrite (bool_decide_eq_false_2 _ Hne).
  - intros. split; [apply loadNetworks_index4|apply loadNetworks_index6].
  - intros mmdbData networks code Hdb. unfold loadGeoIPData. rewrite Hdb.
    cbn [fst].
    destruct (loadNetworks_bucketsOk networks newGeoIPGenerator) as [H4 H6].
    { split; apply bucketsOk_empty. }
    rewrite (lookup_of_index _ _ H4), (lookup_of_index _ _ H6).
    by rewrite loadNetworks_index4, loadNetworks_index6.
Qed.

Lemma loadGeoIPData_bucketsOk mmdbData fam4 :
  bucketsOk (bucket fam4 (fst (loadGeoIPData newGeoIPGenerator mmdbData))).
Proof.
  unfold loadGeoIPData.
  destruct (maxminddbNetworks mmdbData) as [networks|err]; cbn [fst].
  - destruct (loadNetworks_bucketsOk networks newGeoIPGenerator) as [H4 H6].
    { split; apply bucketsOk_empty. }
    by destruct fam4.
  - destruct fam4; apply bucketsOk_empty.
Qed.

(** C10: after aggregation, in both bucket mappings every key is a valid
    country code, two uppercase letters, and every list under a key has a
    prefix.  So the test for a country without prefixes is false at every
    key, and the global writer, which goes through the sorted keys, passes
    over none of them. *)
Theorem aggregated_buckets_ok :
  forall mmdbData fam4,
    let m := bucket fam4 (fst (loadGeoIPData newGeoIPGenerator mmdbData)) in
    (forall code l, m !! code = Some l ->
       isValidCountryCode code = true /\ matchesTwoUpper code = true /\ l <> []) /\
    (forall code, is_Some (m !! code) ->
       bool_decide (length (index m code) = 0%nat) = false) /\
    (forall order, rangeOrder m order ->
       filter (fun code => index m code <> []) (sortStrings order) = sortStrings order).
Proof.
  intros mmdbData fam4 m.
  pose proof (loadGeoIPData_bucketsOk mmdbData fam4) as Hok. fold m in Hok.
  assert (Hidx : forall code, is_Some (m !! code) -> index m code <> []).
  { intros code [l Hl]. unfold index. rewrite Hl. simpl. by apply (Hok code l). }
  split_and!.
  - intros code l Hl. destruct (Hok code l Hl) as [Hv Hne].
    split_and!; [done| |done]. by rewrite <-isValidCountryCode_matches.
  - intros code Hs. apply bool_decide_eq_false_2.
    specialize (Hidx code Hs). by destruct (index m code).
  - intros order [_ Hkeys].
    assert (Hall : Forall (fun code => index m code <> []) (sortStrings order)).
    { apply Forall_forall. intros code Hin. apply Hidx, Hkeys.
      unfold sortStrings in Hin. by rewrite merge_sort_Permutation in Hin. }
    induction Hall as [|code l Hc Hl IH]; [done|].
    by rewrite filter_cons_True, IH.
Qed.

End Decoding.

End Aggregator.

(** ** Properties of the archive extractor *)

Lemma strTake_length n s :
  (n <= String.length s)%nat -> String.length (strTake n s) = n.
Proof.
  revert s. induction n as [|n IH]; intros [|c s] H; simpl in *; try done; try lia.
  rewrite IH; lia.
Qed.

Lemma strTake_all s : strTake (String.length s) s = s.
Proof. induction s as [|c s IH]; simpl; by rewrite ?IH. Qed.

(** An entry that does not qualify is passed over. *)
Lemma extract_skip_entry hdr data readErr next :
  qualifies hdr = false ->
  extractMMDBFromTar (TarEntry hdr data readErr next) = extractMMDBFromTar next.
Proof.
  unfold qualifies. simpl. intros H.
  destruct (isValidTarPath (Name hdr)); simpl in *; [|done]. by rewrite H.
Qed.

Lemma extract_skip es tl :
  Forall (fun e => qualifies (entryHeader e) = false) es ->
  extractMMDBFromTar (entries es tl) = extractMMDBFromTar tl.
Proof.
  induction 1 as [|e es He _ IH]; [done|].
  cbn [entries foldr]. rewrite extract_skip_entry by done. apply IH.
Qed.

Lemma extract_qualifying hdr data readErr next :
  qualifies hdr = true ->
  extractMMDBFromTar (TarEntry hdr data readErr next) =
  if maxDownloadSize <? Size hdr then Err (tooLarge (Size hdr))
  else match readAllLimited data readErr (Size hdr) with
       | Err e => Err ("reading MMDB file: " +:+ e)
       | Ok mmdbData => Ok mmdbData
       end.
Proof.
  unfold qualifies. intros [Hp Hs]%andb_true_iff. simpl. by rewrite Hp, Hs.
Qed.

(** The "not found" error is returned only at the end of a stream without
    a qualifying entry. *)
Lemma extract_notFound_inv tr :
  extractMMDBFromTar tr = Err notFound ->
  exists es, tr = entries es TarEOF /\
             Forall (fun e => qualifies (entryHeader e) = false) es.
Proof.
  induction tr as [|e|hdr data readErr next IH]; intros H.
  - by exists [].
  - simpl in H. unfold notFound in H. by simplify_eq/=.
  - destruct (qualifies hdr) eqn:Hq.
    + rewrite extract_qualifying in H by done.
      destruct (maxDownloadSize <? Size hdr).
      { unfold notFound, tooLarge in H. by simplify_eq/=. }
      destruct (readAllLimited data readErr (Size hdr)); [done|].
      unfold notFound in H. by simplify_eq/=.
    + rewrite extract_skip_entry in H by done.
      destruct (IH H) as (es & -> & Hes).
      exists ({| entryHeader := hdr; entryData := data; entryReadErr := readErr |} :: es).
      split; [done|]. by constructor.
Qed.

(** C4, as amended: extraction passes over the entries before the first
    qualifying entry and, when the declared size of that entry is within
    the size ceiling, returns at once with the bytes that the entry
    delivers, cut at the declared size, whatever follows it in the stream:
    exactly the declared number of bytes when the entry delivers at least
    that many, all of them when it delivers fewer without a read error,
    and the read error otherwise.  At the end of a stream without a
    qualifying entry it fails with the "not found" error, which it returns
    in no other case. *)
Theorem extract_first_match :
  (forall es hdr data readErr next,
     Forall (fun e => qualifies (entryHeader e) = false) es ->
     qualifies hdr = true ->
     Size hdr <= maxDownloadSize ->
     extractMMDBFromTar (entries es (TarEntry hdr data readErr next)) =
       (if Size hdr <=? len data then Ok (strTake (Z.to_nat (Size hdr)) data)
        else match readErr with
             | None => Ok data
             | Some e => Err ("reading MMDB file: " +:+ e)
             end) /\
     (0 <= Size hdr <= len data ->
      extractMMDBFromTar (entries es (TarEntry hdr data readErr next)) =
        Ok (strTake (Z.to_nat (Size hdr)) data) /\
      len (strTake (Z.to_nat (Size hdr)) data) = Size hdr) /\
     (len data = Size hdr ->
      extractMMDBFromTar (entries es (TarEntry hdr data readErr next)) = Ok data) /\
     (len data < Size hdr -> readErr = None ->
      extractMMDBFromTar (entries es (TarEntry hdr data readErr next)) = Ok data)) /\
  (forall es,
     Forall (fun e => qualifies (entryHeader e) = false) es ->
     extractMMDBFromTar (entries es TarEOF) = Err notFound) /\
  (forall tr,
     extractMMDBFromTar tr = Err notFound ->
     exists es, tr = entries es TarEOF /\
                Forall (fun e => qualifies (entryHeader e) = false) es).
Proof.
  split_and!.
  - intros es hdr data readErr next Hes Hq Hmax.
    rewrite extract_skip by done. rewrite extract_qualifying by done.
    destruct (Z.ltb_spec maxDownloadSize (Size hdr)); [lia|].
    unfold readAllLimited.
    destruct (Z.leb_spec (Size hdr) (len data)) as [Hle|Hgt]; unfold len in *.
    + split_and!.
      * done.
      * intros Hsize. split; [done|]. rewrite strTake_length by lia. lia.
      * intros E. f_equal. rewrite <-E, Nat2Z.id. apply strTake_all.
      * intros Hlt. lia.
    + split_and!.
      * by destruct readErr.
      * intros Hsize. lia.
      * intros E. lia.
      * by intros _ ->.
  - intros es Hes. by rewrite extract_skip.
  - apply extract_notFound_inv.
Qed.

(** C8, as amended: an oversized entry that qualifies and is the first to do
    so makes extraction fail with the "too large" error; the error is
    decided by the header alone, whatever the content of the entry and
    whatever follows it. *)
Theorem extract_too_large :
  forall es hdr data readErr next data' readErr' next',
    Forall (fun e => qualifies (entryHeader e) = false) es ->
    isValidTarPath (Name hdr) = true ->
    HasSuffix (Name hdr) ".mmdb" = true ->
    maxDownloadSize < Size hdr ->
    extractMMDBFromTar (entries es (TarEntry hdr data readErr next)) =
      Err (tooLarge (Size hdr)) /\
    extractMMDBFromTar (entries es (TarEntry hdr data' readErr' next')) =
      extractMMDBFromTar (entries es (TarEntry hdr data readErr next)).
Proof.
  intros es hdr data readErr next data' readErr' next' Hes Hp Hs Hsize.
  assert (Hq : qualifies hdr = true) by (unfold qualifies; by rewrite Hp, Hs).
  rewrite !extract_skip by done. rewrite !extract_qualifying by done.
  by destruct (Z.ltb_spec maxDownloadSize (Size hdr)); [|lia].
Qed.

(** ** Properties of [filepath.Clean] and of the path-safety check *)

Lemma ofBytes_bytes s : ofBytes (bytes s) = s.
Proof. apply String.string_of_list_ascii_of_string. Qed.

Lemma bytes_ofBytes l : bytes (ofBytes l) = l.
Proof. apply String.list_ascii_of_string_of_list_ascii. Qed.

Lemma HasPrefix_empty s : HasPrefix s "" = true.
Proof. by destruct s. Qed.

Lemma Contains_dotdot s : Contains s ".." = hasDotDot (bytes s).
Proof.
  induction s as [|c t IH]; [done|].
  cbn [Contains bytes String.list_ascii_of_string hasDotDot].
  fold (bytes t). rewrite <-IH. f_equal.
  destruct t as [|c2 t2]; simpl.
  - by rewrite andb_false_r.
  - by destruct t2; rewrite andb_true_r.
Qed.

(** Case analysis on every decision and every [hasDotDot] of a goal
    between boolean expressions. *)
Ltac bool_cases :=
  repeat case_bool_decide; simplify_eq/=;
  repeat match goal with
  | |- context [hasDotDot ?l] => destruct (hasDotDot l)
  end;
  simpl; try done; try congruence.

Lemma hasDotDot_cons c t :
  hasDotDot (c :: t) =
  bool_decide (c = dot) && bool_decide (head t = Some dot) || hasDotDot t.
Proof.
  destruct t as [|c2 t]; simpl; [by rewrite andb_false_r|].
  do 2 f_equal. apply bool_decide_ext. naive_solver.
Qed.

Lemma hasDotDot_app l1 l2 :
  hasDotDot (l1 ++ l2) =
  hasDotDot l1 || hasDotDot l2 ||
  (bool_decide (last l1 = Some dot) && bool_decide (head l2 = Some dot)).
Proof.
  induction l1 as [|c t IH].
  - simpl. by rewrite orb_false_r.
  - rewrite <-app_comm_cons, !hasDotDot_cons, IH.
    destruct t as [|c2 t'].
    + simpl. bool_cases.
    + simpl head. rewrite last_cons_cons. bool_cases.
Qed.

Lemma hasDotDot_reverse l : hasDotDot (reverse l) = hasDotDot l.
Proof.
  induction l as [|c t IH]; [done|].
  rewrite reverse_cons, hasDotDot_app, IH, (hasDotDot_cons c t), last_reverse.
  simpl. bool_cases.
Qed.

Lemma backtrack_suffix dotdot x rest :
  backtrack dotdot x rest `suffix_of` rest /\
  ((dotdot <= length rest)%nat -> (dotdot <= length (backtrack dotdot x rest))%nat).
Proof.
  revert x. induction rest as [|x' rest' IH]; intros x; simpl.
  - done.
  - destruct (bool_decide (dotdot < S (length rest'))%nat && negb (IsPathSeparator x))
      eqn:E; [|done].
    apply andb_true_iff in E as [Hlt%bool_decide_eq_true _].
    destruct (IH x') as [Hs Hl]. split.
    + by apply suffix_cons_r.
    + intros _. apply Hl. lia.
Qed.

Lemma copyElement_suffix path out :
  out `suffix_of` snd (copyElement path out).
Proof.
  revert out. induction path as [|c rest IH]; intros out; simpl; [done|].
  destruct (IsPathSeparator c); simpl; [done|].
  etrans; [|apply IH]. by apply suffix_cons_r.
Qed.

Lemma drop_bottom_suffix (out out' : list ascii) d :
  out `suffix_of` out' -> (d <= length out)%nat ->
  drop (length out' - d) out' = drop (length out - d) out.
Proof.
  intros [k ->] Hd. rewrite length_app.
  replace (length k + length out - d)%nat with (length k + (length out - d))%nat by lia.
  by rewrite drop_app_add.
Qed.

(** The bytes of the buffer below [dotdot] stay where they are. *)
Lemma cleanLoop_bottom fuel rooted path out dotdot :
  (dotdot <= length out)%nat ->
  drop (length out - dotdot) out `suffix_of` cleanLoop fuel rooted path out dotdot.
Proof.
  revert path out dotdot.
  induction fuel as [|fuel IH]; intros path out dotdot Hd; simpl.
  { apply suffix_drop. }
  destruct path as [|c rest]; [apply suffix_drop|].
  destruct (IsPathSeparator c); [by apply IH|].
  destruct (bool_decide (c = dot) && _); [by apply IH|].
  destruct (bool_decide (c = dot) && _).
  - case_bool_decide as Hlt.
    + destruct out as [|x below]; [simpl in Hlt; lia|].
      destruct (backtrack_suffix dotdot x below) as [Hs Hl].
      simpl in Hlt.
      rewrite (drop_bottom_suffix (backtrack dotdot x below) (x :: below) dotdot).
      * apply IH. apply Hl. lia.
      * by apply suffix_cons_r.
      * apply Hl. lia.
    + destruct rooted; simpl; [by apply IH|].
      set (out1 := if bool_decide (0 < length out)%nat then Separator :: out else out).
      assert (Ho : out `suffix_of` dot :: dot :: out1).
      { do 2 apply suffix_cons_r. unfold out1. case_bool_decide; [|done].
        by apply suffix_cons_r. }
      etrans; [|apply IH; simpl; lia].
      cbn [length]. rewrite Nat.sub_diag, drop_0.
      etrans; [apply suffix_drop|done].
  - set (out1 := if (_ || _) : bool then Separator :: out else out).
    assert (Ho1 : out `suffix_of` out1).
    { unfold out1. destruct (_ || _); [|done]. by apply suffix_cons_r. }
    pose proof (copyElement_suffix (String c rest) out1) as Ho2.
    destruct (copyElement (String c rest) out1) as [rest' out2]. simpl in Ho2.
    assert (Ho : out `suffix_of` out2) by (by etrans).
    rewrite <-(drop_bottom_suffix out out2 dotdot) by done.
    apply IH. apply suffix_length in Ho. lia.
Qed.

(** A rooted path stays rooted: its cleaned form begins with the
    separator. *)
Lemma Clean_rooted path :
  HasPrefix path "/" = true -> HasPrefix (Clean path) "/" = true.
Proof.
  destruct path as [|c rest]; [done|]. simpl HasPrefix at 1.
  intros [->%bool_decide_eq_true _]%andb_true_iff.
  unfold Clean. change (IsPathSeparator "/") with true. cbn iota.
  set (out := cleanLoop _ true rest [Separator] 1).
  assert (Hk : [Separator] `suffix_of` out).
  { apply (cleanLoop_bottom _ true rest [Separator] 1). simpl. lia. }
  destruct Hk as [k Hk]. rewrite Hk.
  destruct (k ++ [Separator]) as [|y l] eqn:E.
  { by destruct k. }
  rewrite <-E, reverse_app, reverse_singleton. cbn.
  by rewrite HasPrefix_empty.
Qed.

Lemma hasDotDot_app_false l1 l2 :
  hasDotDot (l1 ++ l2) = false -> hasDotDot l1 = false /\ hasDotDot l2 = false.
Proof.
  rewrite hasDotDot_app. intros H.
  destruct (hasDotDot l1), (hasDotDot l2); simpl in *; done.
Qed.

Lemma copyElement_safe path out rest' out' :
  copyElement path out = (rest', out') ->
  hasDotDot (reverse out ++ bytes path) = false ->
  (backslash ∉ out) -> (backslash ∉ bytes path) ->
  last out <> Some Separator ->
  hasDotDot (reverse out' ++ bytes rest') = false /\
  (backslash ∉ out') /\ (backslash ∉ bytes rest') /\
  last out' <> Some Separator.
Proof.
  revert out. induction path as [|c rest IH]; intros out Hc Hdd Ho Hp Hl; simpl in Hc.
  { by simplify_eq. }
  destruct (IsPathSeparator c) eqn:Hsep; [by simplify_eq|].
  apply (IH (c :: out)); try done.
  - rewrite reverse_cons, <-app_assoc. done.
  - change (bytes (String c rest)) with (c :: bytes rest) in Hp.
    apply not_elem_of_cons in Hp as [Hp _]. apply not_elem_of_cons. by split.
  - change (bytes (String c rest)) with (c :: bytes rest) in Hp.
    by apply not_elem_of_cons in Hp as [_ Hp].
  - destruct out as [|x out0]; [|by rewrite last_cons_cons].
    simpl. intros [= ->]. unfold IsPathSeparator in Hsep.
    by rewrite bool_decide_eq_true_2 in Hsep.
Qed.

Lemma cleanLoop_safe fuel path out dotdot :
  hasDotDot (bytes path) = false -> (backslash ∉ bytes path) ->
  goodOut out -> goodOut (cleanLoop fuel false path out dotdot).
Proof.
  revert path out dotdot.
  induction fuel as [|fuel IH]; intros path out dotdot Hdd Hbs Hout; [done|].
  destruct path as [|c rest]; [done|].
  assert (Hdd' : hasDotDot (bytes rest) = false).
  { change (bytes (String c rest)) with (c :: bytes rest) in Hdd.
    rewrite hasDotDot_cons in Hdd. by apply orb_false_iff in Hdd as [_ ?]. }
  assert (Hbs' : backslash ∉ bytes rest).
  { change (bytes (String c rest)) with (c :: bytes rest) in Hbs.
    by apply not_elem_of_cons in Hbs as [_ Hbs]. }
  cbn [cleanLoop].
  destruct (IsPathSeparator c) eqn:Hsep; [by apply IH|].
  match goal with
  | |- goodOut (if ?b then _ else _) => destruct b eqn:E1; [by apply IH|]
  end.
  match goal with
  | |- goodOut (if ?b then _ else _) => destruct b eqn:E2
  end.
  { exfalso. apply andb_true_iff in E2 as [->%bool_decide_eq_true E2].
    destruct rest as [|c1 [|c2 r]]; [done| |].
    - apply bool_decide_eq_true in E2 as ->. by cbn in Hdd.
    - apply andb_true_iff in E2 as [->%bool_decide_eq_true _]. by cbn in Hdd. }
  cbn [negb andb orb].
  set (out1 := if negb (bool_decide (length out = 0%nat)) then Separator :: out else out).
  destruct Hout as (Ho1 & Ho2 & Ho3).
  assert (Hg1 : hasDotDot out1 = false /\ (backslash ∉ out1) /\
                last out1 <> Some Separator /\ head out1 <> Some dot).
  { unfold out1. destruct out as [|x out0].
    - rewrite bool_decide_eq_true_2 by done. cbn [negb]. by split_and!.
    - rewrite bool_decide_eq_false_2 by done. cbn [negb]. split_and!.
      + rewrite hasDotDot_cons, Ho1. by rewrite bool_decide_eq_false_2.
      + rewrite not_elem_of_cons. by split.
      + by rewrite last_cons_cons.
      + done. }
  destruct Hg1 as (Hg1 & Hg2 & Hg3 & Hg4).
  destruct (copyElement (String c rest) out1) as [rest' out2] eqn:Hcopy.
  destruct (copyElement_safe _ _ _ _ Hcopy) as (Hs1 & Hs2 & Hs3 & Hs4); try done.
  { rewrite hasDotDot_app, hasDotDot_reverse, Hg1, Hdd, last_reverse. simpl.
    by rewrite (bool_decide_eq_false_2 _ Hg4). }
  apply hasDotDot_app_false in Hs1 as [Hs1 Hs1'].
  rewrite hasDotDot_reverse in Hs1.
  apply IH; try done.
Qed.

(** A path that does not begin with the separator and holds neither two
    dots in a row nor a backslash passes the check. *)
Lemma isValidTarPath_plain path :
  HasPrefix path "/" = false -> Contains path ".." = false ->
  (backslash ∉ bytes path) -> isValidTarPath path = true.
Proof.
  intros Hroot Hdd Hbs. rewrite Contains_dotdot in Hdd.
  unfold isValidTarPath, Clean.
  destruct path as [|c rest]; [done|].
  assert (IsPathSeparator c = false) as ->.
  { simpl in Hroot. rewrite HasPrefix_empty, andb_true_r in Hroot. done. }
  pose proof (cleanLoop_safe (String.length (String c rest)) (String c rest) [] 0
                Hdd Hbs) as (H1 & H2 & H3).
  { split_and!; [done|apply not_elem_of_nil|done]. }
  destruct (cleanLoop _ false (String c rest) [] 0) as [|y l]; [done|].
  clear Hroot Hdd Hbs.
  rewrite Contains_dotdot, bytes_ofBytes, hasDotDot_reverse, H1. cbn [negb andb].
  rewrite <-head_reverse in H3.
  assert (head (reverse (y :: l)) <> Some backslash) as H4.
  { rewrite head_reverse. intros Hl. apply H2.
    apply last_Some in Hl as [l' ->]. apply elem_of_app. right. by left. }
  destruct (reverse (y :: l)) as [|d r]; [done|]. cbn in *.
  rewrite !HasPrefix_empty, !andb_true_r.
  rewrite !bool_decide_eq_false_2; [done|..]; intros ->; first [by apply H4|by apply H3].
Qed.

(** *** [Clean] segment by segment *)

Lemma spanElem_length p : (String.length (snd (spanElem p)) <= String.length p)%nat.
Proof.
  induction p as [|c r IH]; simpl; [done|].
  destruct (IsPathSeparator c); simpl; [done|].
  destruct (spanElem r) as [e r']. simpl in *. lia.
Qed.

Lemma spanElem_ok p :
  Forall (fun c => IsPathSeparator c = false) (fst (spanElem p)).
Proof.
  induction p as [|c r IH]; simpl; [done|].
  destruct (IsPathSeparator c) eqn:Hc; simpl; [done|].
  destruct (spanElem r) as [e r']. simpl in *. by constructor.
Qed.

Lemma copyElement_span p out :
  copyElement p out = (snd (spanElem p), reverse (fst (spanElem p)) ++ out).
Proof.
  revert out. induction p as [|c r IH]; intros out; simpl; [done|].
  destruct (IsPathSeparator c); simpl; [done|].
  rewrite IH. destruct (spanElem r) as [e r']. simpl.
  by rewrite reverse_cons, <-app_assoc.
Qed.

(** The tests of the loop on the first bytes are tests on the first
    segment. *)
Lemma spanElem_dot r :
  match r with
  | EmptyString => true
  | String c1 _ => IsPathSeparator c1
  end = bool_decide (fst (spanElem r) = []).
Proof.
  destruct r as [|c1 r1]; simpl; [done|].
  destruct (IsPathSeparator c1); simpl; [done|].
  by destruct (spanElem r1).
Qed.

Lemma spanElem_nil r : fst (spanElem r) = [] -> snd (spanElem r) = r.
Proof.
  destruct r as [|c1 r1]; simpl; [done|].
  destruct (IsPathSeparator c1); simpl; [done|].
  by destruct (spanElem r1).
Qed.

Lemma spanElem_dotdot r :
  match r with
  | String c1 EmptyString => bool_decide (c1 = dot)
  | String c1 (String c2 _) => bool_decide (c1 = dot) && IsPathSeparator c2
  | EmptyString => false
  end = bool_decide (fst (spanElem r) = [dot]).
Proof.
  destruct r as [|c1 r1]; simpl; [done|].
  destruct (IsPathSeparator c1) eqn:H1; simpl.
  { unfold IsPathSeparator in H1. apply bool_decide_eq_true in H1 as ->.
    rewrite (bool_decide_eq_false_2 (Separator = dot)) by done.
    by destruct r1. }
  pose proof (spanElem_dot r1) as Hd.
  destruct (spanElem r1) as [e r']. simpl in *.
  destruct r1 as [|c2 r2].
  - symmetry in Hd. apply bool_decide_eq_true in Hd as ->.
    apply bool_decide_ext. naive_solver.
  - rewrite Hd. repeat case_bool_decide; naive_solver.
Qed.

Lemma cleanLoop_elems fuel rooted p out dotdot :
  (String.length p <= fuel)%nat ->
  cleanLoop fuel rooted p out dotdot = cleanElems rooted (elemsOf fuel p) out dotdot.
Proof.
  revert p out dotdot.
  induction fuel as [|fuel IH]; intros p out dotdot Hlen.
  { by destruct p. }
  destruct p as [|c r]; [done|]. simpl in Hlen.
  cbn [cleanLoop elemsOf].
  destruct (IsPathSeparator c) eqn:Hsep; [apply IH; lia|].
  rewrite copyElement_span.
  pose proof (spanElem_length r) as Hr'.
  pose proof (spanElem_nil r) as Hnil.
  rewrite (spanElem_dot r), (spanElem_dotdot r).
  cbn [spanElem]. rewrite Hsep.
  destruct (spanElem r) as [e r'] eqn:Hspan. cbn [fst snd] in *.
  cbn [cleanElems].
  destruct (decide (c = dot)) as [->|Hc].
  - rewrite (bool_decide_eq_true_2 (dot = dot)) by done. cbn [andb].
    destruct (decide (e = [])) as [->|He].
    + rewrite !bool_decide_eq_true_2 by done. rewrite <-(Hnil eq_refl) at 1.
      apply IH. lia.
    + rewrite (bool_decide_eq_false_2 (e = [])) by done.
      rewrite (bool_decide_eq_false_2 (dot :: e = [dot])) by congruence.
      destruct (decide (e = [dot])) as [->|He2].
      * rewrite !bool_decide_eq_true_2 by done.
        assert (strDrop 1 r = r') as ->.
        { destruct r as [|c1 r1]; [done|]. simpl in Hspan.
          destruct (IsPathSeparator c1); [done|].
          pose proof (spanElem_nil r1) as Hn.
          destruct (spanElem r1) as [e1 r1']. simplify_eq/=. by rewrite Hn. }
        repeat case_bool_decide; try done;
          destruct out, rooted; simpl; apply IH; lia.
      * rewrite (bool_decide_eq_false_2 (e = [dot])) by done.
        rewrite (bool_decide_eq_false_2 (dot :: e = [dot; dot])) by congruence.
        apply IH. lia.
  - rewrite (bool_decide_eq_false_2 (c = dot)) by done. cbn [andb].
    rewrite (bool_decide_eq_false_2 (c :: e = [dot])) by congruence.
    rewrite (bool_decide_eq_false_2 (c :: e = [dot; dot])) by congruence.
    apply IH. lia.
Qed.

Lemma elemsOf_ok fuel p :
  Forall (fun e => e <> [] /\ Forall (fun c => IsPathSeparator c = false) e)
         (elemsOf fuel p).
Proof.
  revert p. induction fuel as [|fuel IH]; intros p; [done|].
  destruct p as [|c r]; [done|]. cbn [elemsOf].
  destruct (IsPathSeparator c) eqn:Hsep; [apply IH|].
  pose proof (spanElem_ok (String c r)) as Hok.
  cbn [spanElem] in *. rewrite Hsep in *.
  destruct (spanElem r) as [e r']. constructor; [|apply IH].
  by split.
Qed.

Lemma cleanElems_bottom rooted es out dotdot :
  (dotdot <= length out)%nat ->
  drop (length out - dotdot) out `suffix_of` cleanElems rooted es out dotdot.
Proof.
  revert out dotdot.
  induction es as [|e es IH]; intros out dotdot Hd; cbn [cleanElems].
  { apply suffix_drop. }
  case_bool_decide; [by apply IH|].
  case_bool_decide.
  - case_bool_decide as Hlt.
    + destruct out as [|x below]; [simpl in Hlt; lia|].
      destruct (backtrack_suffix dotdot x below) as [Hs Hl].
      simpl in Hlt.
      rewrite (drop_bottom_suffix (backtrack dotdot x below) (x :: below) dotdot).
      * apply IH. apply Hl. lia.
      * by apply suffix_cons_r.
      * apply Hl. lia.
    + destruct rooted; cbn [negb]; [by apply IH|].
      set (out1 := if bool_decide (0 < length out)%nat then Separator :: out else out).
      assert (Ho : out `suffix_of` dot :: dot :: out1).
      { do 2 apply suffix_cons_r. unfold out1. case_bool_decide; [|done].
        by apply suffix_cons_r. }
      etrans; [|apply IH; simpl; lia].
      rewrite Nat.sub_diag, drop_0.
      etrans; [apply suffix_drop|done].
  - set (out1 := if (_ || _) : bool then Separator :: out else out).
    assert (Ho : out `suffix_of` reverse e ++ out1).
    { apply suffix_app_r. unfold out1. destruct (_ || _); [|done].
      by apply suffix_cons_r. }
    rewrite <-(drop_bottom_suffix out (reverse e ++ out1) dotdot) by done.
    apply IH. apply suffix_length in Ho. lia.
Qed.

Lemma stacked_length dotdot depth out :
  stacked dotdot depth out ->
  (dotdot <= length out)%nat /\ ((0 < depth)%nat -> (dotdot < length out)%nat).
Proof.
  induction 1 as [out Hlen|depth out e Hst [IH1 _] He Hsep].
  - split; lia.
  - rewrite length_app, length_reverse.
    destruct e as [|c e]; [done|]. case_bool_decide; simpl; split; lia.
Qed.

(** Backtracking over one segment removes it with its separator. *)
Lemma backtrack_elem dotdot (out0 e' : list ascii) x :
  (dotdot <= length out0)%nat ->
  IsPathSeparator x = false ->
  Forall (fun c => IsPathSeparator c = false) e' ->
  backtrack dotdot x
    (e' ++ (if bool_decide (length out0 = 0%nat) then out0 else Separator :: out0))
  = out0.
Proof.
  intros Hd. revert x. induction e' as [|y e' IH]; intros x Hx He.
  - cbn [app]. destruct out0 as [|z out0].
    + by rewrite bool_decide_eq_true_2 by done.
    + rewrite bool_decide_eq_false_2 by done. cbn [backtrack].
      rewrite bool_decide_eq_true_2 by (simpl in *; lia). rewrite Hx. cbn [negb andb].
      change (IsPathSeparator Separator) with true.
      by rewrite andb_false_r.
  - apply Forall_cons in He as [Hy He]. cbn [app backtrack].
    rewrite Hx, (bool_decide_eq_true_2 (dotdot < _)%nat).
    + cbn [negb andb]. by apply IH.
    + cbn [length]. rewrite length_app. destruct (bool_decide _); simpl; lia.
Qed.

Lemma stacked_pop dotdot depth out :
  stacked dotdot (S depth) out ->
  exists x below, out = x :: below /\
    stacked dotdot depth (backtrack dotdot x below).
Proof.
  inversion 1 as [|depth' out0 e Hst He Hsep]; subst.
  destruct (stacked_length _ _ _ Hst) as [Hd _].
  destruct (reverse e) as [|x e'] eqn:Hrev.
  { apply (f_equal reverse) in Hrev. rewrite reverse_involutive in Hrev. done. }
  exists x, (e' ++ (if bool_decide (length out0 = 0%nat) then out0 else Separator :: out0)).
  split; [done|].
  assert (Hsep' : Forall (fun c => IsPathSeparator c = false) (x :: e')).
  { rewrite <-Hrev. by apply Forall_reverse. }
  apply Forall_cons in Hsep' as [Hx He'].
  by rewrite backtrack_elem.
Qed.

(** A path that climbs out leaves two dots in the buffer. *)
Lemma escapesFrom_dotdot es depth out dotdot :
  Forall (fun e => e <> [] /\ Forall (fun c => IsPathSeparator c = false) e) es ->
  stacked dotdot depth out ->
  escapesFrom depth es = true ->
  hasDotDot (cleanElems false es out dotdot) = true.
Proof.
  intros Hes. revert depth out dotdot.
  induction Hes as [|e es [He Hsep] _ IH]; intros depth out dotdot Hst Hesc; [done|].
  cbn [escapesFrom cleanElems] in *.
  case_bool_decide; [by eapply IH|].
  case_bool_decide.
  - destruct depth as [|depth].
    + inversion Hst as [out' Hlen|]; subst.
      rewrite bool_decide_eq_false_2 by lia. cbn [negb].
      set (out2 := dot :: dot :: _).
      destruct (cleanElems_bottom false es out2 (length out2) (le_n _)) as [k ->].
      rewrite Nat.sub_diag, drop_0, hasDotDot_app.
      assert (Hd2 : hasDotDot out2 = true).
      { unfold out2. by rewrite hasDotDot_cons. }
      rewrite Hd2. by rewrite orb_true_r.
    + destruct (stacked_length _ _ _ Hst) as [_ Hlt].
      rewrite bool_decide_eq_true_2 by (apply Hlt; lia).
      destruct (stacked_pop _ _ _ Hst) as (x & below & -> & Hst').
      by eapply IH.
  - cbn [negb andb orb]. eapply IH; [|done].
    pose proof (stacked_push dotdot depth out e Hst He Hsep) as Hp.
    by destruct (bool_decide (length out = 0%nat)).
Qed.

(** A path that climbs out fails the check. *)
Lemma isValidTarPath_escapes path :
  escapes path = true -> isValidTarPath path = false.
Proof.
  intros Hesc. destruct (HasPrefix path "/") eqn:Hroot.
  { unfold isValidTarPath. rewrite (Clean_rooted _ Hroot).
    by rewrite andb_false_r. }
  unfold isValidTarPath, Clean.
  destruct path as [|c rest]; [done|].
  assert (IsPathSeparator c = false) as ->.
  { simpl in Hroot. by rewrite HasPrefix_empty, andb_true_r in Hroot. }
  rewrite cleanLoop_elems by done.
  pose proof (escapesFrom_dotdot _ 0 [] 0 (elemsOf_ok _ (String c rest))
                (stacked_base 0 [] eq_refl) Hesc) as Hdd.
  fold (pathElements (String c rest)) in Hdd |- *.
  destruct (cleanElems false _ [] 0) as [|y l]; [done|].
  by rewrite Contains_dotdot, bytes_ofBytes, hasDotDot_reverse, Hdd.
Qed.

(** *** The check, segment by segment *)

Lemma remainingFrom_escapes kept es :
  remainingFrom kept es = None <-> escapesFrom (length kept) es = true.
Proof.
  revert kept. induction es as [|e es IH]; intros kept; cbn [remainingFrom escapesFrom].
  { done. }
  case_bool_decide; [apply IH|].
  case_bool_decide.
  - destruct kept as [|k kept]; [done|]. apply IH.
  - apply (IH (e :: kept)).
Qed.

Lemma buffered_nil kept :
  Forall (fun e => e <> []) kept -> buffered kept = [] -> kept = [].
Proof.
  intros Hk. destruct kept as [|e kept]; [done|].
  apply Forall_cons in Hk as [He _]. cbn [buffered]. intros H.
  apply app_eq_nil in H as [H _].
  apply (f_equal reverse) in H. by rewrite reverse_involutive in H.
Qed.

(** [Clean]'s loop on a path that is not rooted and does not climb out
    keeps the remaining segments in its buffer. *)
Lemma cleanElems_remaining es kept segs :
  Forall (fun e => e <> [] /\ Forall (fun c => IsPathSeparator c = false) e) es ->
  Forall (fun e => e <> [] /\ Forall (fun c => IsPathSeparator c = false) e) kept ->
  remainingFrom kept es = Some segs ->
  cleanElems false es (buffered kept) 0 = buffered (reverse segs).
Proof.
  intros Hes. revert kept.
  induction Hes as [|e es [He Hsep] _ IH]; intros kept Hk Hr;
    cbn [remainingFrom cleanElems] in *.
  { injection Hr as <-. by rewrite reverse_involutive. }
  case_bool_decide; [by apply IH|].
  case_bool_decide.
  - destruct kept as [|k kept]; [done|].
    apply Forall_cons in Hk as [[Hk1 Hk2] Hk].
    cbn [buffered].
    destruct (reverse k) as [|x e'] eqn:Hrev.
    { apply (f_equal reverse) in Hrev. by rewrite reverse_involutive in Hrev. }
    assert (Hsep' : Forall (fun c => IsPathSeparator c = false) (x :: e')).
    { rewrite <-Hrev. by apply Forall_reverse. }
    apply Forall_cons in Hsep' as [Hx He'].
    cbn [app length]. rewrite bool_decide_eq_true_2 by lia.
    rewrite backtrack_elem by (first [lia|done]).
    by apply IH.
  - cbn [negb andb orb].
    assert ((if negb (bool_decide (length (buffered kept) = 0%nat))
             then Separator :: buffered kept else buffered kept) =
            (if bool_decide (length (buffered kept) = 0%nat) then buffered kept
             else Separator :: buffered kept)) as ->.
    { by destruct (bool_decide _). }
    apply (IH (e :: kept)); [|done]. by constructor.
Qed.

Lemma hasDotDot_buffered kept :
  hasDotDot (buffered kept) = existsb hasDotDot kept.
Proof.
  induction kept as [|e kept IH]; [done|].
  cbn [buffered existsb]. rewrite hasDotDot_app, hasDotDot_reverse.
  case_bool_decide.
  - rewrite IH. destruct (buffered kept); [|done].
    cbn [head]. rewrite (bool_decide_eq_false_2 (None = Some dot)) by done.
    by rewrite andb_false_r, orb_false_r.
  - rewrite hasDotDot_cons, IH. cbn [head].
    rewrite (bool_decide_eq_false_2 (Separator = dot)) by done.
    rewrite (bool_decide_eq_false_2 (Some Separator = Some dot)) by done.
    cbn [andb orb]. by rewrite andb_false_r, orb_false_r.
Qed.

Lemma last_buffered kept :
  Forall (fun e => e <> []) kept ->
  last (buffered kept) = last kept ≫= head.
Proof.
  induction 1 as [|e kept He Hk IH]; [done|].
  cbn [buffered]. destruct kept as [|k kept'].
  - cbn [buffered length]. rewrite bool_decide_eq_true_2 by done.
    rewrite app_nil_r, last_reverse. done.
  - assert (Hnn : buffered (k :: kept') <> []).
    { intros E. by apply buffered_nil in E. }
    rewrite last_cons_cons, <-IH.
    destruct (buffered (k :: kept')) as [|b rest]; [done|].
    rewrite bool_decide_eq_false_2 by done.
    by rewrite last_app_cons, last_cons_cons.
Qed.

Lemma HasPrefix_byte s c :
  HasPrefix s (String c "") = bool_decide (head (bytes s) = Some c).
Proof.
  destruct s as [|x s]; cbn; [done|].
  rewrite HasPrefix_empty, andb_true_r. apply bool_decide_ext. naive_solver.
Qed.

Lemma existsb_reverse {A} (f : A -> bool) l : existsb f (reverse l) = existsb f l.
Proof.
  induction l as [|x l IH]; [done|].
  rewrite reverse_cons, existsb_app, IH. cbn. by rewrite orb_false_r, orb_comm.
Qed.

Lemma forallb_negb_existsb {A} (f : A -> bool) l :
  forallb (fun x => negb (f x)) l = negb (existsb f l).
Proof. induction l as [|x l IH]; [done|]. cbn. rewrite IH. by destruct (f x). Qed.

Lemma remainingFrom_ok es kept segs :
  Forall (fun e => e <> [] /\ Forall (fun c => IsPathSeparator c = false) e) es ->
  Forall (fun e => e <> [] /\ Forall (fun c => IsPathSeparator c = false) e) kept ->
  remainingFrom kept es = Some segs ->
  Forall (fun e => e <> [] /\ Forall (fun c => IsPathSeparator c = false) e) segs.
Proof.
  intros Hes. revert kept.
  induction Hes as [|e es He _ IH]; intros kept Hk Hr; cbn [remainingFrom] in Hr.
  - injection Hr as <-. by apply Forall_reverse.
  - case_bool_decide; [by eapply IH|].
    case_bool_decide.
    + destruct kept as [|k kept]; [done|].
      apply Forall_cons in Hk as [_ Hk]. by eapply IH.
    + eapply (IH (e :: kept)); [|done]. by constructor.
Qed.

(** The check on a path that is not rooted. *)
Lemma isValidTarPath_remaining path :
  HasPrefix path "/" = false ->
  isValidTarPath path =
    match remaining path with
    | None => false
    | Some segs => safeSegments segs
    end.
Proof.
  intros Hroot. unfold remaining.
  destruct (remainingFrom [] (pathElements path)) as [segs|] eqn:Hr.
  2:{ apply isValidTarPath_escapes. unfold escapes.
      by apply (remainingFrom_escapes []). }
  unfold isValidTarPath, Clean.
  destruct path as [|c rest].
  { by injection Hr as <-. }
  assert (IsPathSeparator c = false) as ->.
  { simpl in Hroot. by rewrite HasPrefix_empty, andb_true_r in Hroot. }
  rewrite cleanLoop_elems by done.
  fold (pathElements (String c rest)).
  pose proof (elemsOf_ok (String.length (String c rest)) (String c rest)) as Hok.
  fold (pathElements (String c rest)) in Hok.
  pose proof (remainingFrom_ok _ [] segs Hok (Forall_nil_2 _) Hr) as Hsegs.
  pose proof (cleanElems_remaining _ [] segs Hok (Forall_nil_2 _) Hr) as Hbuffer.
  cbn [buffered] in Hbuffer. rewrite Hbuffer.
  clear Hr Hok Hroot Hbuffer.
  assert (Hne : Forall (fun e : list ascii => e <> []) (reverse segs)).
  { apply Forall_reverse. eapply Forall_impl; [exact Hsegs|]. by intros e [? _]. }
  destruct segs as [|e segs]; [done|].
  destruct (buffered (reverse (e :: segs))) as [|y l] eqn:Hbuf.
  { apply buffered_nil in Hbuf; [|done].
    apply (f_equal reverse) in Hbuf. by rewrite reverse_involutive in Hbuf. }
  rewrite Contains_dotdot, !HasPrefix_byte, bytes_ofBytes, hasDotDot_reverse, head_reverse.
  rewrite <-Hbuf, hasDotDot_buffered, existsb_reverse, last_buffered by done.
  rewrite last_reverse. cbn [head mbind option_bind].
  apply Forall_cons in Hsegs as [[He Hsep] _].
  destruct e as [|c0 e]; [done|]. apply Forall_cons in Hsep as [Hc0 _].
  cbn [head]. unfold safeSegments, beginsWithBackslash.
  rewrite forallb_negb_existsb.
  rewrite (bool_decide_eq_false_2 (Some c0 = Some "/"%char)).
  - cbn [negb andb]. rewrite andb_true_r. do 2 f_equal.
    apply bool_decide_ext. naive_solver.
  - intros [= ->]. done.
Qed.

(** C3, as amended: the check rejects every path that begins with the
    separator [/].  Of a path that does not, take the segments that remain
    when every [.] segment is dropped and every [..] segment has taken
    away the nearest segment before it that is still there: the check
    rejects the path when a [..] segment finds no segment to take away
    (the path climbs out), when a remaining segment has two dots in a row,
    and when the first remaining segment begins with a backslash; it
    accepts it in every other case.  An entry that fails the check is
    passed over and extraction goes on with the next entry. *)
Theorem isValidTarPath_rejects_accepts :
  (forall path, HasPrefix path "/" = true -> isValidTarPath path = false) /\
  (forall path, HasPrefix path "/" = false ->
     isValidTarPath path =
       match remaining path with
       | None => false
       | Some segs => safeSegments segs
       end) /\
  (forall hdr data readErr next,
     isValidTarPath (Name hdr) = false ->
     extractMMDBFromTar (TarEntry hdr data readErr next) = extractMMDBFromTar next).
Proof.
  split_and!.
  - intros path Hroot. unfold isValidTarPath.
    by rewrite (Clean_rooted _ Hroot), andb_false_r.
  - apply isValidTarPath_remaining.
  - intros hdr data readErr next H. simpl. by rewrite H.
Qed.

(** ** Properties of the set-file writer *)

Lemma append_cons x (a b : string) : String x a +:+ b = String x (a +:+ b).
Proof. done. Qed.

Lemma append_nil_l (b : string) : "" +:+ b = b.
Proof. done. Qed.

Lemma append_assoc (a b c : string) : (a +:+ b) +:+ c = a +:+ b +:+ c.
Proof.
  induction a as [|x a IH]; [done|]. by rewrite !append_cons, IH.
Qed.

Lemma append_nil_r (a : string) : a +:+ "" = a.
Proof. induction a as [|x a IH]; [done|]. by rewrite append_cons, IH. Qed.

Lemma bytes_append (a b : string) : bytes (a +:+ b) = bytes a ++ bytes b.
Proof.
  induction a as [|x a IH]; [done|].
  rewrite append_cons. unfold bytes in *. simpl. by rewrite IH.
Qed.

Lemma setFile_setFile w f a b : setFile (setFile w f a) f b = setFile w f b.
Proof. unfold setFile. simpl. by rewrite insert_insert_eq. Qed.

Lemma setFile_lookup w f a : files (setFile w f a) !! f = Some a.
Proof. unfold setFile. simpl. apply lookup_insert_eq. Qed.

Lemma foldl_withDir_files w l : files (foldl withDir w l) = files w.
Proof. revert w. induction l as [|d l IH]; intros w; [done|]. cbn [foldl]. by rewrite IH. Qed.

Lemma foldl_withDir_stdout w l : stdout (foldl withDir w l) = stdout w.
Proof. revert w. induction l as [|d l IH]; intros w; [done|]. cbn [foldl]. by rewrite IH. Qed.

Lemma foldl_withDir_faults w l : sameFaults w (foldl withDir w l).
Proof.
  revert w. induction l as [|d l IH]; intros w; [done|]. cbn [foldl].
  destruct (IH (withDir w d)) as (H1 & H2 & H3). by split_and!.
Qed.

Lemma foldl_withDir_dirs w (l : list string) d :
  d ∈ dirs (foldl withDir w l) <-> d ∈ dirs w \/ d ∈ l.
Proof.
  revert w. induction l as [|x l IH]; intros w; cbn [foldl].
  - split; [by left|]. intros [?|Hd]; [done|]. by apply elem_of_nil in Hd.
  - rewrite IH. unfold withDir. cbn [dirs].
    rewrite elem_of_union, elem_of_singleton, elem_of_cons. naive_solver.
Qed.

Lemma madeBefore_subseteq w (l : list string) d : d ∈ madeBefore w l -> d ∈ l.
Proof.
  induction l as [|x l IH]; cbn [madeBefore]; [done|].
  destruct (mkdirErr w x); [by intros ?%elem_of_nil|].
  intros [->|?]%elem_of_cons; [by left|right; by apply IH].
Qed.

(** What [MkdirAll] returns and what it leaves, whatever fails. *)
Lemma MkdirAll_frame path w :
  fst (MkdirAll path w) = mkdirErr w path /\
  files (snd (MkdirAll path w)) = files w /\
  stdout (snd (MkdirAll path w)) = stdout w /\
  sameFaults w (snd (MkdirAll path w)) /\
  (forall d, d ∈ dirs w -> d ∈ dirs (snd (MkdirAll path w))) /\
  (forall d, d ∈ dirs (snd (MkdirAll path w)) ->
     d ∈ dirs w \/ d = path \/ d ∈ ancestors path) /\
  (mkdirErr w path = None ->
     forall d, d = path \/ d ∈ ancestors path -> d ∈ dirs (snd (MkdirAll path w))).
Proof.
  unfold MkdirAll. destruct (mkdirErr w path) as [e|]; cbn [fst snd].
  - split_and!; [done|apply foldl_withDir_files|apply foldl_withDir_stdout
                |apply foldl_withDir_faults|..].
    + intros d Hd. apply foldl_withDir_dirs. by left.
    + intros d [?|Hd%madeBefore_subseteq]%foldl_withDir_dirs; [by left|by right; right].
    + done.
  - split_and!; [done|apply foldl_withDir_files|apply foldl_withDir_stdout
                |apply foldl_withDir_faults|..].
    + intros d Hd. apply foldl_withDir_dirs. by left.
    + intros d [?|[Hd|Hd%list_elem_of_singleton]%elem_of_app]%foldl_withDir_dirs.
      * by left.
      * by right; right.
      * by right; left.
    + intros _ d Hd. apply foldl_withDir_dirs. right. apply elem_of_app.
      destruct Hd as [->|Hd]; [right; by apply list_elem_of_singleton|by left].
Qed.

(** A directory with none above it. *)
Lemma MkdirAll_top path w :
  ancestors path = [] ->
  MkdirAll path w =
    match mkdirErr w path with
    | Some err => (Some err, w)
    | None => (None, withDir w path)
    end.
Proof. intros H. unfold MkdirAll. rewrite H. by destruct (mkdirErr w path). Qed.

Lemma MkdirAll_by_country w :
  MkdirAll "by_country" w =
    match mkdirErr w "by_country" with
    | Some err => (Some err, w)
    | None => (None, withDir w "by_country")
    end.
Proof. by apply MkdirAll_top. Qed.

Lemma OpenFile_ok name w :
  openErr w name = None -> OpenFile name w = (Ok name, setFile w name "").
Proof. intros H. unfold OpenFile. by rewrite H. Qed.

Lemma OpenFile_fail name w err :
  openErr w name = Some err -> OpenFile name w = (Err err, w).
Proof. intros H. unfold OpenFile. by rewrite H. Qed.

Lemma Fprint_ok f s w c :
  writeErr w f = None -> files w !! f = Some c ->
  Fprint f s w = (None, setFile w f (c +:+ s)).
Proof. intros H Hc. unfold Fprint. by rewrite H, Hc. Qed.

Lemma Fprint_fail f s w err :
  writeErr w f = Some err -> Fprint f s w = (Some err, w).
Proof. intros H. unfold Fprint. by rewrite H. Qed.

Lemma bind_run {A B} (m : IO A) (k : A -> IO B) w :
  (m ≫= k) w = let '(a, w') := m w in k a w'.
Proof. done. Qed.

(** Rewrites one write to an open file whose writes succeed. *)
Ltac step_write :=
  rewrite bind_run;
  first [erewrite Fprint_ok by (first [done|apply setFile_lookup])
        |unfold Fprintln; erewrite Fprint_ok by (first [done|apply setFile_lookup])];
  rewrite ?setFile_setFile.

Lemma writeNFTSet_ok f code prefixes ipType w c :
  writeErr w f = None -> files w !! f = Some c ->
  writeNFTSet f code prefixes ipType w =
    (None, setFile w f (c +:+ setBlock code prefixes ipType)).
Proof.
  intros Hw Hc. unfold writeNFTSet.
  rewrite bind_run. erewrite Fprint_ok by done.
  do 6 step_write.
  unfold mret, IO_ret. do 2 f_equal. unfold setBlock.
  by rewrite !append_assoc.
Qed.

Lemma setFile_id w f c : files w !! f = Some c -> setFile w f c = w.
Proof. intros H. destruct w. unfold setFile. simpl in *. by rewrite insert_id. Qed.

Lemma writeSets_ok f countryMap ipType codes w c :
  writeErr w f = None -> files w !! f = Some c ->
  writeSets f countryMap ipType codes w =
    (None, setFile w f
       (c +:+ setBlocks countryMap ipType
                (filter (fun code => index countryMap code <> []) codes))).
Proof.
  intros Hw. revert w c Hw.
  induction codes as [|code codes IH]; intros w c Hw Hc; cbn [writeSets].
  { rewrite filter_nil. cbn [setBlocks]. rewrite append_nil_r.
    by rewrite setFile_id. }
  destruct (index countryMap code) as [|p ps] eqn:Hi.
  - rewrite bool_decide_eq_true_2 by done.
    rewrite filter_cons_False by (by rewrite Hi; intros ?).
    by apply IH.
  - rewrite bool_decide_eq_false_2 by done.
    rewrite filter_cons_True by (by rewrite Hi).
    rewrite bind_run. erewrite writeNFTSet_ok by done.
    erewrite IH; [|done|apply setFile_lookup].
    rewrite setFile_setFile. cbn [setBlocks]. by rewrite Hi, append_assoc.
Qed.

Lemma generateGlobalFile_ok order countryMap filename ipType w :
  openErr w filename = None -> writeErr w filename = None ->
  generateGlobalFile order countryMap filename ipType w =
    (None,
     printed
       (setFile w filename
          (fileHeader +:+
           setBlocks countryMap ipType
             (filter (fun code => index countryMap code <> []) (sortStrings order)) +:+
           fileFooter))
       ("✅ Generated " +:+ filename +:+ newline)).
Proof.
  intros Ho Hw. unfold generateGlobalFile.
  rewrite bind_run, OpenFile_ok by done.
  do 2 step_write.
  rewrite bind_run. erewrite writeSets_ok; [|done|apply setFile_lookup].
  rewrite setFile_setFile. step_write.
  rewrite bind_run. unfold Printf, mret, IO_ret, printed. cbn.
  unfold fileHeader, fileFooter.
  by rewrite !append_assoc, append_nil_l.
Qed.

Lemma StronglySorted_filter {A} (R : relation A) (P : A -> Prop)
    `{!forall x, Decision (P x)} l :
  StronglySorted R l -> StronglySorted R (filter P l).
Proof.
  induction 1 as [|x l Hl IH Hx]; [constructor|].
  rewrite filter_cons. case_decide; [|done].
  constructor; [done|]. apply Forall_forall. intros y [_ Hy]%list_elem_of_filter.
  rewrite Forall_forall in Hx. by apply Hx.
Qed.

Lemma index_nonempty (m : gmap string (list Prefix)) code :
  index m code <> [] <-> exists l, m !! code = Some l /\ l <> [].
Proof.
  unfold index. destruct (m !! code) as [l|]; simpl; naive_solver.
Qed.

(** C2: when the file can be opened and written, the global file of a
    family consists of the two header lines, the set blocks of the
    countries of the bucket mapping that have a prefix, in ascending order
    of their codes and every country once, and the closing line. *)
Theorem generateGlobalFile_content :
  forall order countryMap filename ipType w,
    rangeOrder countryMap order ->
    openErr w filename = None -> writeErr w filename = None ->
    exists codes,
      fst (generateGlobalFile order countryMap filename ipType w) = None /\
      files (snd (generateGlobalFile order countryMap filename ipType w)) !! filename =
        Some (fileHeader +:+ setBlocks countryMap ipType codes +:+ fileFooter) /\
      StronglySorted String.le codes /\ NoDup codes /\
      (forall code, code ∈ codes <->
         exists l, countryMap !! code = Some l /\ l <> []).
Proof.
  intros order countryMap filename ipType w [Hnd Hkeys] Ho Hw.
  exists (filter (fun code => index countryMap code <> []) (sortStrings order)).
  rewrite generateGlobalFile_ok by done. cbn [fst snd]. split_and!.
  - done.
  - unfold printed. cbn [files]. apply setFile_lookup.
  - apply StronglySorted_filter, StronglySorted_merge_sort; apply _.
  - apply NoDup_filter. unfold sortStrings.
    by rewrite merge_sort_Permutation.
  - intros code. rewrite list_elem_of_filter, index_nonempty.
    unfold sortStrings. rewrite merge_sort_Permutation, Hkeys.
    split; [naive_solver|]. intros (l & Hl & Hne). split; [|done]. eauto.
Qed.

(** ** Properties of the per-country files *)

Lemma upperLetters_complete a : 65 <= byteval a <= 90 -> a ∈ upperLetters.
Proof.
  intros Ha. unfold upperLetters. apply list_elem_of_fmap.
  exists (byteval a). split.
  - unfold byteval. by rewrite N2Z.id, ascii_N_embedding.
  - apply elem_of_seqZ. lia.
Qed.

(** The paths of the per-country files are clean already: [filepath.Join]
    only puts the separator between the directory and the name.  Checked
    on each of the 676 codes. *)
Lemma filepathJoin_upperCodes :
  forallb (fun code =>
    bool_decide (filepathJoin "by_country" code = "by_country/" +:+ code) &&
    bool_decide (filepathJoin ("by_country/" +:+ code)
                   (code +:+ "_" +:+ ipTypeOf true +:+ ".nft") =
                 countryFileName code (ipTypeOf true)) &&
    bool_decide (filepathJoin ("by_country/" +:+ code)
                   (code +:+ "_" +:+ ipTypeOf false +:+ ".nft") =
                 countryFileName code (ipTypeOf false))) upperCodes = true.
Proof. vm_compute. reflexivity. Qed.

(** The directory of a country has [by_country] above it and nothing
    else.  Checked on each of the 676 codes. *)
Lemma ancestors_upperCodes :
  forallb (fun code =>
    bool_decide (ancestors ("by_country/" +:+ code) = ["by_country"])) upperCodes = true.
Proof. vm_compute. reflexivity. Qed.

Lemma noFaults_setFile w f c : noFaults w -> noFaults (setFile w f c).
Proof. done. Qed.

Lemma noFaults_withDir w d : noFaults w -> noFaults (withDir w d).
Proof. done. Qed.

Section CountryFiles.
Context {tables : UnicodeTables}.

Lemma upperCodes_complete code :
  isValidCountryCode code = true -> code ∈ upperCodes.
Proof.
  rewrite isValidCountryCode_matches.
  destruct code as [|a [|b [|c t]]]; simpl; try done.
  intros [Ha%isUpperByte_range Hb%isUpperByte_range]%andb_true_iff.
  unfold upperCodes. apply list_elem_of_bind. exists a. split; [|by apply upperLetters_complete].
  apply list_elem_of_bind. exists b. split; [|by apply upperLetters_complete].
  by left.
Qed.

Lemma filepathJoin_country code fam4 :
  isValidCountryCode code = true ->
  filepathJoin "by_country" code = "by_country/" +:+ code /\
  filepathJoin ("by_country/" +:+ code) (code +:+ "_" +:+ ipTypeOf fam4 +:+ ".nft") =
    countryFileName code (ipTypeOf fam4).
Proof.
  intros Hin%upperCodes_complete%list_elem_of_In.
  pose proof (proj1 (forallb_forall _ _) filepathJoin_upperCodes code Hin) as Hv.
  apply andb_true_iff in Hv as [Hv H6]. apply andb_true_iff in Hv as [H1 H4].
  apply bool_decide_eq_true in H1, H4, H6.
  split; [exact H1|]. destruct fam4; [exact H4|exact H6].
Qed.

Lemma MkdirAll_country code w :
  isValidCountryCode code = true ->
  mkdirErr w ("by_country/" +:+ code) = None ->
  MkdirAll ("by_country/" +:+ code) w =
    (None, withDir (withDir w "by_country") ("by_country/" +:+ code)).
Proof.
  intros Hin%upperCodes_complete%list_elem_of_In Hm.
  pose proof (proj1 (forallb_forall _ _) ancestors_upperCodes code Hin) as Ha.
  apply bool_decide_eq_true in Ha.
  unfold MkdirAll. by rewrite Hm, Ha.
Qed.

Lemma generateCountryFile_ok code prefixes fam4 w :
  isValidCountryCode code = true -> noFaults w ->
  generateCountryFile code prefixes (ipTypeOf fam4) w =
    match prefixes with
    | [] => (None, w)
    | _ =>
      (None, setFile (withDir (withDir w "by_country") ("by_country/" +:+ code))
                     (countryFileName code (ipTypeOf fam4))
                     (countryFile code prefixes (ipTypeOf fam4)))
    end.
Proof.
  intros Hv (Hm & Ho & Hw). unfold generateCountryFile.
  destruct prefixes as [|p ps]; [done|].
  rewrite bool_decide_eq_false_2 by done.
  destruct (filepathJoin_country code fam4 Hv) as [-> ->].
  rewrite bind_run, MkdirAll_country by (first [done|apply Hm]).
  rewrite bind_run, OpenFile_ok by apply Ho.
  set (f := countryFileName code (ipTypeOf fam4)).
  assert (Hwf : forall w' c, writeErr (setFile w' f c) f = writeErr w' f) by done.
  rewrite bind_run. unfold Fprintln at 1.
  erewrite Fprint_ok; [|apply Hw|apply setFile_lookup]. rewrite setFile_setFile.
  rewrite bind_run. unfold Fprintln at 1.
  erewrite Fprint_ok; [|apply Hw|apply setFile_lookup]. rewrite setFile_setFile.
  rewrite bind_run. erewrite writeNFTSet_ok; [|apply Hw|apply setFile_lookup].
  rewrite setFile_setFile.
  rewrite bind_run. unfold Fprintln at 1.
  erewrite Fprint_ok; [|apply Hw|apply setFile_lookup]. rewrite setFile_setFile.
  unfold mret, IO_ret, countryFile, fileHeader, fileFooter.
  by rewrite !append_assoc, append_nil_l.
Qed.

Lemma countryFileName_inj code1 code2 f1 f2 :
  isValidCountryCode code1 = true -> isValidCountryCode code2 = true ->
  countryFileName code1 (ipTypeOf f1) = countryFileName code2 (ipTypeOf f2) ->
  code1 = code2 /\ f1 = f2.
Proof.
  rewrite !isValidCountryCode_matches.
  destruct code1 as [|a1 [|b1 [|c1 t1]]]; try done.
  destruct code2 as [|a2 [|b2 [|c2 t2]]]; try done.
  intros _ _. unfold countryFileName.
  destruct f1, f2; cbv [String.append ipTypeOf]; intros H; by simplify_eq.
Qed.

Lemma countryFilesLoop_ok m fam4 family order w :
  NoDup order ->
  (forall c, c ∈ order -> isValidCountryCode c = true) ->
  noFaults w ->
  exists w',
    countryFilesLoop m (ipTypeOf fam4) family order w = (None, w') /\
    noFaults w' /\
    (forall code f4, isValidCountryCode code = true ->
       files w' !! countryFileName code (ipTypeOf f4) =
       if bool_decide (f4 = fam4 /\ code ∈ order /\ index m code <> [])
       then Some (countryFile code (index m code) (ipTypeOf fam4))
       else files w !! countryFileName code (ipTypeOf f4)).
Proof.
  intros Hnd. revert w.
  induction Hnd as [|c order Hc Hnd IH]; intros w Hval Hw.
  { exists w. split_and!; [done..|]. intros code f4 _.
    rewrite bool_decide_eq_false_2; [done|].
    intros (_ & Hin & _). by apply elem_of_nil in Hin. }
  assert (Hvc : isValidCountryCode c = true) by (apply Hval; by left).
  cbn [countryFilesLoop]. rewrite bind_run.
  rewrite generateCountryFile_ok by done.
  destruct (index m c) as [|p ps] eqn:Hi.
  - destruct (IH w) as (w' & Hrun & Hw' & Hfiles); [|done|].
    { intros c' Hc'. apply Hval. by right. }
    exists w'. split_and!; [done..|].
    intros code f4 Hcode. rewrite (Hfiles code f4 Hcode).
    apply (f_equal (fun b : bool => if b then _ else _)).
    apply bool_decide_ext. rewrite elem_of_cons. split; [naive_solver|].
    intros (-> & [->|Hin] & Hne); [by rewrite Hi in Hne|done].
  - set (w1 := setFile _ _ _).
    destruct (IH w1) as (w' & Hrun & Hw' & Hfiles).
    { intros c' Hc'. apply Hval. by right. }
    { by apply noFaults_setFile, noFaults_withDir, noFaults_withDir. }
    exists w'. split_and!; [done..|].
    intros code f4 Hcode. rewrite (Hfiles code f4 Hcode).
    destruct (decide (code = c /\ f4 = fam4)) as [[-> ->]|Hne].
    + rewrite bool_decide_eq_false_2 by (intros (_ & Hin & _); done).
      rewrite bool_decide_eq_true_2.
      * unfold w1. by rewrite setFile_lookup, Hi.
      * split_and!; [done|by left|by rewrite Hi].
    + assert (files w1 !! countryFileName code (ipTypeOf f4) =
              files w !! countryFileName code (ipTypeOf f4)) as ->.
      { unfold w1, setFile, withDir. cbn [files].
        apply lookup_insert_ne. intros E.
        apply countryFileName_inj in E as [-> ->]; [|done..]. by apply Hne. }
      apply (f_equal (fun b : bool => if b then _ else _)).
      apply bool_decide_ext. rewrite elem_of_cons. split; [naive_solver|].
      intros (-> & [->|Hin] & Hn); [by exfalso; apply Hne|done].
Qed.

(** C6: when the operating system reports no failure, the per-country
    loops leave, for every country code and family, the file
    [by_country/CODE/CODE_ipv4.nft] or [..._ipv6.nft] with the two header
    lines, the set block of the country and the closing line when the
    bucket of the country in that family has a prefix, and leave that name
    as it was before when the bucket is empty or missing: the file is
    created exactly for the non-empty buckets. *)
Theorem generateCountryFiles_files :
  forall g order4 order6 w,
    rangeOrder (ipv4 g) order4 -> rangeOrder (ipv6 g) order6 ->
    (forall fam4 code, is_Some (bucket fam4 g !! code) ->
       isValidCountryCode code = true) ->
    noFaults w ->
    fst (generateCountryFiles g order4 order6 w) = None /\
    forall code fam4, isValidCountryCode code = true ->
      files (snd (generateCountryFiles g order4 order6 w))
        !! countryFileName code (ipTypeOf fam4) =
      match index (bucket fam4 g) code with
      | [] => files w !! countryFileName code (ipTypeOf fam4)
      | prefixes => Some (countryFile code prefixes (ipTypeOf fam4))
      end.
Proof.
  intros g order4 order6 w [Hnd4 Hk4] [Hnd6 Hk6] Hval Hw.
  unfold generateCountryFiles. rewrite bind_run.
  destruct (countryFilesLoop_ok (ipv4 g) true "IPv4" order4 w) as (w1 & Hr1 & Hw1 & Hf1);
    [done| |done|].
  { intros c Hc. apply (Hval true). by apply Hk4. }
  destruct (countryFilesLoop_ok (ipv6 g) false "IPv6" order6 w1) as (w2 & Hr2 & Hw2 & Hf2);
    [done| |done|].
  { intros c Hc. apply (Hval false). by apply Hk6. }
  cbn [ipTypeOf] in Hr1, Hr2. rewrite Hr1, Hr2. cbn [fst snd].
  split; [done|]. intros code fam4 Hcode.
  rewrite (Hf2 code fam4 Hcode), (Hf1 code fam4 Hcode).
  assert (Hidx : forall (m : gmap string (list Prefix)) (order : list string),
            (forall c, c ∈ order <-> is_Some (m !! c)) ->
            index m code <> [] -> code ∈ order).
  { intros m order Hk Hne. apply Hk. unfold index in Hne.
    destruct (m !! code); [eauto|done]. }
  destruct fam4; cbn [bucket].
  - rewrite (bool_decide_eq_false_2 (true = false /\ _)) by (by intros [? _]).
    destruct (index (ipv4 g) code) as [|p ps] eqn:Hi.
    + rewrite bool_decide_eq_false_2; [done|]. by intros (_ & _ & ?).
    + rewrite bool_decide_eq_true_2; [done|].
      split_and!; [done| |done]. apply (Hidx (ipv4 g)); [done|by rewrite Hi].
  - rewrite (bool_decide_eq_false_2 (false = true /\ _)) by (by intros [? _]).
    destruct (index (ipv6 g) code) as [|p ps] eqn:Hi.
    + rewrite bool_decide_eq_false_2; [done|]. by intros (_ & _ & ?).
    + rewrite bool_decide_eq_true_2; [done|].
      split_and!; [done| |done]. apply (Hidx (ipv6 g)); [done|by rewrite Hi].
Qed.

End CountryFiles.

(** ** File-system failures *)

Lemma sameFaults_refl w : sameFaults w w.
Proof. done. Qed.

Lemma sameFaults_trans w1 w2 w3 :
  sameFaults w1 w2 -> sameFaults w2 w3 -> sameFaults w1 w3.
Proof. intros (?&?&?) (?&?&?). split_and!; congruence. Qed.

Lemma Fprint_faults f s w : sameFaults w (snd (Fprint f s w)).
Proof. unfold Fprint. by destruct (writeErr w f). Qed.

(** Runs one [fmt] call of a sequence whose result the program drops. *)
Ltac skip_write Hs :=
  rewrite bind_run;
  match goal with
  | |- context [Fprint ?f ?s ?w] =>
    let H := fresh "Hf" in
    pose proof (sameFaults_trans _ _ _ Hs (Fprint_faults f s w)) as H;
    clear Hs; destruct (Fprint f s w) as [? ?]; cbn [snd] in H; rename H into Hs
  end.

(** [writeNFTSet] reports no error, whatever its writes do. *)
Lemma writeNFTSet_nil w0 f code prefixes ipType w :
  sameFaults w0 w ->
  fst (writeNFTSet f code prefixes ipType w) = None /\
  sameFaults w0 (snd (writeNFTSet f code prefixes ipType w)).
Proof.
  intros Hs. unfold writeNFTSet, Fprintln.
  skip_write Hs.
  skip_write Hs.
  skip_write Hs.
  skip_write Hs.
  skip_write Hs.
  skip_write Hs.
  skip_write Hs.
  done.
Qed.

Lemma writeSets_nil w0 f countryMap ipType codes w :
  sameFaults w0 w ->
  fst (writeSets f countryMap ipType codes w) = None /\
  sameFaults w0 (snd (writeSets f countryMap ipType codes w)).
Proof.
  revert w. induction codes as [|code codes IH]; intros w Hs; [done|].
  cbn [writeSets]. case_bool_decide; [by apply IH|].
  rewrite bind_run.
  destruct (writeNFTSet_nil w0 f code (index countryMap code) ipType w Hs) as [He Hs'].
  destruct (writeNFTSet _ _ _ _ w) as [err w1]. cbn [fst snd] in *. subst err.
  by apply IH.
Qed.

Lemma generateGlobalFile_nil order countryMap filename ipType w :
  openErr w filename = None ->
  fst (generateGlobalFile order countryMap filename ipType w) = None /\
  sameFaults w (snd (generateGlobalFile order countryMap filename ipType w)).
Proof.
  intros Ho. unfold generateGlobalFile.
  rewrite bind_run, OpenFile_ok by done.
  assert (Hs : sameFaults w (setFile w filename "")) by done.
  unfold Fprintln.
  skip_write Hs.
  skip_write Hs.
  rewrite bind_run.
  match goal with
  | |- context [writeSets ?f ?m ?t ?c ?w1] =>
    destruct (writeSets_nil w f m t c w1 Hs) as [He Hs'];
    destruct (writeSets f m t c w1) as [err w2]
  end.
  cbn [fst snd] in *. subst err.
  skip_write Hs'.
  done.
Qed.

Lemma generateCountryFile_nil code prefixes ipType w :
  (forall p, mkdirErr w p = None) -> (forall p, openErr w p = None) ->
  fst (generateCountryFile code prefixes ipType w) = None /\
  sameFaults w (snd (generateCountryFile code prefixes ipType w)).
Proof.
  intros Hm Ho. unfold generateCountryFile.
  case_bool_decide; [done|].
  rewrite bind_run.
  match goal with
  | |- context [MkdirAll ?d w] =>
    destruct (MkdirAll_frame d w) as (Hfst & _ & _ & Hs0 & _);
    destruct (MkdirAll d w) as [err wd]
  end.
  cbn [fst snd] in *. rewrite Hm in Hfst. subst err.
  rewrite bind_run, OpenFile_ok by (destruct Hs0 as (_ & -> & _); apply Ho).
  match goal with
  | |- context [setFile wd ?f ""] =>
    assert (Hs : sameFaults w (setFile wd f "")) by exact Hs0
  end.
  unfold Fprintln.
  skip_write Hs.
  skip_write Hs.
  rewrite bind_run.
  match goal with
  | |- context [writeNFTSet ?f ?c ?p ?t ?w1] =>
    destruct (writeNFTSet_nil w f c p t w1 Hs) as [He Hs'];
    destruct (writeNFTSet f c p t w1) as [err w2]
  end.
  cbn [fst snd] in *. subst err.
  skip_write Hs'.
  done.
Qed.

Lemma countryFilesLoop_nil countryMap ipType family order w :
  (forall p, mkdirErr w p = None) -> (forall p, openErr w p = None) ->
  fst (countryFilesLoop countryMap ipType family order w) = None /\
  sameFaults w (snd (countryFilesLoop countryMap ipType family order w)).
Proof.
  revert w. induction order as [|code order IH]; intros w Hm Ho; [done|].
  cbn [countryFilesLoop]. rewrite bind_run.
  destruct (generateCountryFile_nil code (index countryMap code) ipType w Hm Ho)
    as [He (Hs1 & Hs2 & Hs3)].
  destruct (generateCountryFile _ _ _ w) as [err w1]. cbn [fst snd] in *. subst err.
  destruct (IH w1) as [He (Hs1' & Hs2' & Hs3')].
  { intros p. rewrite Hs1. apply Hm. }
  { intros p. rewrite Hs2. apply Ho. }
  split; [done|]. split_and!; congruence.
Qed.

(** With directories and files that can be made and opened,
    [generateAllFiles] returns [nil], whatever the writes to the files
    do: no failure of a write is ever reported. *)
Lemma generateAllFiles_write_errors_dropped g o w :
  (forall p, mkdirErr w p = None) -> (forall p, openErr w p = None) ->
  fst (generateAllFiles g o w) = None.
Proof.
  intros Hm Ho. unfold generateAllFiles.
  rewrite bind_run, MkdirAll_by_country, Hm.
  set (w0 := withDir w "by_country").
  assert (Hs0 : sameFaults w w0) by done.
  rewrite bind_run.
  destruct (generateGlobalFile_nil (global4 o) (ipv4 g) "geoip_ipv4.nft" "ipv4" w0)
    as [He (Hs1 & Hs2 & Hs3)]; [apply Ho|].
  destruct (generateGlobalFile _ _ _ _ w0) as [err w1]. cbn [fst snd] in *. subst err.
  rewrite bind_run.
  destruct (generateGlobalFile_nil (global6 o) (ipv6 g) "geoip_ipv6.nft" "ipv6" w1)
    as [He (Hs1' & Hs2' & Hs3')]; [rewrite Hs2; apply Ho|].
  destruct (generateGlobalFile _ _ _ _ w1) as [err w2]. cbn [fst snd] in *. subst err.
  rewrite bind_run. unfold generateCountryFiles. rewrite bind_run.
  destruct (countryFilesLoop_nil (ipv4 g) "ipv4" "IPv4" (country4 o) w2)
    as [He (Hs1'' & Hs2'' & Hs3'')].
  { intros p. rewrite Hs1', Hs1. apply Hm. }
  { intros p. rewrite Hs2', Hs2. apply Ho. }
  destruct (countryFilesLoop _ _ _ _ w2) as [err w3]. cbn [fst snd] in *. subst err.
  destruct (countryFilesLoop_nil (ipv6 g) "ipv6" "IPv6" (country6 o) w3)
    as [He _].
  { intros p. rewrite Hs1'', Hs1', Hs1. apply Hm. }
  { intros p. rewrite Hs2'', Hs2', Hs2. apply Ho. }
  destruct (countryFilesLoop _ _ _ _ w3) as [err w4]. cbn [fst snd] in *. by subst err.
Qed.

(** A directory that cannot be made and a file that cannot be opened do
    abort the run. *)
Lemma generateAllFiles_mkdir_open_fatal g o w err :
  (mkdirErr w "by_country" = Some err ->
   generateAllFiles g o w = (Some ("creating by_country directory: " +:+ err), w)) /\
  (mkdirErr w "by_country" = None -> openErr w "geoip_ipv4.nft" = Some err ->
   fst (generateAllFiles g o w) =
     Some ("generating IPv4 global file: creating file geoip_ipv4.nft: " +:+ err)).
Proof.
  split.
  - intros Hm. unfold generateAllFiles. rewrite bind_run, MkdirAll_by_country.
    by rewrite Hm.
  - intros Hm Ho. unfold generateAllFiles. rewrite bind_run, MkdirAll_by_country.
    rewrite Hm. rewrite bind_run. unfold generateGlobalFile.
    rewrite bind_run, (OpenFile_fail _ _ err) by done. done.
Qed.

(** ** The set block read back *)

Lemma lacks_append c a b : lacks c (a +:+ b) = lacks c a && lacks c b.
Proof. unfold lacks. by rewrite bytes_append, forallb_app. Qed.

Lemma plainText_append a b : plainText (a +:+ b) = plainText a && plainText b.
Proof.
  unfold plainText. rewrite !lacks_append.
  destruct (lacks comma a), (lacks comma b), (lacks lineFeed a); done.
Qed.

Lemma length_append (a b : string) :
  String.length (a +:+ b) = (String.length a + String.length b)%nat.
Proof. induction a as [|x a IH]; [done|]. rewrite append_cons. simpl. by rewrite IH. Qed.

Lemma strDrop_append (a b : string) : strDrop (String.length a) (a +:+ b) = b.
Proof. induction a as [|x a IH]; [done|]. by rewrite append_cons. Qed.

Lemma strTake_append (a b : string) : strTake (String.length a) (a +:+ b) = a.
Proof.
  induction a as [|x a IH]; [by destruct b|].
  rewrite append_cons. simpl. by rewrite IH.
Qed.

Lemma HasPrefix_append (p s : string) : HasPrefix (p +:+ s) p = true.
Proof.
  induction p as [|x p IH]; [apply HasPrefix_empty|].
  rewrite append_cons. simpl. by rewrite bool_decide_eq_true_2, IH.
Qed.

Lemma stripPrefix_append p s : stripPrefix p (p +:+ s) = Some s.
Proof. unfold stripPrefix. by rewrite HasPrefix_append, strDrop_append. Qed.

Lemma stripSuffix_append suf s : stripSuffix suf (s +:+ suf) = Some s.
Proof.
  unfold stripSuffix, HasSuffix, len. rewrite length_append.
  replace (String.length s + String.length suf - String.length suf)%nat
    with (String.length s) by lia.
  rewrite strDrop_append, strTake_append, bool_decide_eq_true_2 by done.
  destruct (Z.leb_spec (Z.of_nat (String.length suf))
              (Z.of_nat (String.length s + String.length suf))); [done|lia].
Qed.

Lemma ofBytes_app (l : list ascii) (s : string) :
  ofBytes (l ++ bytes s) = ofBytes l +:+ s.
Proof.
  induction l as [|x l IH]; simpl; [apply ofBytes_bytes|].
  by rewrite append_cons, <-IH.
Qed.

Lemma splitLines_line a cur rest :
  lacks lineFeed a = true ->
  splitLines cur (a +:+ String lineFeed rest) =
    ofBytes (reverse cur ++ bytes a) :: splitLines [] rest.
Proof.
  revert cur. induction a as [|x a IH]; intros cur Ha.
  - rewrite append_nil_l. cbn [splitLines].
    rewrite bool_decide_eq_true_2 by done. by rewrite app_nil_r.
  - rewrite append_cons. cbn [splitLines].
    unfold lacks in Ha. cbn in Ha. apply andb_true_iff in Ha as [Hx Ha].
    apply negb_true_iff in Hx. rewrite Hx.
    rewrite IH by done. by rewrite reverse_cons, <-app_assoc.
Qed.

Lemma splitCommaSpace_last p cur :
  lacks comma p = true ->
  splitCommaSpace cur p = [ofBytes (reverse cur ++ bytes p)].
Proof.
  revert cur. induction p as [|x p IH]; intros cur Hp.
  - simpl. by rewrite app_nil_r.
  - unfold lacks in Hp. cbn in Hp. apply andb_true_iff in Hp as [Hx Hp].
    apply negb_true_iff in Hx. cbn [splitCommaSpace]. rewrite Hx. cbn [andb].
    assert (splitCommaSpace (x :: cur) p = [ofBytes (reverse cur ++ bytes (String x p))]) as E.
    { rewrite IH by done. by rewrite reverse_cons, <-app_assoc. }
    by destruct p.
Qed.

Lemma splitCommaSpace_piece p cur rest :
  lacks comma p = true ->
  splitCommaSpace cur (p +:+ ", " +:+ rest) =
    ofBytes (reverse cur ++ bytes p) :: splitCommaSpace [] rest.
Proof.
  revert cur. induction p as [|x p IH]; intros cur Hp.
  - rewrite append_nil_l. by rewrite app_nil_r.
  - unfold lacks in Hp. cbn in Hp. apply andb_true_iff in Hp as [Hx Hp].
    apply negb_true_iff in Hx. rewrite append_cons. cbn [splitCommaSpace].
    rewrite Hx. cbn [andb].
    assert (splitCommaSpace (x :: cur) (p +:+ ", " +:+ rest) =
            ofBytes (reverse cur ++ bytes (String x p)) :: splitCommaSpace [] rest) as E.
    { rewrite IH by done. by rewrite reverse_cons, <-app_assoc. }
    by destruct (p +:+ ", " +:+ rest).
Qed.

Lemma splitCommaSpace_Join parts p :
  Forall (fun s => lacks comma s = true) (p :: parts) ->
  splitCommaSpace [] (Join (p :: parts) ", ") = p :: parts.
Proof.
  revert p. induction parts as [|q parts IH]; intros p Hall.
  - apply Forall_cons in Hall as [Hp _]. simpl.
    rewrite splitCommaSpace_last by done. by rewrite reverse_nil, app_nil_l, ofBytes_bytes.
  - apply Forall_cons in Hall as [Hp Hall].
    change (Join (p :: q :: parts) ", ") with (p +:+ ", " +:+ Join (q :: parts) ", ").
    rewrite splitCommaSpace_piece by done. rewrite IH by done.
    by rewrite reverse_nil, app_nil_l, ofBytes_bytes.
Qed.

Lemma Join_nonempty parts p : p <> "" -> Join (p :: parts) ", " <> "".
Proof. destruct p; [done|]. by destruct parts. Qed.

Lemma readElements_Join parts :
  Forall (fun s => lacks comma s = true /\ s <> "") parts ->
  readElements (Join parts ", ") = parts.
Proof.
  intros Hall. destruct parts as [|p parts]; [done|].
  unfold readElements.
  rewrite bool_decide_eq_false_2.
  - apply splitCommaSpace_Join. eapply Forall_impl; [done|]. by intros s [? _].
  - apply Join_nonempty. by apply Forall_cons in Hall as [[_ ?] _].
Qed.

Lemma lacks_Join c parts :
  lacks c ", " = true ->
  Forall (fun s => lacks c s = true) parts -> lacks c (Join parts ", ") = true.
Proof.
  intros Hsep. induction 1 as [|p parts Hp Hall IH]; [done|].
  destruct parts as [|q parts]; [done|].
  change (Join (p :: q :: parts) ", ") with (p +:+ ", " +:+ Join (q :: parts) ", ").
  by rewrite !lacks_append, Hp, Hsep, IH.
Qed.

(** *** The text of a prefix *)

Lemma plainText_digit x : plainText (digit x) = true.
Proof.
  unfold digit. generalize (Z.to_nat x). intros n.
  do 16 (destruct n as [|n]; [done|]). done.
Qed.

Lemma plainText_uint d : plainText (NilEmpty.string_of_uint d) = true.
Proof.
  induction d; simpl; try done;
    match goal with
    | |- plainText (String ?c ?s) = true =>
      change (String c s) with (String c EmptyString +:+ s);
      by rewrite plainText_append, IHd
    end.
Qed.

Lemma plainText_uint0 d : plainText (NilZero.string_of_uint d) = true.
Proof. destruct d; [done|..]; apply plainText_uint. Qed.

Lemma plainText_Itoa n : plainText (Itoa n) = true.
Proof.
  unfold Itoa. destruct (Z.to_int n) as [d|d]; cbn [NilZero.string_of_int].
  - apply plainText_uint0.
  - change (String "-" (NilZero.string_of_uint d))
      with ("-" +:+ NilZero.string_of_uint d).
    by rewrite plainText_append, plainText_uint0.
Qed.

Lemma plainText_appendDecimal b x :
  plainText b = true -> plainText (appendDecimal b x) = true.
Proof.
  intros Hb. unfold appendDecimal.
  repeat match goal with
  | |- context [if ?c then _ else _] => destruct c
  end; by rewrite ?plainText_append, ?plainText_digit, ?Hb.
Qed.

Lemma plainText_appendHex b x :
  plainText b = true -> plainText (appendHex b x) = true.
Proof.
  intros Hb. unfold appendHex.
  repeat match goal with
  | |- context [if ?c then _ else _] => destruct c
  end; by rewrite ?plainText_append, ?plainText_digit, ?Hb.
Qed.

Lemma plainText_appendTo4 ret a :
  plainText ret = true -> plainText (appendTo4 ret a) = true.
Proof.
  intros Hr. unfold appendTo4.
  repeat first [apply plainText_appendDecimal
               |rewrite plainText_append, andb_true_iff; split; [|done]].
  done.
Qed.

Lemma plainText_appendGroups fuel a zs ze i ret :
  plainText ret = true -> plainText (appendGroups fuel a zs ze i ret) = true.
Proof.
  revert i ret. induction fuel as [|fuel IH]; intros i ret Hr; [done|].
  cbn [appendGroups]. destruct (i <? 8); [|done].
  destruct (i =? zs).
  - assert (plainText (ret +:+ "::") = true) by (by rewrite plainText_append, Hr).
    destruct (8 <=? ze); [done|]. by apply IH, plainText_appendHex.
  - apply IH, plainText_appendHex. destruct (0 <? i); [|done].
    by rewrite plainText_append, Hr.
Qed.

Lemma plainText_AddrString a : plainText (AddrString a) = true.
Proof.
  unfold AddrString. destruct (z a); [done|by apply plainText_appendTo4|].
  destruct (Is4In6 a); [by apply plainText_appendTo4|].
  unfold appendTo6. destruct (zeroRun 8 a 0 255 255) as [zs ze].
  by apply plainText_appendGroups.
Qed.

(** The text of a prefix is not empty and holds neither a comma nor a line
    feed. *)
Lemma PrefixString_plain p :
  plainText (PrefixString p) = true /\ PrefixString p <> "".
Proof.
  unfold PrefixString. destruct (negb (IsValid p)); [done|]. split.
  - by rewrite !plainText_append, plainText_AddrString, plainText_Itoa.
  - by destruct (AddrString (ip p)).
Qed.

(** C9: the set block that [writeNFTSet] writes for a country code and a
    family token without a line feed (every valid country code and both
    tokens are such) and any list of prefixes, read back line by line,
    gives the country code, the family token and the texts of the
    prefixes, in the order of the list. *)
Theorem setBlock_roundtrip :
  forall f code ipType prefixes w c,
    lacks lineFeed code = true -> lacks lineFeed ipType = true ->
    writeErr w f = None -> files w !! f = Some c ->
    exists text,
      files (snd (writeNFTSet f code prefixes ipType w)) !! f = Some (c +:+ text) /\
      readSetBlock text = Some (code, ipType, map PrefixString prefixes).
Proof.
  intros f code ipType prefixes w c Hcode Htype Hw Hc.
  exists (setBlock code prefixes ipType).
  rewrite (writeNFTSet_ok _ _ _ _ _ c) by done. cbn [snd].
  split; [apply setFile_lookup|].
  set (parts := map PrefixString prefixes).
  assert (Hparts : Forall (fun s => plainText s = true /\ s <> "") parts).
  { unfold parts. apply Forall_forall. intros s [p [-> _]]%list_elem_of_fmap.
    apply PrefixString_plain. }
  assert (Hnl : lacks lineFeed (Join parts ", ") = true).
  { apply lacks_Join; [done|]. eapply Forall_impl; [done|].
    intros s [[_ ?]%andb_true_iff _]. done. }
  unfold readSetBlock, setBlock. fold parts.
  change newline with (String lineFeed "").
  replace ("    set " +:+ code +:+ " {" +:+ String lineFeed "" +:+
           "        type " +:+ ipType +:+ "_addr" +:+ String lineFeed "" +:+
           "        flags interval" +:+ String lineFeed "" +:+
           "        elements = { " +:+ Join parts ", " +:+ " }" +:+ String lineFeed "" +:+
           "    }" +:+ String lineFeed "")
    with (("    set " +:+ code +:+ " {") +:+ String lineFeed
          (("        type " +:+ ipType +:+ "_addr") +:+ String lineFeed
           ("        flags interval" +:+ String lineFeed
            (("        elements = { " +:+ Join parts ", " +:+ " }") +:+ String lineFeed
             ("    }" +:+ String lineFeed "")))))
    by (by rewrite !append_assoc).
  rewrite !splitLines_line; try (by rewrite ?lacks_append, ?Hcode, ?Htype, ?Hnl).
  rewrite !reverse_nil, !app_nil_l, !ofBytes_bytes.
  cbn [splitLines]. rewrite !reverse_nil. cbn [ofBytes String.string_of_list_ascii].
  rewrite !stripPrefix_append. cbn [mbind option_bind].
  rewrite !stripSuffix_append. cbn [mbind option_bind].
  rewrite !bool_decide_eq_true_2 by done. cbn [andb].
  rewrite readElements_Join; [done|].
  eapply Forall_impl; [done|]. intros s [[? _]%andb_true_iff ?]. done.
Qed.

(** *** Every outcome of the extraction *)

Lemma entries_decompose tr :
  exists es tl,
    tr = entries es tl /\
    Forall (fun e => qualifies (entryHeader e) = false) es /\
    match tl with
    | TarEntry hdr _ _ _ => qualifies hdr = true
    | _ => True
    end.
Proof.
  induction tr as [|e|hdr data readErr next (es & tl & -> & Hes & Htl)].
  - by exists [], TarEOF.
  - by exists [], (TarError e).
  - destruct (qualifies hdr) eqn:Hq.
    + by exists [], (TarEntry hdr data readErr (entries es tl)).
    + exists ({| entryHeader := hdr; entryData := data; entryReadErr := readErr |} :: es), tl.
      split_and!; [done| |done]. by constructor.
Qed.

Lemma strTake_strDrop n s : strTake n s +:+ strDrop n s = s.
Proof.
  revert s. induction n as [|n IH]; intros [|c s]; try done.
  simpl. rewrite append_cons. by rewrite IH.
Qed.

Lemma strTake_length_le n s : (String.length (strTake n s) <= n)%nat.
Proof.
  revert s. induction n as [|n IH]; intros [|c s]; simpl; try lia.
  specialize (IH s). lia.
Qed.

Lemma readAllLimited_ok data readErr n mmdbData :
  readAllLimited data readErr n = Ok mmdbData ->
  len mmdbData <= Z.max 0 n /\ exists rest, data = mmdbData +:+ rest.
Proof.
  unfold readAllLimited, len.
  destruct (Z.leb_spec n (Z.of_nat (String.length data))) as [Hle|Hgt].
  - intros [= <-]. split.
    + pose proof (strTake_length_le (Z.to_nat n) data). lia.
    + exists (strDrop (Z.to_nat n) data). by rewrite strTake_strDrop.
  - destruct readErr; [done|]. intros [= <-]. split; [lia|].
    exists "". by rewrite append_nil_r.
Qed.

(** X1: the stream decides the outcome at the first item that is not a
    skipped entry.  Every stream is a run of entries that do not qualify
    followed by the end of the archive, a header error or a qualifying
    entry, and the result is the "not found" error, the header error, the
    "too large" error, the error of reading the entry, or the bytes read
    from the entry, in that order of tests. *)
Theorem extract_outcome :
  forall tr,
    exists es tl,
      tr = entries es tl /\
      Forall (fun e => qualifies (entryHeader e) = false) es /\
      match tl with
      | TarEOF => extractMMDBFromTar tr = Err notFound
      | TarError e => extractMMDBFromTar tr = Err ("reading tar header: " +:+ e)
      | TarEntry hdr data readErr _ =>
        qualifies hdr = true /\
        extractMMDBFromTar tr =
          if maxDownloadSize <? Size hdr then Err (tooLarge (Size hdr))
          else if Size hdr <=? len data
          then Ok (strTake (Z.to_nat (Size hdr)) data)
          else match readErr with
               | Some e => Err ("reading MMDB file: " +:+ e)
               | None => Ok data
               end
      end.
Proof.
  intros tr. destruct (entries_decompose tr) as (es & tl & -> & Hes & Htl).
  exists es, tl. split_and!; [done..|].
  rewrite extract_skip by done.
  destruct tl as [|e|hdr data readErr next]; [done..|].
  split; [done|]. rewrite extract_qualifying by done.
  unfold readAllLimited.
  destruct (maxDownloadSize <? Size hdr); [done|].
  destruct (Size hdr <=? len data); [done|]. by destruct readErr.
Qed.

(** X2: what extraction returns is never longer than the size ceiling, and
    it is the beginning of the content of an entry that passes the
    path-safety check, has the database suffix and is the first such entry
    of the stream. *)
Theorem extract_ok_bounded :
  forall tr mmdbData,
    extractMMDBFromTar tr = Ok mmdbData ->
    len mmdbData <= maxDownloadSize /\
    exists es hdr data readErr next rest,
      tr = entries es (TarEntry hdr data readErr next) /\
      Forall (fun e => qualifies (entryHeader e) = false) es /\
      isValidTarPath (Name hdr) = true /\ HasSuffix (Name hdr) ".mmdb" = true /\
      len mmdbData <= Z.max 0 (Size hdr) /\
      data = mmdbData +:+ rest.
Proof.
  intros tr mmdbData Hok.
  destruct (entries_decompose tr) as (es & tl & -> & Hes & Htl).
  rewrite extract_skip in Hok by done.
  destruct tl as [|e|hdr data readErr next]; [done..|].
  rewrite extract_qualifying in Hok by done.
  destruct (Z.ltb_spec maxDownloadSize (Size hdr)) as [|Hmax]; [done|].
  destruct (readAllLimited data readErr (Size hdr)) as [d|e] eqn:Hread; [|done].
  injection Hok as ->.
  apply readAllLimited_ok in Hread as (Hlen & rest & Hdata).
  assert (0 <= maxDownloadSize) by done.
  split; [lia|].
  exists es, hdr, data, readErr, next, rest.
  unfold qualifies in Htl. apply andb_true_iff in Htl as [Hp Hs].
  by split_and!.
Qed.

(** *** More on the validators and the aggregator *)

(** X3: [isAlphaOnly] holds exactly of the strings all of whose bytes are
    uppercase ASCII letters, whatever their length: of the empty string,
    and of no string with a byte outside ASCII, be it valid UTF-8 or
    not. *)
Theorem isAlphaOnly_exactly :
  (forall s, isAlphaOnly s = true <->
     Forall (fun c => 65 <= byteval c <= 90) (bytes s)) /\
  isAlphaOnly "" = true /\
  (forall s c, (c ∈ bytes s) -> 128 <= byteval c -> isAlphaOnly s = false).
Proof.
  assert (Hiff : forall s, isAlphaOnly s = true <->
            Forall (fun c => 65 <= byteval c <= 90) (bytes s)).
  { intros s. rewrite isAlphaOnly_bytes, forallb_forall, Forall_forall.
    unfold bytes. split; intros Hall c Hc.
    - apply isUpperByte_range, Hall. by apply list_elem_of_In.
    - apply isUpperByte_range, Hall. by apply list_elem_of_In. }
  split_and!; [done|done|].
  intros s c Hin Hc. apply not_true_iff_false. rewrite Hiff, Forall_forall.
  intros Hall. specialize (Hall c Hin). lia.
Qed.

(** X4: the comparison with [strings.ToUpper] never decides the outcome of
    [isValidCountryCode]: whatever the Unicode tables, the validator is
    the test of the length and [isAlphaOnly]. *)
Theorem isValidCountryCode_without_ToUpper :
  forall (tables1 tables2 : UnicodeTables) code,
    @isValidCountryCode tables1 code = @isValidCountryCode tables2 code /\
    @isValidCountryCode tables1 code = (len code =? 2) && isAlphaOnly code.
Proof.
  intros tables1 tables2 code. rewrite !isValidCountryCode_matches.
  split; [done|]. rewrite isAlphaOnly_bytes.
  destruct code as [|a [|b [|c t]]]; try done.
  - simpl. by rewrite andb_true_r.
  - assert ((len (String a (String b (String c t))) =? 2) = false) as ->; [|done].
    apply Z.eqb_neq. unfold len. simpl. lia.
Qed.

Section AggregatorMore.
Context {tables : UnicodeTables}.

Lemma elem_of_yielded fam4 code networks p :
  p ∈ yielded fam4 code networks <->
  exists r rec, r ∈ networks /\ Decode r = Some rec /\
    ISOCode (Country rec) = code /\ isValidCountryCode code = true /\
    Is4 (ip (ResultPrefix r)) = fam4 /\ ResultPrefix r = p.
Proof.
  unfold yielded. rewrite list_elem_of_In, in_map_iff. split.
  - intros (r & <- & [Hin Hsel]%filter_In). unfold selects in Hsel.
    destruct (Decode r) as [rec|] eqn:Hd; [|done].
    apply andb_true_iff in Hsel as [[Hc%bool_decide_eq_true Hv]%andb_true_iff
                                     Hf%bool_decide_eq_true].
    exists r, rec. by rewrite list_elem_of_In.
  - intros (r & rec & Hin & Hd & Hc & Hv & Hf & <-). exists r. split; [done|].
    apply filter_In. split; [by apply list_elem_of_In|].
    unfold selects. rewrite Hd, Hv.
    by rewrite !bool_decide_eq_true_2.
Qed.

(** X5: the two bucket mappings separate the families.  After the loop
    from the empty generator, a prefix is in the IPv4 bucket of a code
    exactly when the decoder yielded it with that code, the code is valid
    and its address is an IPv4 address, and in the IPv6 bucket exactly
    when it was so yielded with an address that is not: no prefix of the
    other family is ever in a bucket. *)
Theorem buckets_separate_families :
  forall networks code p,
    let g := loadNetworks newGeoIPGenerator networks in
    (p ∈ index (ipv4 g) code <->
       exists r rec, r ∈ networks /\ Decode r = Some rec /\
         ISOCode (Country rec) = code /\ isValidCountryCode code = true /\
         Is4 (ip (ResultPrefix r)) = true /\ ResultPrefix r = p) /\
    (p ∈ index (ipv6 g) code <->
       exists r rec, r ∈ networks /\ Decode r = Some rec /\
         ISOCode (Country rec) = code /\ isValidCountryCode code = true /\
         Is4 (ip (ResultPrefix r)) = false /\ ResultPrefix r = p) /\
    ((p ∈ index (ipv4 g) code) -> Is4 (ip p) = true) /\
    ((p ∈ index (ipv6 g) code) -> Is4 (ip p) = false).
Proof.
  intros networks code p g. unfold g.
  rewrite loadNetworks_index4, loadNetworks_index6.
  change (index (ipv4 newGeoIPGenerator) code) with (@nil Prefix).
  change (index (ipv6 newGeoIPGenerator) code) with (@nil Prefix).
  rewrite !app_nil_l, !elem_of_yielded.
  split_and!; [done|done|..].
  - by intros (r & rec & _ & _ & _ & _ & Hf & <-).
  - by intros (r & rec & _ & _ & _ & _ & Hf & <-).
Qed.

End AggregatorMore.

(** *** More on the global file *)

Lemma sortStrings_Permutation (o1 o2 : list string) :
  o1 ≡ₚ o2 -> sortStrings o1 = sortStrings o2.
Proof.
  intros Hp. unfold sortStrings.
  apply (StronglySorted_unique String.le).
  - apply StronglySorted_merge_sort; apply _.
  - apply StronglySorted_merge_sort; apply _.
  - by rewrite !merge_sort_Permutation.
Qed.

Lemma rangeOrder_Permutation (m : gmap string (list Prefix)) (o1 o2 : list string) :
  rangeOrder m o1 -> rangeOrder m o2 -> o1 ≡ₚ o2.
Proof.
  intros [Hn1 Hk1] [Hn2 Hk2]. apply NoDup_Permutation; [done..|].
  intros code. by rewrite Hk1, Hk2.
Qed.

(** X6: the global file does not depend on the order in which [range]
    visits the bucket mapping: for any two orders of the keys of the same
    mapping, [generateGlobalFile] returns the same error and leaves the
    same world, whatever fails. *)
Theorem generateGlobalFile_order_irrelevant :
  forall countryMap order1 order2 filename ipType w,
    rangeOrder countryMap order1 -> rangeOrder countryMap order2 ->
    generateGlobalFile order1 countryMap filename ipType w =
    generateGlobalFile order2 countryMap filename ipType w.
Proof.
  intros countryMap order1 order2 filename ipType w H1 H2.
  unfold generateGlobalFile.
  by rewrite (sortStrings_Permutation order1 order2)
    by (by eapply rangeOrder_Permutation).
Qed.

Lemma touchesOnly_refl f w : touchesOnly f w w.
Proof. done. Qed.

Lemma touchesOnly_trans f w1 w2 w3 :
  touchesOnly f w1 w2 -> touchesOnly f w2 w3 -> touchesOnly f w1 w3.
Proof.
  intros (Hf1 & Hd1 & Hs1) (Hf2 & Hd2 & Hs2). split_and!.
  - intros n Hn. by rewrite Hf2, Hf1.
  - congruence.
  - by eapply sameFaults_trans.
Qed.

Lemma touchesOnly_setFile f w c : touchesOnly f w (setFile w f c).
Proof.
  split_and!; [|done..]. intros n Hn. unfold setFile. cbn [files].
  by rewrite lookup_insert_ne.
Qed.

Lemma written_setFile f w c : written f w (setFile w f c).
Proof.
  split; [apply touchesOnly_setFile|]. rewrite setFile_lookup. by eexists.
Qed.

Lemma Fprint_written f s w0 w :
  written f w0 w -> written f w0 (snd (Fprint f s w)).
Proof.
  intros [Ht Hf]. unfold Fprint. destruct (writeErr w f); [done|]. cbn [snd].
  split.
  - eapply touchesOnly_trans; [done|apply touchesOnly_setFile].
  - rewrite setFile_lookup. by eexists.
Qed.

(** Runs one [fmt] call to the file [f], keeping track of what has
    changed. *)
Ltac frame_write Hs :=
  rewrite bind_run;
  match goal with
  | |- context [Fprint ?f ?s ?w] =>
    let H := fresh "Hf" in
    pose proof (Fprint_written f s _ w Hs) as H;
    clear Hs; destruct (Fprint f s w) as [? ?]; cbn [snd] in H; rename H into Hs
  end.

Lemma writeNFTSet_written w0 f code prefixes ipType w :
  written f w0 w ->
  fst (writeNFTSet f code prefixes ipType w) = None /\
  written f w0 (snd (writeNFTSet f code prefixes ipType w)).
Proof.
  intros Hs. unfold writeNFTSet, Fprintln.
  do 7 frame_write Hs. done.
Qed.

Lemma writeSets_written w0 f countryMap ipType codes w :
  written f w0 w ->
  fst (writeSets f countryMap ipType codes w) = None /\
  written f w0 (snd (writeSets f countryMap ipType codes w)).
Proof.
  revert w. induction codes as [|code codes IH]; intros w Hs; [done|].
  cbn [writeSets]. case_bool_decide; [by apply IH|].
  rewrite bind_run.
  destruct (writeNFTSet_written w0 f code (index countryMap code) ipType w Hs)
    as [He Hs'].
  destruct (writeNFTSet _ _ _ _ w) as [err w1]. cbn [fst snd] in *. subst err.
  by apply IH.
Qed.

(** What [generateGlobalFile] does once the file is open. *)
Lemma generateGlobalFile_written order countryMap filename ipType w :
  openErr w filename = None ->
  fst (generateGlobalFile order countryMap filename ipType w) = None /\
  written filename w (snd (generateGlobalFile order countryMap filename ipType w)).
Proof.
  intros Ho. unfold generateGlobalFile. rewrite bind_run, OpenFile_ok by done.
  pose proof (written_setFile filename w "") as Hs.
  unfold Fprintln. do 2 frame_write Hs.
  rewrite bind_run.
  match goal with
  | |- context [writeSets ?f ?m ?t ?c ?w1] =>
    destruct (writeSets_written w f m t c w1 Hs) as [He Hs'];
    destruct (writeSets f m t c w1) as [err w2]
  end.
  cbn [fst snd] in *. subst err.
  frame_write Hs'. done.
Qed.

(** X7: [generateGlobalFile] changes no file but the one it is given and
    makes no directory, whatever fails. *)
Theorem generateGlobalFile_touches_only :
  forall order countryMap filename ipType w n,
    n <> filename ->
    files (snd (generateGlobalFile order countryMap filename ipType w)) !! n =
      files w !! n /\
    dirs (snd (generateGlobalFile order countryMap filename ipType w)) = dirs w.
Proof.
  intros order countryMap filename ipType w n Hn.
  destruct (openErr w filename) as [e|] eqn:Ho.
  { unfold generateGlobalFile. by rewrite bind_run, (OpenFile_fail _ _ e). }
  destruct (generateGlobalFile_written order countryMap filename ipType w Ho)
    as (_ & (Hf & Hd & _) & _).
  split; [by apply Hf|done].
Qed.

(** X8: the global file is written afresh.  When the file can be opened
    and written, running [generateGlobalFile] a second time leaves the
    files and the directories as the first run left them, and what the
    file holds afterwards does not depend on what it held before. *)
Theorem generateGlobalFile_idempotent :
  forall order countryMap filename ipType w old,
    openErr w filename = None -> writeErr w filename = None ->
    let w1 := snd (generateGlobalFile order countryMap filename ipType w) in
    let w2 := snd (generateGlobalFile order countryMap filename ipType w1) in
    files w2 = files w1 /\ dirs w2 = dirs w1 /\
    files (snd (generateGlobalFile order countryMap filename ipType
                  (setFile w filename old))) !! filename =
      files w1 !! filename.
Proof.
  intros order countryMap filename ipType w old Ho Hw w1 w2.
  unfold w2, w1. rewrite (generateGlobalFile_ok _ _ _ _ w) by done.
  cbn [snd]. rewrite !generateGlobalFile_ok by done.
  cbn [snd files dirs printed setFile].
  split_and!; [by rewrite insert_insert_eq|done|].
  by rewrite !lookup_insert_eq.
Qed.

(** *** More on the per-country files *)

(** The four ways [generateCountryFile] ends. *)
Lemma generateCountryFile_outcome code prefixes ipType w :
  let countryDir := filepathJoin "by_country" code in
  let filename := filepathJoin countryDir (code +:+ "_" +:+ ipType +:+ ".nft") in
  let r := generateCountryFile code prefixes ipType w in
  (prefixes = [] -> r = (None, w)) /\
  (forall e, prefixes <> [] -> mkdirErr w countryDir = Some e ->
     r = (Some ("creating country directory " +:+ countryDir +:+ ": " +:+ e),
          snd (MkdirAll countryDir w))) /\
  (forall e, prefixes <> [] -> mkdirErr w countryDir = None ->
     openErr w filename = Some e ->
     r = (Some ("creating file " +:+ filename +:+ ": " +:+ e),
          snd (MkdirAll countryDir w))) /\
  (prefixes <> [] -> mkdirErr w countryDir = None -> openErr w filename = None ->
     fst r = None /\ written filename (snd (MkdirAll countryDir w)) (snd r)).
Proof.
  intros countryDir filename r. unfold r, generateCountryFile.
  fold countryDir. fold filename.
  destruct (MkdirAll_frame countryDir w) as (Hfst & _ & _ & (_ & Hso & _) & _).
  destruct (MkdirAll countryDir w) as [err wd] eqn:Hmk. cbn [fst snd] in *.
  split_and!.
  - intros ->. done.
  - intros e Hp Hm. rewrite bool_decide_eq_false_2 by (by destruct prefixes).
    rewrite bind_run, Hmk. rewrite Hm in Hfst. by subst err.
  - intros e Hp Hm Ho. rewrite bool_decide_eq_false_2 by (by destruct prefixes).
    rewrite bind_run, Hmk. rewrite Hm in Hfst. subst err.
    rewrite bind_run, (OpenFile_fail _ _ e) by (by rewrite Hso). done.
  - intros Hp Hm Ho. rewrite bool_decide_eq_false_2 by (by destruct prefixes).
    rewrite bind_run, Hmk. rewrite Hm in Hfst. subst err.
    rewrite bind_run, OpenFile_ok by (by rewrite Hso).
    pose proof (written_setFile filename wd "") as Hs.
    unfold Fprintln.
    do 2 frame_write Hs.
    rewrite bind_run.
    match goal with
    | |- context [writeNFTSet ?f ?c ?p ?t ?w1] =>
      destruct (writeNFTSet_written wd f c p t w1 Hs) as [He Hs'];
      destruct (writeNFTSet f c p t w1) as [err w2]
    end.
    cbn [fst snd] in *. subst err.
    frame_write Hs'. cbn [fst snd mret IO_ret]. done.
Qed.

(** X9: what [generateCountryFile] does to the file system, whatever
    fails.  It changes no file but [by_country/CODE/CODE_TYPE.nft] (as
    [filepath.Join] gives it); it removes no directory and makes none but
    the one of the country and the directories above it ([by_country]
    among them); without prefixes it does nothing at all; when it reports
    an error no file has been touched; and when it reports none for a list
    with a prefix, the directory of the country, the directories above it
    and the file exist afterwards, even if every write to the file
    failed. *)
Theorem generateCountryFile_effects :
  forall code prefixes ipType w,
    let countryDir := filepathJoin "by_country" code in
    let filename := filepathJoin countryDir (code +:+ "_" +:+ ipType +:+ ".nft") in
    let r := generateCountryFile code prefixes ipType w in
    (forall n, n <> filename -> files (snd r) !! n = files w !! n) /\
    (forall d, d ∈ dirs w -> d ∈ dirs (snd r)) /\
    (forall d, d ∈ dirs (snd r) ->
       d ∈ dirs w \/ d = countryDir \/ d ∈ ancestors countryDir) /\
    (prefixes = [] -> r = (None, w)) /\
    (fst r <> None -> files (snd r) = files w) /\
    (prefixes <> [] -> fst r = None ->
       countryDir ∈ dirs (snd r) /\
       (forall d, d ∈ ancestors countryDir -> d ∈ dirs (snd r)) /\
       is_Some (files (snd r) !! filename)).
Proof.
  intros code prefixes ipType w countryDir filename r.
  destruct (generateCountryFile_outcome code prefixes ipType w)
    as (Hnil & Hmk & Hop & Hok).
  fold countryDir in Hmk, Hop, Hok. fold filename in Hop, Hok.
  fold r in Hnil, Hmk, Hop, Hok.
  destruct (MkdirAll_frame countryDir w) as (_ & Hmf & _ & _ & Hmono & Hnew & Hmade).
  destruct (decide (prefixes = [])) as [Hp|Hp].
  { rewrite (Hnil Hp). cbn [fst snd]. split_and!; auto; done. }
  destruct (mkdirErr w countryDir) as [e|] eqn:Hm.
  { rewrite (Hmk e Hp eq_refl). cbn [fst snd]. split_and!; auto; try done.
    intros n _. by rewrite Hmf. }
  destruct (openErr w filename) as [e|] eqn:Ho.
  { rewrite (Hop e Hp eq_refl eq_refl). cbn [fst snd]. split_and!; auto; try done.
    intros n _. by rewrite Hmf. }
  destruct (Hok Hp eq_refl eq_refl) as (He & ((Hf & Hd & _) & Hex)).
  split_and!.
  - intros n Hn. by rewrite Hf, Hmf.
  - intros d Hd'. rewrite Hd. by apply Hmono.
  - intros d Hd'. rewrite Hd in Hd'. by apply Hnew.
  - done.
  - by rewrite He.
  - intros _ _. split_and!; [|intros d Hd'|done]; rewrite Hd; apply (Hmade eq_refl); auto.
Qed.

Lemma setFile_withDir_comm w p d1 f1 c1 d2 f2 c2 :
  f1 <> f2 ->
  setFile (withDir (withDir (setFile (withDir (withDir w p) d1) f1 c1) p) d2) f2 c2 =
  setFile (withDir (withDir (setFile (withDir (withDir w p) d2) f2 c2) p) d1) f1 c1.
Proof.
  intros Hne. destruct w as [fs ds out me oe we]. unfold setFile, withDir.
  cbn [files dirs stdout mkdirErr openErr writeErr]. f_equal.
  - by apply insert_insert_ne.
  - set_solver.
Qed.

Section CountryMore.
Context {tables : UnicodeTables}.

Lemma countryFilesLoop_fold m fam4 family order w :
  (forall c, c ∈ order -> isValidCountryCode c = true) -> noFaults w ->
  countryFilesLoop m (ipTypeOf fam4) family order w =
    (None, foldl (afterCountry m fam4) w order).
Proof.
  revert w. induction order as [|c order IH]; intros w Hv Hw; [done|].
  cbn [countryFilesLoop foldl]. rewrite bind_run.
  rewrite generateCountryFile_ok by (first [apply Hv; by left|done]).
  assert (Hv' : forall c', c' ∈ order -> isValidCountryCode c' = true).
  { intros c' Hc'. apply Hv. by right. }
  unfold afterCountry at 2. destruct (index m c) as [|p ps]; [by apply IH|].
  apply IH; [done|]. by apply noFaults_setFile, noFaults_withDir, noFaults_withDir.
Qed.

Lemma afterCountry_comm m fam4 w c1 c2 :
  isValidCountryCode c1 = true -> isValidCountryCode c2 = true ->
  afterCountry m fam4 (afterCountry m fam4 w c1) c2 =
  afterCountry m fam4 (afterCountry m fam4 w c2) c1.
Proof.
  intros H1 H2. destruct (decide (c1 = c2)) as [->|Hne]; [done|].
  unfold afterCountry.
  destruct (index m c1) as [|p1 ps1]; [reflexivity|].
  destruct (index m c2) as [|p2 ps2]; [reflexivity|].
  apply setFile_withDir_comm. intros E.
  apply countryFileName_inj in E as [E _]; [|done..]. by apply Hne.
Qed.

Lemma foldl_afterCountry_Permutation m fam4 (l1 l2 : list string) :
  l1 ≡ₚ l2 ->
  (forall c, c ∈ l1 -> isValidCountryCode c = true) ->
  forall w, foldl (afterCountry m fam4) w l1 = foldl (afterCountry m fam4) w l2.
Proof.
  induction 1 as [|x l l' Hp IH|x y l|l l' l'' Hp1 IH1 Hp2 IH2]; intros Hv w.
  - done.
  - cbn [foldl]. apply IH. intros c Hc. apply Hv. by right.
  - cbn [foldl]. rewrite (afterCountry_comm m fam4 w y x); [done|apply Hv..].
    + by left.
    + right. by left.
  - rewrite IH1 by done. apply IH2. intros c Hc. apply Hv. by rewrite Hp1.
Qed.

(** X10: when nothing fails, the per-country files do not depend on the
    order in which the two [range] loops visit the bucket mappings: any
    two runs of [generateCountryFiles] from the same world end in the same
    world. *)
Theorem generateCountryFiles_order_irrelevant :
  forall g order4 order6 order4' order6' w,
    rangeOrder (ipv4 g) order4 -> rangeOrder (ipv4 g) order4' ->
    rangeOrder (ipv6 g) order6 -> rangeOrder (ipv6 g) order6' ->
    (forall fam4 code, is_Some (bucket fam4 g !! code) ->
       isValidCountryCode code = true) ->
    noFaults w ->
    generateCountryFiles g order4 order6 w =
    generateCountryFiles g order4' order6' w.
Proof.
  intros g order4 order6 order4' order6' w H4 H4' H6 H6' Hval Hw.
  assert (Hv : forall fam4 order, rangeOrder (bucket fam4 g) order ->
            forall c, c ∈ order -> isValidCountryCode c = true).
  { intros fam4 order [_ Hk] c Hc. apply (Hval fam4). by apply Hk. }
  assert (Hnf : forall m fam4 order, noFaults (foldl (afterCountry m fam4) w order)).
  { intros m fam4 order. revert w Hw.
    induction order as [|c order IH]; intros w Hw; [done|].
    cbn [foldl]. apply IH. unfold afterCountry.
    destruct (index m c); [done|]. by apply noFaults_setFile, noFaults_withDir, noFaults_withDir. }
  assert (Hloop4 : forall order w0, rangeOrder (ipv4 g) order -> noFaults w0 ->
            countryFilesLoop (ipv4 g) "ipv4" "IPv4" order w0 =
              (None, foldl (afterCountry (ipv4 g) true) w0 order)).
  { intros order w0 Ho Hw0.
    apply (countryFilesLoop_fold (ipv4 g) true); [by apply (Hv true)|done]. }
  assert (Hloop6 : forall order w0, rangeOrder (ipv6 g) order -> noFaults w0 ->
            countryFilesLoop (ipv6 g) "ipv6" "IPv6" order w0 =
              (None, foldl (afterCountry (ipv6 g) false) w0 order)).
  { intros order w0 Ho Hw0.
    apply (countryFilesLoop_fold (ipv6 g) false); [by apply (Hv false)|done]. }
  unfold generateCountryFiles. rewrite !bind_run.
  rewrite (Hloop4 order4), (Hloop4 order4') by done.
  rewrite (Hloop6 order6), (Hloop6 order6') by done.
  f_equal.
  rewrite (foldl_afterCountry_Permutation (ipv4 g) true order4 order4');
    [|by eapply rangeOrder_Permutation|by apply (Hv true)].
  apply foldl_afterCountry_Permutation;
    [by eapply rangeOrder_Permutation|by apply (Hv false)].
Qed.

End CountryMore.

(** *** The whole output *)

Lemma files_setFile_ne w f c n : n <> f -> files (setFile w f c) !! n = files w !! n.
Proof. intros Hn. unfold setFile. cbn [files]. by apply lookup_insert_ne. Qed.

Lemma files_printed w s : files (printed w s) = files w.
Proof. done. Qed.

Lemma files_withDir w d : files (withDir w d) = files w.
Proof. done. Qed.

Lemma dirs_base w d f1 c1 s1 f2 c2 s2 :
  dirs (printed (setFile (printed (setFile (withDir w d) f1 c1) s1) f2 c2) s2) =
    {[d]} ∪ dirs w.
Proof. done. Qed.

Lemma stdout_base w d f1 c1 s1 f2 c2 s2 :
  stdout (printed (setFile (printed (setFile (withDir w d) f1 c1) s1) f2 c2) s2) =
    stdout w +:+ s1 +:+ s2.
Proof. unfold printed, setFile, withDir. cbn [stdout]. apply append_assoc. Qed.

Lemma countryFileName_not_global code ipType :
  countryFileName code ipType <> "geoip_ipv4.nft" /\
  countryFileName code ipType <> "geoip_ipv6.nft".
Proof.
  unfold countryFileName. rewrite append_cons. split; intros H; discriminate H.
Qed.

Lemma afterCountry_files_ne m fam4 w c n :
  (index m c <> [] -> n <> countryFileName c (ipTypeOf fam4)) ->
  files (afterCountry m fam4 w c) !! n = files w !! n.
Proof.
  intros Hn. unfold afterCountry. destruct (index m c) as [|p ps]; [done|].
  rewrite files_setFile_ne by (by apply Hn). done.
Qed.

Lemma afterCountry_files_eq m fam4 w c :
  index m c <> [] ->
  files (afterCountry m fam4 w c) !! countryFileName c (ipTypeOf fam4) =
    Some (countryFile c (index m c) (ipTypeOf fam4)).
Proof.
  intros Hn. unfold afterCountry. destruct (index m c) as [|p ps]; [done|].
  apply setFile_lookup.
Qed.

Lemma afterCountry_dirs m fam4 w c d :
  d ∈ dirs (afterCountry m fam4 w c) <->
  d ∈ dirs w \/ (index m c <> [] /\ (d = "by_country" \/ d = "by_country/" +:+ c)).
Proof.
  unfold afterCountry. destruct (index m c) as [|p ps].
  - naive_solver.
  - unfold setFile, withDir. cbn [dirs].
    rewrite !elem_of_union, !elem_of_singleton. naive_solver.
Qed.

Lemma afterCountry_stdout m fam4 w c : stdout (afterCountry m fam4 w c) = stdout w.
Proof. unfold afterCountry. by destruct (index m c). Qed.

Lemma afterCountry_noFaults m fam4 w c : noFaults w -> noFaults (afterCountry m fam4 w c).
Proof.
  intros Hw. unfold afterCountry. destruct (index m c); [done|].
  by apply noFaults_setFile, noFaults_withDir, noFaults_withDir.
Qed.

Lemma foldl_afterCountry_noFaults m fam4 order w :
  noFaults w -> noFaults (foldl (afterCountry m fam4) w order).
Proof.
  revert w. induction order as [|c order IH]; intros w Hw; [done|].
  cbn [foldl]. by apply IH, afterCountry_noFaults.
Qed.

Lemma foldl_afterCountry_stdout m fam4 order w :
  stdout (foldl (afterCountry m fam4) w order) = stdout w.
Proof.
  revert w. induction order as [|c order IH]; intros w; [done|].
  cbn [foldl]. by rewrite IH, afterCountry_stdout.
Qed.

Lemma foldl_afterCountry_dirs m fam4 (order : list string) w d :
  d ∈ dirs (foldl (afterCountry m fam4) w order) <->
  d ∈ dirs w \/
  exists c, c ∈ order /\ index m c <> [] /\
            (d = "by_country" \/ d = "by_country/" +:+ c).
Proof.
  revert w. induction order as [|c order IH]; intros w.
  { cbn [foldl]. split; [by left|]. intros [?|(c & Hc & _)]; [done|].
    by apply elem_of_nil in Hc. }
  cbn [foldl]. rewrite IH, afterCountry_dirs. split.
  - intros [[?|[Hn Hd]]|(c' & Hc' & Hn & Hd)].
    + by left.
    + right. exists c. split; [by left|done].
    + right. exists c'. split; [by right|done].
  - intros [?|(c' & Hc' & Hn & Hd)]; [by left; left|].
    apply elem_of_cons in Hc' as [->|Hc'].
    + left. right. done.
    + right. by exists c'.
Qed.

Lemma foldl_afterCountry_files_ne m fam4 (order : list string) w n :
  (forall c, c ∈ order -> index m c <> [] -> n <> countryFileName c (ipTypeOf fam4)) ->
  files (foldl (afterCountry m fam4) w order) !! n = files w !! n.
Proof.
  revert w. induction order as [|c order IH]; intros w Hn; [done|].
  cbn [foldl]. rewrite IH.
  - apply afterCountry_files_ne. apply Hn. by left.
  - intros c' Hc'. apply Hn. by right.
Qed.

Section AllFiles.
Context {tables : UnicodeTables}.

Lemma foldl_afterCountry_files_eq m fam4 (order : list string) w code :
  (forall c, c ∈ order -> isValidCountryCode c = true) ->
  code ∈ order -> index m code <> [] ->
  files (foldl (afterCountry m fam4) w order) !! countryFileName code (ipTypeOf fam4) =
    Some (countryFile code (index m code) (ipTypeOf fam4)).
Proof.
  revert w. induction order as [|c order IH]; intros w Hv Hin Hne.
  { by apply elem_of_nil in Hin. }
  assert (Hv' : forall c', c' ∈ order -> isValidCountryCode c' = true).
  { intros c' Hc'. apply Hv. by right. }
  cbn [foldl]. destruct (decide (code ∈ order)) as [Hin'|Hnin]; [by apply IH|].
  apply elem_of_cons in Hin as [->|Hin]; [|done].
  rewrite foldl_afterCountry_files_ne; [by apply afterCountry_files_eq|].
  intros c' Hc' _ E.
  apply countryFileName_inj in E as [-> _]; [done|apply Hv; by left|by apply Hv'].
Qed.

(** The world [generateAllFiles] leaves when nothing fails. *)
Lemma generateAllFiles_ok g o w :
  (forall c, c ∈ country4 o -> isValidCountryCode c = true) ->
  (forall c, c ∈ country6 o -> isValidCountryCode c = true) ->
  noFaults w ->
  generateAllFiles g o w =
    (None,
     foldl (afterCountry (ipv6 g) false)
       (foldl (afterCountry (ipv4 g) true)
          (printed
             (setFile
                (printed
                   (setFile (withDir w "by_country") "geoip_ipv4.nft"
                      (globalFile (ipv4 g) "ipv4" (global4 o)))
                   (generatedLine "geoip_ipv4.nft"))
                "geoip_ipv6.nft" (globalFile (ipv6 g) "ipv6" (global6 o)))
             (generatedLine "geoip_ipv6.nft"))
          (country4 o))
       (country6 o)).
Proof.
  intros Hv4 Hv6 Hw. pose proof Hw as (Hm & Ho & Hwr).
  unfold generateAllFiles. rewrite bind_run, MkdirAll_by_country, Hm.
  rewrite bind_run, generateGlobalFile_ok by (first [apply Ho|apply Hwr]).
  rewrite bind_run, generateGlobalFile_ok by (first [apply Ho|apply Hwr]).
  rewrite bind_run. unfold generateCountryFiles. rewrite bind_run.
  fold (globalFile (ipv4 g) "ipv4" (global4 o)).
  fold (globalFile (ipv6 g) "ipv6" (global6 o)).
  fold (generatedLine "geoip_ipv4.nft"). fold (generatedLine "geoip_ipv6.nft").
  set (w2 := printed _ (generatedLine "geoip_ipv6.nft")).
  assert (Hw2 : noFaults w2) by done.
  pose proof (countryFilesLoop_fold (ipv4 g) true "IPv4" (country4 o) w2 Hv4 Hw2) as E4.
  change (ipTypeOf true) with "ipv4" in E4. rewrite E4.
  pose proof (countryFilesLoop_fold (ipv6 g) false "IPv6" (country6 o) _ Hv6
                (foldl_afterCountry_noFaults (ipv4 g) true (country4 o) w2 Hw2)) as E6.
  change (ipTypeOf false) with "ipv6" in E6. rewrite E6. done.
Qed.

(** The per-country part of the output when nothing fails. *)
Lemma generateAllFiles_country g o w :
  rangeOrder (ipv4 g) (country4 o) -> rangeOrder (ipv6 g) (country6 o) ->
  (forall fam4 code, is_Some (bucket fam4 g !! code) ->
     isValidCountryCode code = true) ->
  noFaults w ->
  (forall fam4 code, index (bucket fam4 g) code <> [] ->
     files (snd (generateAllFiles g o w)) !! countryFileName code (ipTypeOf fam4) =
       Some (countryFile code (index (bucket fam4 g) code) (ipTypeOf fam4))) /\
  (forall d, d ∈ dirs (snd (generateAllFiles g o w)) <->
     d ∈ dirs w \/ d = "by_country" \/
     exists fam4 code, index (bucket fam4 g) code <> [] /\ d = "by_country/" +:+ code).
Proof.
  intros [_ Hk4] [_ Hk6] Hval Hw.
  assert (Hin : forall fam4 code, index (bucket fam4 g) code <> [] ->
            is_Some (bucket fam4 g !! code)).
  { intros fam4 code Hne. apply index_nonempty in Hne as (l & Hl & _). eauto. }
  assert (Hv4 : forall c, c ∈ country4 o -> isValidCountryCode c = true).
  { intros c Hc. apply (Hval true). by apply Hk4. }
  assert (Hv6 : forall c, c ∈ country6 o -> isValidCountryCode c = true).
  { intros c Hc. apply (Hval false). by apply Hk6. }
  rewrite (generateAllFiles_ok g o w Hv4 Hv6 Hw). cbn [fst snd].
  set (w2 := printed _ (generatedLine "geoip_ipv6.nft")).
  split.
  - intros [|] code Hne; unfold bucket in Hne |- *.
    + rewrite foldl_afterCountry_files_ne.
      * apply foldl_afterCountry_files_eq; [done| |done]. by apply Hk4, (Hin true).
      * intros c Hc _ E. apply countryFileName_inj in E as [_ E]; [done|..].
        -- by apply (Hval true), (Hin true).
        -- by apply Hv6.
    + apply foldl_afterCountry_files_eq; [done| |done]. by apply Hk6, (Hin false).
  - intros d. rewrite !foldl_afterCountry_dirs. unfold w2. rewrite dirs_base.
    rewrite elem_of_union, elem_of_singleton. split.
    + intros [[[->|?]|(c & _ & Hne & [->| ->])]|(c & _ & Hne & [->| ->])].
      * right. by left.
      * by left.
      * right. by left.
      * right. right. by exists true, c.
      * right. by left.
      * right. right. by exists false, c.
    + intros [?|[->|(fam4 & c & Hne & ->)]].
      * left. left. by right.
      * left. left. by left.
      * destruct fam4; unfold bucket in Hne.
        -- left. right. exists c. split_and!; [|done|by right]. by apply Hk4, (Hin true).
        -- right. exists c. split_and!; [|done|by right]. by apply Hk6, (Hin false).
Qed.

(** The global files at the end of the run when nothing fails. *)
Lemma generateAllFiles_global g o w :
  (forall c, c ∈ country4 o -> isValidCountryCode c = true) ->
  (forall c, c ∈ country6 o -> isValidCountryCode c = true) ->
  noFaults w ->
  files (snd (generateAllFiles g o w)) !! "geoip_ipv4.nft" =
    Some (globalFile (ipv4 g) "ipv4" (global4 o)) /\
  files (snd (generateAllFiles g o w)) !! "geoip_ipv6.nft" =
    Some (globalFile (ipv6 g) "ipv6" (global6 o)).
Proof.
  intros Hv4 Hv6 Hw.
  rewrite (generateAllFiles_ok g o w Hv4 Hv6 Hw). cbn [fst snd]. split.
  - rewrite !foldl_afterCountry_files_ne
      by (intros c _ _ E; symmetry in E; by apply countryFileName_not_global in E).
    rewrite files_printed, files_setFile_ne by done.
    rewrite files_printed. apply setFile_lookup.
  - rewrite !foldl_afterCountry_files_ne
      by (intros c _ _ E; symmetry in E; by apply countryFileName_not_global in E).
    rewrite files_printed. apply setFile_lookup.
Qed.

(** X11: the whole output when nothing fails.  [generateAllFiles] returns
    no error and leaves: the two global files with their set blocks; for
    every country and family with a prefix the file
    [by_country/CODE/CODE_TYPE.nft] with the one set block; every other
    file as it was; the directory [by_country] and one directory for every
    country with a prefix in either family, and no other new directory;
    and on the standard output the two lines for the global files and
    nothing for the per-country files. *)
Theorem generateAllFiles_output :
  forall g o w,
    rangeOrder (ipv4 g) (country4 o) -> rangeOrder (ipv6 g) (country6 o) ->
    (forall fam4 code, is_Some (bucket fam4 g !! code) ->
       isValidCountryCode code = true) ->
    noFaults w ->
    let w' := snd (generateAllFiles g o w) in
    fst (generateAllFiles g o w) = None /\
    files w' !! "geoip_ipv4.nft" = Some (globalFile (ipv4 g) "ipv4" (global4 o)) /\
    files w' !! "geoip_ipv6.nft" = Some (globalFile (ipv6 g) "ipv6" (global6 o)) /\
    (forall fam4 code, index (bucket fam4 g) code <> [] ->
       files w' !! countryFileName code (ipTypeOf fam4) =
         Some (countryFile code (index (bucket fam4 g) code) (ipTypeOf fam4))) /\
    (forall n, n <> "geoip_ipv4.nft" -> n <> "geoip_ipv6.nft" ->
       (forall fam4 code, index (bucket fam4 g) code <> [] ->
          n <> countryFileName code (ipTypeOf fam4)) ->
       files w' !! n = files w !! n) /\
    (forall d, d ∈ dirs w' <->
       d ∈ dirs w \/ d = "by_country" \/
       exists fam4 code, index (bucket fam4 g) code <> [] /\ d = "by_country/" +:+ code) /\
    stdout w' = stdout w +:+ generatedLine "geoip_ipv4.nft" +:+
                  generatedLine "geoip_ipv6.nft".
Proof.
  intros g o w H4 H6 Hval Hw w'.
  destruct (generateAllFiles_country g o w H4 H6 Hval Hw) as [Hfiles Hdirs].
  destruct H4 as [_ Hk4], H6 as [_ Hk6].
  assert (Hv4 : forall c, c ∈ country4 o -> isValidCountryCode c = true).
  { intros c Hc. apply (Hval true). by apply Hk4. }
  assert (Hv6 : forall c, c ∈ country6 o -> isValidCountryCode c = true).
  { intros c Hc. apply (Hval false). by apply Hk6. }
  destruct (generateAllFiles_global g o w Hv4 Hv6 Hw) as [Hg4 Hg6].
  unfold w'. split_and!; [|exact Hg4|exact Hg6|exact Hfiles| |exact Hdirs|];
    rewrite (generateAllFiles_ok g o w Hv4 Hv6 Hw); cbn [fst snd].
  - done.
  - intros n Hn4 Hn6 Hnc.
    rewrite !foldl_afterCountry_files_ne.
    + rewrite files_printed, files_setFile_ne by done.
      rewrite files_printed, files_setFile_ne by done. apply (f_equal (.!! n)).
      apply files_withDir.
    + intros c _ Hne. by apply (Hnc true).
    + intros c _ Hne. by apply (Hnc false).
  - rewrite !foldl_afterCountry_stdout. apply stdout_base.
Qed.

(** X12: when nothing fails, the run of [generateAllFiles] does not depend
    on the four orders in which the [range] loops visit the bucket
    mappings: the error returned and the world left are the same for any
    two choices of the orders. *)
Theorem generateAllFiles_order_irrelevant :
  forall g o1 o2 w,
    rangeOrder (ipv4 g) (global4 o1) -> rangeOrder (ipv4 g) (global4 o2) ->
    rangeOrder (ipv6 g) (global6 o1) -> rangeOrder (ipv6 g) (global6 o2) ->
    rangeOrder (ipv4 g) (country4 o1) -> rangeOrder (ipv4 g) (country4 o2) ->
    rangeOrder (ipv6 g) (country6 o1) -> rangeOrder (ipv6 g) (country6 o2) ->
    (forall fam4 code, is_Some (bucket fam4 g !! code) ->
       isValidCountryCode code = true) ->
    noFaults w ->
    generateAllFiles g o1 w = generateAllFiles g o2 w.
Proof.
  intros g o1 o2 w Hg4 Hg4' Hg6 Hg6' Hc4 Hc4' Hc6 Hc6' Hval Hw.
  assert (Hv : forall fam4 order, rangeOrder (bucket fam4 g) order ->
            forall c, c ∈ order -> isValidCountryCode c = true).
  { intros fam4 order [_ Hk] c Hc. apply (Hval fam4). by apply Hk. }
  rewrite !generateAllFiles_ok by (first [by apply (Hv true)|by apply (Hv false)|done]).
  unfold globalFile.
  rewrite (sortStrings_Permutation (global4 o1) (global4 o2))
    by (by eapply rangeOrder_Permutation).
  rewrite (sortStrings_Permutation (global6 o1) (global6 o2))
    by (by eapply rangeOrder_Permutation).
  f_equal.
  rewrite (foldl_afterCountry_Permutation (ipv4 g) true (country4 o1) (country4 o2));
    [|by eapply rangeOrder_Permutation|by apply (Hv true)].
  apply foldl_afterCountry_Permutation;
    [by eapply rangeOrder_Permutation|by apply (Hv false)].
Qed.

(** X19: the per-country file and the global file agree.  When nothing
    fails, for every country and family with a prefix the global file of
    the family holds, between its header and its closing line and among
    the blocks of the other countries, the very set block that, between
    the same header and closing line, is the whole per-country file. *)
Theorem generateAllFiles_country_block_in_global :
  forall g o w fam4 code,
    rangeOrder (ipv4 g) (global4 o) -> rangeOrder (ipv6 g) (global6 o) ->
    rangeOrder (ipv4 g) (country4 o) -> rangeOrder (ipv6 g) (country6 o) ->
    (forall fam4 code, is_Some (bucket fam4 g !! code) ->
       isValidCountryCode code = true) ->
    noFaults w ->
    index (bucket fam4 g) code <> [] ->
    let w' := snd (generateAllFiles g o w) in
    let block := setBlock code (index (bucket fam4 g) code) (ipTypeOf fam4) in
    exists before after,
      files w' !! (if fam4 then "geoip_ipv4.nft" else "geoip_ipv6.nft") =
        Some (fileHeader +:+ (before +:+ block +:+ after) +:+ fileFooter) /\
      files w' !! countryFileName code (ipTypeOf fam4) =
        Some (fileHeader +:+ block +:+ fileFooter).
Proof.
  intros g o w fam4 code Hg4 Hg6 Hc4 Hc6 Hval Hw Hne w' block.
  destruct (generateAllFiles_country g o w Hc4 Hc6 Hval Hw) as [Hfiles _].
  assert (Hv : forall fam4 order, rangeOrder (bucket fam4 g) order ->
            forall c, c ∈ order -> isValidCountryCode c = true).
  { intros f order [_ Hk] c Hc. apply (Hval f). by apply Hk. }
  destruct (generateAllFiles_global g o w (Hv true _ Hc4) (Hv false _ Hc6) Hw)
    as [Hglob4 Hglob6].
  assert (Hsplit : forall (m : gmap string (list Prefix)) ipType (order : list string),
            rangeOrder m order -> index m code <> [] ->
            exists before after,
              globalFile m ipType order =
                fileHeader +:+
                (before +:+ setBlock code (index m code) ipType +:+ after) +:+
                fileFooter).
  { intros m ipType order [_ Hk] Hn.
    assert (Hin : code ∈ filter (fun c => index m c <> []) (sortStrings order)).
    { apply list_elem_of_filter. split; [done|].
      unfold sortStrings. rewrite merge_sort_Permutation. apply Hk.
      apply index_nonempty in Hn as (l & Hl & _). eauto. }
    apply list_elem_of_split in Hin as (l1 & l2 & Hl).
    exists (setBlocks m ipType l1), (setBlocks m ipType l2).
    unfold globalFile. rewrite Hl. do 2 f_equal.
    clear Hl. induction l1 as [|c l1 IH]; [done|].
    cbn [app setBlocks]. by rewrite IH, append_assoc. }
  unfold w', block. destruct fam4; unfold bucket in Hne |- *.
  - destruct (Hsplit (ipv4 g) "ipv4" (global4 o) Hg4 Hne) as (before & after & Hgf).
    exists before, after. split.
    + by rewrite Hglob4, Hgf.
    + apply (Hfiles true code Hne).
  - destruct (Hsplit (ipv6 g) "ipv6" (global6 o) Hg6 Hne) as (before & after & Hgf).
    exists before, after. split.
    + by rewrite Hglob6, Hgf.
    + apply (Hfiles false code Hne).
Qed.

End AllFiles.

(** *** The errors of the writer *)

Lemma generateGlobalFile_faults order countryMap filename ipType w :
  sameFaults w (snd (generateGlobalFile order countryMap filename ipType w)).
Proof.
  destruct (openErr w filename) as [e|] eqn:Ho.
  - unfold generateGlobalFile. by rewrite bind_run, (OpenFile_fail _ _ e).
  - by destruct (generateGlobalFile_written order countryMap filename ipType w Ho)
      as (_ & (_ & _ & Hs) & _).
Qed.

Lemma generateGlobalFile_error order countryMap filename ipType w msg :
  fst (generateGlobalFile order countryMap filename ipType w) = Some msg ->
  exists e, openErr w filename = Some e /\
            msg = "creating file " +:+ filename +:+ ": " +:+ e.
Proof.
  destruct (openErr w filename) as [e|] eqn:Ho.
  - unfold generateGlobalFile. rewrite bind_run, (OpenFile_fail _ _ e) by done.
    cbn [fst mret IO_ret]. intros [= <-]. by exists e.
  - destruct (generateGlobalFile_written order countryMap filename ipType w Ho)
      as (He & _).
    by rewrite He.
Qed.

Lemma generateCountryFile_faults code prefixes ipType w :
  sameFaults w (snd (generateCountryFile code prefixes ipType w)).
Proof.
  destruct (generateCountryFile_outcome code prefixes ipType w)
    as (Hnil & Hmk & Hop & Hok).
  destruct (MkdirAll_frame (filepathJoin "by_country" code) w)
    as (_ & _ & _ & Hs0 & _).
  destruct (decide (prefixes = [])) as [Hp|Hp]; [by rewrite (Hnil Hp)|].
  destruct (mkdirErr w (filepathJoin "by_country" code)) as [e|] eqn:Hm.
  { by rewrite (Hmk e Hp eq_refl). }
  match type of Hok with
  | _ -> _ -> openErr w ?f = None -> _ => destruct (openErr w f) as [e|] eqn:Ho
  end.
  { by rewrite (Hop e Hp eq_refl eq_refl). }
  destruct (Hok Hp eq_refl eq_refl) as (_ & (_ & _ & Hs) & _).
  by eapply sameFaults_trans.
Qed.

Lemma generateCountryFile_error code prefixes ipType w msg :
  fst (generateCountryFile code prefixes ipType w) = Some msg ->
  let dir := filepathJoin "by_country" code in
  let file := filepathJoin dir (code +:+ "_" +:+ ipType +:+ ".nft") in
  prefixes <> [] /\
  exists e,
    (mkdirErr w dir = Some e /\
     msg = "creating country directory " +:+ dir +:+ ": " +:+ e) \/
    (mkdirErr w dir = None /\ openErr w file = Some e /\
     msg = "creating file " +:+ file +:+ ": " +:+ e).
Proof.
  intros He dir file.
  destruct (generateCountryFile_outcome code prefixes ipType w)
    as (Hnil & Hmk & Hop & Hok).
  fold dir in Hmk, Hop, Hok. fold file in Hop, Hok.
  destruct (decide (prefixes = [])) as [Hp|Hp].
  { by rewrite (Hnil Hp) in He. }
  split; [done|].
  destruct (mkdirErr w dir) as [e|] eqn:Hm.
  { rewrite (Hmk e Hp eq_refl) in He. injection He as <-. exists e. by left. }
  destruct (openErr w file) as [e|] eqn:Ho.
  { rewrite (Hop e Hp eq_refl eq_refl) in He. injection He as <-. exists e. by right. }
  destruct (Hok Hp eq_refl eq_refl) as (He' & _). by rewrite He' in He.
Qed.

Lemma countryFilesLoop_faults countryMap ipType family order w :
  sameFaults w (snd (countryFilesLoop countryMap ipType family order w)).
Proof.
  revert w. induction order as [|code order IH]; intros w; [done|].
  cbn [countryFilesLoop]. rewrite bind_run.
  pose proof (generateCountryFile_faults code (index countryMap code) ipType w) as Hs.
  destruct (generateCountryFile _ _ _ w) as [[err|] w1]; cbn [snd] in Hs; [done|].
  eapply sameFaults_trans; [exact Hs|apply IH].
Qed.

Lemma countryFilesLoop_error w0 countryMap ipType family (order : list string) w msg :
  sameFaults w0 w ->
  fst (countryFilesLoop countryMap ipType family order w) = Some msg ->
  exists code, code ∈ order /\ index countryMap code <> [] /\
               countryFailure w0 family ipType code msg.
Proof.
  revert w. induction order as [|code order IH]; intros w Hs He; [done|].
  cbn [countryFilesLoop] in He. rewrite bind_run in He.
  pose proof (generateCountryFile_faults code (index countryMap code) ipType w) as Hs1.
  pose proof (generateCountryFile_error code (index countryMap code) ipType w) as Her.
  destruct (generateCountryFile _ _ _ w) as [[err|] w1]; cbn [fst snd] in *.
  - injection He as <-. destruct (Her err eq_refl) as (Hne & e & Hcase).
    exists code. split_and!; [by left|done|].
    destruct Hs as (Hsm & Hso & _). exists e.
    destruct Hcase as [[Hm ->]|(Hm & Ho & ->)].
    + left. split; [by rewrite <- Hsm|].
      cbv [String.append]. reflexivity.
    + right. split_and!; [by rewrite <- Hsm|by rewrite <- Hso|].
      cbv [String.append]. reflexivity.
  - destruct (IH w1) as (c & Hc & Hne & Hf); [by eapply sameFaults_trans|done|].
    exists c. split_and!; [by right|done..].
Qed.

(** X13: every error of [generateAllFiles] comes from [os.MkdirAll] or
    [os.OpenFile], never from a write.  If it returns an error, then the
    directory [by_country] could not be made, or a global file could not
    be opened, or for a country with a prefix the directory could not be
    made or the file could not be opened; and the message is the chain of
    the contexts down to the error of the operating system. *)
Theorem generateAllFiles_errors :
  forall g o w msg,
    fst (generateAllFiles g o w) = Some msg ->
    (exists e, mkdirErr w "by_country" = Some e /\
       msg = "creating by_country directory: " +:+ e) \/
    (exists e, openErr w "geoip_ipv4.nft" = Some e /\
       msg = "generating IPv4 global file: creating file geoip_ipv4.nft: " +:+ e) \/
    (exists e, openErr w "geoip_ipv6.nft" = Some e /\
       msg = "generating IPv6 global file: creating file geoip_ipv6.nft: " +:+ e) \/
    (exists fam4 code rest,
       code ∈ countryOrder fam4 o /\ index (bucket fam4 g) code <> [] /\
       countryFailure w (familyOf fam4) (ipTypeOf fam4) code rest /\
       msg = "generating country files: " +:+ rest).
Proof.
  intros g o w msg He. unfold generateAllFiles in He.
  rewrite bind_run, MkdirAll_by_country in He.
  destruct (mkdirErr w "by_country") as [e|] eqn:Hm.
  { injection He as <-. left. by exists e. }
  right. fold (withDir w "by_country") in He.
  assert (Hs0 : sameFaults w (withDir w "by_country")) by done.
  rewrite bind_run in He.
  pose proof (generateGlobalFile_faults (global4 o) (ipv4 g) "geoip_ipv4.nft" "ipv4"
                (withDir w "by_country")) as Hs1.
  pose proof (generateGlobalFile_error (global4 o) (ipv4 g) "geoip_ipv4.nft" "ipv4"
                (withDir w "by_country")) as Her1.
  destruct (generateGlobalFile _ _ _ _ (withDir w "by_country")) as [[err|] w1];
    cbn [fst snd] in *.
  { injection He as <-. destruct (Her1 err eq_refl) as (e & Ho & ->).
    left. exists e. split; [done|]. reflexivity. }
  right. clear Her1.
  assert (Hsw1 : sameFaults w w1) by (by eapply sameFaults_trans).
  rewrite bind_run in He.
  pose proof (generateGlobalFile_faults (global6 o) (ipv6 g) "geoip_ipv6.nft" "ipv6" w1)
    as Hs2.
  pose proof (generateGlobalFile_error (global6 o) (ipv6 g) "geoip_ipv6.nft" "ipv6" w1)
    as Her2.
  destruct (generateGlobalFile _ _ _ _ w1) as [[err|] w2]; cbn [fst snd] in *.
  { injection He as <-. destruct (Her2 err eq_refl) as (e & Ho & ->).
    left. exists e. split; [|reflexivity].
    destruct Hsw1 as (_ & Hso & _). by rewrite <- Hso. }
  right. clear Her2.
  assert (Hsw2 : sameFaults w w2) by (by eapply sameFaults_trans).
  rewrite bind_run in He. unfold generateCountryFiles in He. rewrite bind_run in He.
  pose proof (countryFilesLoop_faults (ipv4 g) "ipv4" "IPv4" (country4 o) w2) as Hs3.
  pose proof (countryFilesLoop_error w (ipv4 g) "ipv4" "IPv4" (country4 o) w2) as Her3.
  destruct (countryFilesLoop _ _ _ _ w2) as [[err|] w3]; cbn [fst snd] in *.
  { injection He as <-. destruct (Her3 err Hsw2 eq_refl) as (code & Hc & Hne & Hf).
    by exists true, code, err. }
  clear Her3.
  assert (Hsw3 : sameFaults w w3) by (by eapply sameFaults_trans).
  pose proof (countryFilesLoop_error w (ipv6 g) "ipv6" "IPv6" (country6 o) w3) as Her4.
  destruct (countryFilesLoop _ _ _ _ w3) as [[err|] w4]; cbn [fst snd] in *; [|done].
  injection He as <-. destruct (Her4 err Hsw3 eq_refl) as (code & Hc & Hne & Hf).
  by exists false, code, err.
Qed.

(** X14: a failure in the middle of [generateAllFiles] leaves what was
    written before it.  When the IPv6 global file cannot be opened, the
    run ends with that error; the directory [by_country] and the IPv4
    global file exist; no other file has changed and no per-country
    directory was made. *)
Theorem generateAllFiles_stops_at_ipv6 :
  forall g o w e,
    mkdirErr w "by_country" = None ->
    openErr w "geoip_ipv4.nft" = None ->
    openErr w "geoip_ipv6.nft" = Some e ->
    let r := generateAllFiles g o w in
    fst r = Some ("generating IPv6 global file: creating file geoip_ipv6.nft: " +:+ e) /\
    dirs (snd r) = {["by_country"]} ∪ dirs w /\
    is_Some (files (snd r) !! "geoip_ipv4.nft") /\
    forall n, n <> "geoip_ipv4.nft" -> files (snd r) !! n = files w !! n.
Proof.
  intros g o w e Hm Ho4 Ho6 r. unfold r, generateAllFiles.
  rewrite bind_run, MkdirAll_by_country, Hm.
  rewrite bind_run.
  destruct (generateGlobalFile_written (global4 o) (ipv4 g) "geoip_ipv4.nft" "ipv4"
              (withDir w "by_country") Ho4) as (He & (Hf & Hd & (_ & Hso & _)) & Hex).
  destruct (generateGlobalFile _ _ _ _ (withDir w "by_country")) as [err w1].
  cbn [fst snd] in *. subst err.
  rewrite bind_run. unfold generateGlobalFile. rewrite bind_run.
  rewrite (OpenFile_fail _ _ e) by (by rewrite Hso).
  cbn [fst snd mret IO_ret]. split_and!.
  - reflexivity.
  - by rewrite Hd.
  - done.
  - intros n Hn. by rewrite Hf.
Qed.

Lemma writeNFTSet_fail f code prefixes ipType w e :
  writeErr w f = Some e -> writeNFTSet f code prefixes ipType w = (None, w).
Proof.
  intros Hw. unfold writeNFTSet, Fprintln.
  do 7 (rewrite bind_run, (Fprint_fail _ _ _ e) by done). done.
Qed.

Lemma writeSets_fail f countryMap ipType codes w e :
  writeErr w f = Some e -> writeSets f countryMap ipType codes w = (None, w).
Proof.
  intros Hw. induction codes as [|code codes IH]; [done|].
  cbn [writeSets]. case_bool_decide; [done|].
  by rewrite bind_run, (writeNFTSet_fail _ _ _ _ _ e).
Qed.

(** X18: a global file whose writes all fail.  When the file can be opened
    but no write to it succeeds, [generateGlobalFile] still returns no
    error and still prints the line that the file was generated; the file
    is left empty, whatever it held before. *)
Theorem generateGlobalFile_failed_writes :
  forall order countryMap filename ipType w e,
    openErr w filename = None -> writeErr w filename = Some e ->
    generateGlobalFile order countryMap filename ipType w =
      (None, printed (setFile w filename "") (generatedLine filename)).
Proof.
  intros order countryMap filename ipType w e Ho Hw.
  assert (Hw' : writeErr (setFile w filename "") filename = Some e) by done.
  unfold generateGlobalFile, Fprintln.
  rewrite bind_run, OpenFile_ok by done.
  do 2 (rewrite bind_run, (Fprint_fail _ _ _ e) by done).
  rewrite bind_run, (writeSets_fail _ _ _ _ _ e) by done.
  rewrite bind_run, (Fprint_fail _ _ _ e) by done.
  done.
Qed.

(** *** The download and the run *)

Lemma extractMMDBFromTar_length tr mmdbData :
  extractMMDBFromTar tr = Ok mmdbData -> len mmdbData <= maxDownloadSize.
Proof.
  induction tr as [|e|hdr data readErr next IH]; [done..|].
  cbn [extractMMDBFromTar].
  destruct (negb (isValidTarPath (Name hdr))); [done|].
  destruct (HasSuffix (Name hdr) ".mmdb"); [|done].
  destruct (Z.ltb_spec maxDownloadSize (Size hdr)) as [|Hmax]; [done|].
  destruct (readAllLimited data readErr (Size hdr)) as [d|e] eqn:Hread; [|done].
  intros [= <-]. apply readAllLimited_ok in Hread as [Hlen _].
  assert (0 <= maxDownloadSize) by done. lia.
Qed.

Section Download.
Context {transport : HTTP}.

(** X15: [downloadAndExtractMMDB] returns data only for a request that
    could be made and a response with the status 200 whose body could be
    opened as a gzip stream; the data is what [extractMMDBFromTar] returns
    for that stream, and is never longer than the size ceiling.  A
    response with another status gives the error [HTTP status N] whatever
    its body is. *)
Theorem downloadAndExtractMMDB_only_200 :
  forall url,
    (forall mmdbData, downloadAndExtractMMDB url = Ok mmdbData ->
       newRequestErr url = None /\
       exists resp gz,
         clientDo url = Ok resp /\ StatusCode resp = 200 /\ Body resp = Ok gz /\
         extractMMDBFromTar gz = Ok mmdbData /\ len mmdbData <= maxDownloadSize) /\
    (forall resp, newRequestErr url = None -> clientDo url = Ok resp ->
       StatusCode resp <> 200 ->
       downloadAndExtractMMDB url = Err ("HTTP status " +:+ Itoa (StatusCode resp))).
Proof.
  intros url. unfold downloadAndExtractMMDB, StatusOK. split.
  - intros mmdbData.
    destruct (newRequestErr url) as [e|]; [done|].
    destruct (clientDo url) as [resp|e]; [|done].
    destruct (Z.eqb_spec (StatusCode resp) 200) as [Hs|Hs]; [|done].
    cbn [negb]. destruct (Body resp) as [gz|e] eqn:Hb; [|done].
    intros Hx. split; [done|]. exists resp, gz.
    split_and!; [done..|]. by eapply extractMMDBFromTar_length.
  - intros resp -> -> Hs.
    by destruct (Z.eqb_spec (StatusCode resp) 200).
Qed.

Section Run.
Context {tables : UnicodeTables} {database : MaxMindDB}.

(** X16: [run] touches nothing before it has the data.  If the world
    after [run] differs from the world before, in a file, a directory or
    the standard output, then the download and the extraction gave the
    bytes of a database and the decoder opened them. *)
Theorem run_touches_nothing_without_data :
  forall g o w,
    snd (run g o w) <> w ->
    exists mmdbData networks,
      downloadAndExtractMMDB url = Ok mmdbData /\
      maxminddbNetworks mmdbData = Ok networks.
Proof.
  intros g o w Hne. unfold run, loadGeoIPData in Hne.
  destruct (downloadAndExtractMMDB url) as [mmdbData|e]; [|done].
  destruct (maxminddbNetworks mmdbData) as [networks|e] eqn:Hnet; [|done].
  by exists mmdbData, networks.
Qed.

(** X17: the whole program on a fresh generator, when the download, the
    extraction and the decoder succeed and the file system does not fail.
    [run] returns no error; for every country code and family for which
    the decoder yielded a pair that the aggregator takes, the file
    [by_country/CODE/CODE_TYPE.nft] holds the set block with the prefixes
    of those pairs in the order of the decoder; and the directories made
    are [by_country] and the ones of those countries. *)
Theorem run_output :
  forall o w mmdbData networks,
    downloadAndExtractMMDB url = Ok mmdbData ->
    maxminddbNetworks mmdbData = Ok networks ->
    rangeOrder (ipv4 (loadNetworks newGeoIPGenerator networks)) (country4 o) ->
    rangeOrder (ipv6 (loadNetworks newGeoIPGenerator networks)) (country6 o) ->
    noFaults w ->
    let r := run newGeoIPGenerator o w in
    fst r = None /\
    (forall fam4 code, yielded fam4 code networks <> [] ->
       files (snd r) !! countryFileName code (ipTypeOf fam4) =
         Some (countryFile code (yielded fam4 code networks) (ipTypeOf fam4))) /\
    (forall d, d ∈ dirs (snd r) <->
       d ∈ dirs w \/ d = "by_country" \/
       exists fam4 code, yielded fam4 code networks <> [] /\ d = "by_country/" +:+ code).
Proof.
  intros o w mmdbData networks Hdl Hnet H4 H6 Hw r.
  set (g := loadNetworks newGeoIPGenerator networks) in *.
  assert (Hidx : forall fam4 code,
            index (bucket fam4 g) code = yielded fam4 code networks).
  { intros [|] code; unfold bucket, g.
    - by rewrite loadNetworks_index4.
    - by rewrite loadNetworks_index6. }
  assert (Hval : forall fam4 code, is_Some (bucket fam4 g !! code) ->
            isValidCountryCode code = true).
  { destruct (loadNetworks_bucketsOk networks newGeoIPGenerator) as [Hb4 Hb6].
    { split; apply bucketsOk_empty. }
    intros [|] code [l Hl]; unfold bucket in Hl.
    - by apply (Hb4 code l).
    - by apply (Hb6 code l). }
  assert (Hrun : r = match generateAllFiles g o w with
                     | (Some err, w') => (Some ("failed to generate files: " +:+ err), w')
                     | (None, w') => (None, w')
                     end).
  { unfold r, run, loadGeoIPData. rewrite Hdl, Hnet. rewrite bind_run. fold g.
    by destruct (generateAllFiles g o w) as [[err|] w']. }
  destruct (generateAllFiles_country g o w H4 H6 Hval Hw) as [Hfiles Hdirs].
  assert (He : fst (generateAllFiles g o w) = None).
  { apply generateAllFiles_write_errors_dropped; apply Hw. }
  rewrite Hrun. destruct (generateAllFiles g o w) as [err w']. cbn [fst snd] in *.
  subst err. cbn [fst snd]. split_and!.
  - done.
  - intros fam4 code Hy. rewrite <- Hidx in Hy |- *. by apply Hfiles.
  - intros d. rewrite Hdirs. split.
    + intros [?|[?|(fam4 & code & Hn & ->)]]; [by left|by right; left|].
      right. right. exists fam4, code. by rewrite <- Hidx.
    + intros [?|[?|(fam4 & code & Hn & ->)]]; [by left|by right; left|].
      right. right. exists fam4, code. by rewrite Hidx.
Qed.

End Run.

End Download.

(** ** The theorems at concrete inputs *)

Lemma rangeOrder_of_dom (m : gmap string (list Prefix)) (order : list string) :
  NoDup order -> list_to_set order = dom m -> rangeOrder m order.
Proof.
  intros Hnd Hdom. split; [done|]. intros code.
  by rewrite <-elem_of_dom, <-Hdom, elem_of_list_to_set.
Qed.

Lemma exampleGenerator_valid fam4 code :
  is_Some (bucket fam4 exampleGenerator !! code) ->
  @isValidCountryCode plainTables code = true.
Proof.
  intros [l Hl].
  by destruct (@loadGeoIPData_bucketsOk plainTables exampleDB "" fam4 code l Hl).
Qed.

Lemma isValidCountryCode_two_upper_witness :
  (len "USA" <> 2 /\ @isValidCountryCode plainTables "USA" = false) /\
  ("s"%char ∈ String.list_ascii_of_string "Us" /\ ~ (65 <= byteval "s" <= 90) /\
   @isValidCountryCode plainTables "Us" = false).
Proof.
  destruct (@isValidCountryCode_two_upper plainTables) as (_ & _ & _ & Hlen & Hbyte).
  assert (H1 : len "USA" <> 2) by (vm_compute; discriminate).
  assert (H2 : "s"%char ∈ String.list_ascii_of_string "Us")
    by (simpl; right; left).
  assert (H3 : ~ (65 <= byteval "s" <= 90)) by (vm_compute; intros [_ H]; by apply H).
  split_and!; [exact H1|exact (Hlen "USA" H1)|exact H2|exact H3
              |exact (Hbyte "Us" "s"%char H2 H3)].
Defined.

Lemma loadGeoIPData_buckets_witness :
  (@loadResult plainTables newGeoIPGenerator (network "us" (prefix4 4 5 6 0 24)) =
     newGeoIPGenerator) /\
  (ipv4 (@loadResult plainTables newGeoIPGenerator (network "US" (prefix4 1 2 3 0 24)))
     !! "US" = Some [prefix4 1 2 3 0 24]) /\
  (ipv4 exampleGenerator !! "US" = Some [prefix4 1 2 3 0 24; prefix4 1 2 3 0 24] /\
   ipv6 exampleGenerator !! "US" = Some [prefix6 0x20010db800000000 0 32] /\
   ipv4 exampleGenerator !! "us" = None).
Proof.
  destruct (@loadGeoIPData_buckets plainTables exampleDB) as (Hskip & Happ & _ & Hall).
  split_and!.
  - apply (Hskip _ _ {| Country := {| ISOCode := "us" |} |}); [reflexivity|].
    right. vm_compute. reflexivity.
  - rewrite (Happ _ _ {| Country := {| ISOCode := "US" |} |});
      [|reflexivity|vm_compute; reflexivity].
    vm_compute. reflexivity.
  - destruct (Hall "" exampleNetworks "US" eq_refl) as [H4 _]. exact H4.
  - destruct (Hall "" exampleNetworks "US" eq_refl) as [_ H6]. exact H6.
  - destruct (Hall "" exampleNetworks "us" eq_refl) as [H4 _]. exact H4.
Defined.

Lemma exampleOrder4 : rangeOrder (ipv4 exampleGenerator) ["US"; "DE"].
Proof.
  apply rangeOrder_of_dom.
  - apply (bool_decide_unpack _). vm_compute. exact I.
  - vm_compute. reflexivity.
Defined.

Lemma exampleOrder6 : rangeOrder (ipv6 exampleGenerator) ["US"].
Proof.
  apply rangeOrder_of_dom.
  - apply (bool_decide_unpack _). vm_compute. exact I.
  - vm_compute. reflexivity.
Defined.

Lemma generateGlobalFile_content_witness :
  rangeOrder (ipv4 exampleGenerator) ["US"; "DE"] /\
  openErr quietWorld "geoip_ipv4.nft" = None /\
  writeErr quietWorld "geoip_ipv4.nft" = None /\
  exists codes,
    fst (generateGlobalFile ["US"; "DE"] (ipv4 exampleGenerator)
           "geoip_ipv4.nft" "ipv4" quietWorld) = None /\
    files (snd (generateGlobalFile ["US"; "DE"] (ipv4 exampleGenerator)
                  "geoip_ipv4.nft" "ipv4" quietWorld)) !! "geoip_ipv4.nft" =
      Some (fileHeader +:+ setBlocks (ipv4 exampleGenerator) "ipv4" codes +:+ fileFooter) /\
    StronglySorted String.le codes /\ NoDup codes /\
    (forall code, code ∈ codes <->
       exists l, ipv4 exampleGenerator !! code = Some l /\ l <> []).
Proof.
  split_and!; [exact exampleOrder4|reflexivity|reflexivity|].
  exact (generateGlobalFile_content ["US"; "DE"] (ipv4 exampleGenerator)
           "geoip_ipv4.nft" "ipv4" quietWorld exampleOrder4 eq_refl eq_refl).
Defined.

Lemma isValidTarPath_rejects_accepts_witness :
  (HasPrefix "/etc/GeoLite2-Country.mmdb" "/" = true /\
   isValidTarPath "/etc/GeoLite2-Country.mmdb" = false) /\
  (HasPrefix "a/../../evil.mmdb" "/" = false /\ remaining "a/../../evil.mmdb" = None /\
   isValidTarPath "a/../../evil.mmdb" = false) /\
  (remaining "x/./foo.mmdb" = Some [bytes "x"; bytes "foo.mmdb"] /\
   isValidTarPath "x/./foo.mmdb" = true) /\
  (remaining "a..b/../c.mmdb" = Some [bytes "c.mmdb"] /\
   isValidTarPath "a..b/../c.mmdb" = true) /\
  (remaining "dir/a\b.mmdb" = Some [bytes "dir"; bytes "a\b.mmdb"] /\
   isValidTarPath "dir/a\b.mmdb" = true) /\
  (remaining "x/a..b.mmdb" = Some [bytes "x"; bytes "a..b.mmdb"] /\
   isValidTarPath "x/a..b.mmdb" = false) /\
  (remaining "\x/../\y.mmdb" = Some [bytes "\y.mmdb"] /\
   isValidTarPath "\x/../\y.mmdb" = false) /\
  (isValidTarPath (Name {| Name := "../evil.mmdb"; Size := 4 |}) = false /\
   extractMMDBFromTar (TarEntry {| Name := "../evil.mmdb"; Size := 4 |} "evil" None TarEOF) =
     extractMMDBFromTar TarEOF).
Proof.
  destruct isValidTarPath_rejects_accepts as (Hroot & Hsegs & Hskip).
  assert (Hevil : isValidTarPath (Name {| Name := "../evil.mmdb"; Size := 4 |}) = false)
    by (vm_compute; reflexivity).
  split_and!.
  - reflexivity.
  - exact (Hroot "/etc/GeoLite2-Country.mmdb" eq_refl).
  - reflexivity.
  - reflexivity.
  - exact (eq_trans (Hsegs "a/../../evil.mmdb" eq_refl) eq_refl).
  - reflexivity.
  - exact (eq_trans (Hsegs "x/./foo.mmdb" eq_refl) eq_refl).
  - reflexivity.
  - exact (eq_trans (Hsegs "a..b/../c.mmdb" eq_refl) eq_refl).
  - reflexivity.
  - exact (eq_trans (Hsegs "dir/a\b.mmdb" eq_refl) eq_refl).
  - reflexivity.
  - exact (eq_trans (Hsegs "x/a..b.mmdb" eq_refl) eq_refl).
  - reflexivity.
  - exact (eq_trans (Hsegs "\x/../\y.mmdb" eq_refl) eq_refl).
  - exact Hevil.
  - exact (Hskip _ "evil" None TarEOF Hevil).
Defined.

(** C3 as it is stated fails in both directions: a path with a [..]
    segment that an earlier segment cancels passes the check, and a
    relative path that does not climb out fails it when a name has two
    dots inside or when the path begins with a backslash. *)
Lemma isValidTarPath_counterexample :
  (hasParentSegment "a/../b.mmdb" = true /\ isValidTarPath "a/../b.mmdb" = true) /\
  (HasPrefix "a..b.mmdb" "/" = false /\ hasParentSegment "a..b.mmdb" = false /\
   escapes "a..b.mmdb" = false /\ isValidTarPath "a..b.mmdb" = false) /\
  (HasPrefix "\x.mmdb" "/" = false /\ hasParentSegment "\x.mmdb" = false /\
   escapes "\x.mmdb" = false /\ isValidTarPath "\x.mmdb" = false).
Proof. vm_compute. by split_and!. Qed.

Lemma extract_first_match_witness :
  let readme := {| entryHeader := {| Name := "x/README.txt"; Size := 2 |};
                   entryData := "hi"; entryReadErr := None |} in
  let evil := {| entryHeader := {| Name := "../first.mmdb"; Size := 4 |};
                 entryData := "evil"; entryReadErr := None |} in
  let hdr := {| Name := "x/foo.mmdb"; Size := 3 |} in
  let later := TarEntry {| Name := "y/bar.mmdb"; Size := 5 |} "other" None TarEOF in
  Forall (fun e => qualifies (entryHeader e) = false) [readme; evil] /\
  qualifies hdr = true /\ Size hdr <= maxDownloadSize /\ 0 <= Size hdr <= len "abcdef" /\
  extractMMDBFromTar (entries [readme; evil] (TarEntry hdr "abcdef" None later)) = Ok "abc" /\
  extractMMDBFromTar (entries [readme; evil] (TarEntry hdr "ab" None later)) = Ok "ab" /\
  extractMMDBFromTar (entries [readme; evil] TarEOF) = Err notFound.
Proof.
  intros readme evil hdr later.
  destruct extract_first_match as (Hfirst & Hnone & _).
  assert (Hes : Forall (fun e => qualifies (entryHeader e) = false) [readme; evil]).
  { repeat constructor. }
  assert (Hq : qualifies hdr = true) by (vm_compute; reflexivity).
  assert (Hmax : Size hdr <= maxDownloadSize) by (vm_compute; discriminate).
  assert (Hlen : 0 <= Size hdr <= len "abcdef") by (vm_compute; split; discriminate).
  assert (Hshort : len "ab" < Size hdr) by (vm_compute; reflexivity).
  refine (conj Hes (conj Hq (conj Hmax (conj Hlen (conj _ (conj _ (Hnone _ Hes))))))).
  - destruct (Hfirst [readme; evil] hdr "abcdef" None later Hes Hq Hmax)
      as (_ & Hexact & _).
    exact (proj1 (Hexact Hlen)).
  - destruct (Hfirst [readme; evil] hdr "ab" None later Hes Hq Hmax)
      as (_ & _ & _ & Hfew).
    exact (Hfew Hshort eq_refl).
Defined.

(** C4 as it is stated fails: a qualifying entry that delivers fewer bytes
    than its header declares (an entry of a header-only type, a symbolic
    link say, keeps the declared size and delivers none) is read without
    an error, and extraction returns what was delivered, not the declared
    number of bytes. *)
Lemma extract_first_match_counterexample :
  let hdr := {| Name := "x/foo.mmdb"; Size := 5 |} in
  qualifies hdr = true /\ Size hdr <= maxDownloadSize /\
  extractMMDBFromTar (TarEntry hdr "" None TarEOF) = Ok "" /\
  len "" <> Size hdr.
Proof. vm_compute. by split_and!. Qed.

Lemma extract_too_large_witness :
  let readme := {| entryHeader := {| Name := "x/README.txt"; Size := 2 |};
                   entryData := "hi"; entryReadErr := None |} in
  let hdr := {| Name := "x/foo.mmdb"; Size := maxDownloadSize + 1 |} in
  Forall (fun e => qualifies (entryHeader e) = false) [readme] /\
  isValidTarPath (Name hdr) = true /\ HasSuffix (Name hdr) ".mmdb" = true /\
  maxDownloadSize < Size hdr /\
  extractMMDBFromTar (entries [readme] (TarEntry hdr "abc" None TarEOF)) =
    Err "MMDB file too large: 1073741825 bytes" /\
  extractMMDBFromTar (entries [readme] (TarEntry hdr "" (Some "unexpected EOF")
                                         (TarError "broken"))) =
    extractMMDBFromTar (entries [readme] (TarEntry hdr "abc" None TarEOF)).
Proof.
  intros readme hdr.
  assert (Hes : Forall (fun e => qualifies (entryHeader e) = false) [readme]).
  { repeat constructor. }
  assert (Hp : isValidTarPath (Name hdr) = true) by (vm_compute; reflexivity).
  assert (Hs : HasSuffix (Name hdr) ".mmdb" = true) by (vm_compute; reflexivity).
  assert (Hsize : maxDownloadSize < Size hdr) by (vm_compute; reflexivity).
  split_and!; [exact Hes|exact Hp|exact Hs|exact Hsize|..].
  - exact (proj1 (extract_too_large [readme] hdr "abc" None TarEOF
                    "" (Some "unexpected EOF") (TarError "broken") Hes Hp Hs Hsize)).
  - exact (proj2 (extract_too_large [readme] hdr "abc" None TarEOF
                    "" (Some "unexpected EOF") (TarError "broken") Hes Hp Hs Hsize)).
Defined.

(** C8 as it is stated fails: an oversized entry with the suffix that does
    not pass the path-safety check is passed over, and one that follows
    the first qualifying entry is never reached; extraction succeeds. *)
Lemma extract_too_large_counterexample :
  let big := {| Name := "../GeoLite2-Country.mmdb"; Size := maxDownloadSize + 1 |} in
  let big' := {| Name := "y/GeoLite2-Country.mmdb"; Size := maxDownloadSize + 1 |} in
  let good := {| Name := "x/foo.mmdb"; Size := 3 |} in
  (HasSuffix (Name big) ".mmdb" = true /\ maxDownloadSize < Size big /\
   extractMMDBFromTar (TarEntry big "" None (TarEntry good "abc" None TarEOF)) = Ok "abc") /\
  (HasSuffix (Name big') ".mmdb" = true /\ maxDownloadSize < Size big' /\
   extractMMDBFromTar (TarEntry good "abc" None (TarEntry big' "" None TarEOF)) = Ok "abc").
Proof. vm_compute. by split_and!. Qed.

Lemma quietWorld_noFaults : noFaults quietWorld.
Proof. split_and!; intros p; reflexivity. Defined.

Lemma generateCountryFiles_files_witness :
  rangeOrder (ipv4 exampleGenerator) ["US"; "DE"] /\
  rangeOrder (ipv6 exampleGenerator) ["US"] /\
  (forall fam4 code, is_Some (bucket fam4 exampleGenerator !! code) ->
     @isValidCountryCode plainTables code = true) /\
  noFaults quietWorld /\
  fst (generateCountryFiles exampleGenerator ["US"; "DE"] ["US"] quietWorld) = None /\
  files (snd (generateCountryFiles exampleGenerator ["US"; "DE"] ["US"] quietWorld))
    !! "by_country/DE/DE_ipv4.nft" =
    Some (countryFile "DE" [prefix4 9 9 9 0 24] "ipv4") /\
  files (snd (generateCountryFiles exampleGenerator ["US"; "DE"] ["US"] quietWorld))
    !! "by_country/DE/DE_ipv6.nft" = None.
Proof.
  pose proof (@generateCountryFiles_files plainTables exampleGenerator
                ["US"; "DE"] ["US"] quietWorld exampleOrder4 exampleOrder6
                exampleGenerator_valid quietWorld_noFaults) as [Herr Hfiles].
  refine (conj exampleOrder4 (conj exampleOrder6 (conj exampleGenerator_valid
           (conj quietWorld_noFaults (conj Herr (conj _ _)))))).
  - exact (Hfiles "DE" true eq_refl).
  - exact (Hfiles "DE" false eq_refl).
Defined.

(** C7 at a failing input: every write to the output files fails (the
    disk is full), and [generateAllFiles] still returns [nil], leaving the
    five files it has created empty and reporting the global files as
    generated. *)
Lemma generateAllFiles_ignores_write_failure :
  (forall f s, fst (Fprint f s fullDiskWorld) = Some "no space left on device") /\
  fst (generateAllFiles exampleGenerator exampleOrders fullDiskWorld) = None /\
  files (snd (generateAllFiles exampleGenerator exampleOrders fullDiskWorld))
    !! "geoip_ipv4.nft" = Some "" /\
  files (snd (generateAllFiles exampleGenerator exampleOrders fullDiskWorld))
    !! "by_country/US/US_ipv4.nft" = Some "".
Proof. split; [by intros f s|]. vm_compute. by split_and!. Qed.

Lemma setBlock_roundtrip_witness :
  let w := setFile quietWorld "geoip_ipv4.nft" fileHeader in
  lacks lineFeed "US" = true /\ lacks lineFeed "ipv4" = true /\
  writeErr w "geoip_ipv4.nft" = None /\
  files w !! "geoip_ipv4.nft" = Some fileHeader /\
  exists text,
    files (snd (writeNFTSet "geoip_ipv4.nft" "US"
                  [prefix4 1 2 3 0 24; prefix6 0x20010db800000000 0 32] "ipv4" w))
      !! "geoip_ipv4.nft" = Some (fileHeader +:+ text) /\
    readSetBlock text =
      Some ("US", "ipv4", ["1.2.3.0/24"; "2001:db8::/32"]).
Proof.
  intros w.
  assert (Hf : files w !! "geoip_ipv4.nft" = Some fileHeader) by apply setFile_lookup.
  refine (conj eq_refl (conj eq_refl (conj eq_refl (conj Hf _)))).
  exact (setBlock_roundtrip "geoip_ipv4.nft" "US" "ipv4"
           [prefix4 1 2 3 0 24; prefix6 0x20010db800000000 0 32] w fileHeader
           eq_refl eq_refl eq_refl Hf).
Defined.

Lemma aggregated_buckets_ok_witness :
  let m := ipv4 exampleGenerator in
  m !! "US" = Some [prefix4 1 2 3 0 24; prefix4 1 2 3 0 24] /\
  (@isValidCountryCode plainTables "US" = true /\ matchesTwoUpper "US" = true /\
   [prefix4 1 2 3 0 24; prefix4 1 2 3 0 24] <> []) /\
  is_Some (m !! "DE") /\
  bool_decide (length (index m "DE") = 0%nat) = false /\
  rangeOrder m ["US"; "DE"] /\
  filter (fun code => index m code <> []) (sortStrings ["US"; "DE"]) =
    sortStrings ["US"; "DE"].
Proof.
  intros m.
  pose proof (@aggregated_buckets_ok plainTables exampleDB "" true) as (Hkey & Hskip & Hall).
  assert (Hus : m !! "US" = Some [prefix4 1 2 3 0 24; prefix4 1 2 3 0 24])
    by (vm_compute; reflexivity).
  assert (Hde : is_Some (m !! "DE")).
  { exists [prefix4 9 9 9 0 24]. vm_compute. reflexivity. }
  refine (conj Hus (conj (Hkey "US" _ Hus) (conj Hde (conj (Hskip "DE" Hde)
           (conj exampleOrder4 (Hall ["US"; "DE"] exampleOrder4)))))).
Defined.

Lemma exampleOrder4' : rangeOrder (ipv4 exampleGenerator) ["DE"; "US"].
Proof.
  apply rangeOrder_of_dom.
  - apply (bool_decide_unpack _). vm_compute. exact I.
  - vm_compute. reflexivity.
Defined.

Lemma extract_ok_bounded_witness :
  let tr := TarEntry {| Name := "x/README.txt"; Size := 2 |} "hi" None
              (TarEntry {| Name := "x/foo.mmdb"; Size := 3 |} "abcdef" None TarEOF) in
  extractMMDBFromTar tr = Ok "abc" /\
  len "abc" <= maxDownloadSize /\
  exists es hdr data readErr next rest,
    tr = entries es (TarEntry hdr data readErr next) /\
    Forall (fun e => qualifies (entryHeader e) = false) es /\
    isValidTarPath (Name hdr) = true /\ HasSuffix (Name hdr) ".mmdb" = true /\
    len "abc" <= Z.max 0 (Size hdr) /\
    data = "abc" +:+ rest.
Proof.
  intros tr.
  assert (H : extractMMDBFromTar tr = Ok "abc") by (vm_compute; reflexivity).
  exact (conj H (extract_ok_bounded tr "abc" H)).
Defined.

Lemma generateGlobalFile_order_irrelevant_witness :
  rangeOrder (ipv4 exampleGenerator) ["US"; "DE"] /\
  rangeOrder (ipv4 exampleGenerator) ["DE"; "US"] /\
  generateGlobalFile ["US"; "DE"] (ipv4 exampleGenerator) "geoip_ipv4.nft" "ipv4"
    fullDiskWorld =
  generateGlobalFile ["DE"; "US"] (ipv4 exampleGenerator) "geoip_ipv4.nft" "ipv4"
    fullDiskWorld.
Proof.
  exact (conj exampleOrder4 (conj exampleOrder4'
    (generateGlobalFile_order_irrelevant (ipv4 exampleGenerator) ["US"; "DE"]
       ["DE"; "US"] "geoip_ipv4.nft" "ipv4" fullDiskWorld exampleOrder4 exampleOrder4'))).
Defined.

Lemma generateGlobalFile_touches_only_witness :
  let w := setFile fullDiskWorld "rules.nft" "flush ruleset" in
  "rules.nft" <> "geoip_ipv4.nft" /\
  files (snd (generateGlobalFile ["US"; "DE"] (ipv4 exampleGenerator)
                "geoip_ipv4.nft" "ipv4" w)) !! "rules.nft" = files w !! "rules.nft" /\
  dirs (snd (generateGlobalFile ["US"; "DE"] (ipv4 exampleGenerator)
               "geoip_ipv4.nft" "ipv4" w)) = dirs w.
Proof.
  intros w.
  assert (Hn : "rules.nft" <> "geoip_ipv4.nft") by discriminate.
  exact (conj Hn (generateGlobalFile_touches_only ["US"; "DE"] (ipv4 exampleGenerator)
                    "geoip_ipv4.nft" "ipv4" w "rules.nft" Hn)).
Defined.

Lemma generateGlobalFile_idempotent_witness :
  openErr quietWorld "geoip_ipv4.nft" = None /\
  writeErr quietWorld "geoip_ipv4.nft" = None /\
  let w1 := snd (generateGlobalFile ["US"; "DE"] (ipv4 exampleGenerator)
                   "geoip_ipv4.nft" "ipv4" quietWorld) in
  let w2 := snd (generateGlobalFile ["US"; "DE"] (ipv4 exampleGenerator)
                   "geoip_ipv4.nft" "ipv4" w1) in
  files w2 = files w1 /\ dirs w2 = dirs w1 /\
  files (snd (generateGlobalFile ["US"; "DE"] (ipv4 exampleGenerator)
                "geoip_ipv4.nft" "ipv4"
                (setFile quietWorld "geoip_ipv4.nft" "stale"))) !! "geoip_ipv4.nft" =
    files w1 !! "geoip_ipv4.nft".
Proof.
  exact (conj eq_refl (conj eq_refl
    (generateGlobalFile_idempotent ["US"; "DE"] (ipv4 exampleGenerator)
       "geoip_ipv4.nft" "ipv4" quietWorld "stale" eq_refl eq_refl))).
Defined.

Lemma generateCountryFiles_order_irrelevant_witness :
  rangeOrder (ipv4 exampleGenerator) ["US"; "DE"] /\
  rangeOrder (ipv4 exampleGenerator) ["DE"; "US"] /\
  rangeOrder (ipv6 exampleGenerator) ["US"] /\
  noFaults quietWorld /\
  generateCountryFiles exampleGenerator ["US"; "DE"] ["US"] quietWorld =
  generateCountryFiles exampleGenerator ["DE"; "US"] ["US"] quietWorld.
Proof.
  exact (conj exampleOrder4 (conj exampleOrder4' (conj exampleOrder6
    (conj quietWorld_noFaults
      (@generateCountryFiles_order_irrelevant plainTables exampleGenerator
         ["US"; "DE"] ["US"] ["DE"; "US"] ["US"] quietWorld
         exampleOrder4 exampleOrder4' exampleOrder6 exampleOrder6
         exampleGenerator_valid quietWorld_noFaults))))).
Defined.

Lemma generateAllFiles_output_witness :
  rangeOrder (ipv4 exampleGenerator) (country4 exampleOrders) /\
  rangeOrder (ipv6 exampleGenerator) (country6 exampleOrders) /\
  noFaults quietWorld /\
  files (snd (generateAllFiles exampleGenerator exampleOrders quietWorld))
    !! "geoip_ipv6.nft" =
    Some (globalFile (ipv6 exampleGenerator) "ipv6" ["US"]) /\
  stdout (snd (generateAllFiles exampleGenerator exampleOrders quietWorld)) =
    "" +:+ generatedLine "geoip_ipv4.nft" +:+ generatedLine "geoip_ipv6.nft".
Proof.
  pose proof (@generateAllFiles_output plainTables exampleGenerator exampleOrders
                quietWorld exampleOrder4' exampleOrder6 exampleGenerator_valid
                quietWorld_noFaults) as (_ & _ & H6 & _ & _ & _ & Hout).
  exact (conj exampleOrder4' (conj exampleOrder6 (conj quietWorld_noFaults
           (conj H6 Hout)))).
Defined.

Lemma generateAllFiles_order_irrelevant_witness :
  noFaults quietWorld /\
  generateAllFiles exampleGenerator exampleOrders quietWorld =
  generateAllFiles exampleGenerator exampleOrders' quietWorld.
Proof.
  exact (conj quietWorld_noFaults
    (@generateAllFiles_order_irrelevant plainTables exampleGenerator
       exampleOrders exampleOrders' quietWorld
       exampleOrder4 exampleOrder4' exampleOrder6 exampleOrder6
       exampleOrder4' exampleOrder4 exampleOrder6 exampleOrder6
       exampleGenerator_valid quietWorld_noFaults)).
Defined.

Lemma generateAllFiles_errors_witness :
  let msg := "generating IPv6 global file: creating file geoip_ipv6.nft: permission denied" in
  fst (generateAllFiles exampleGenerator exampleOrders lockedWorld) = Some msg /\
  ((exists e, mkdirErr lockedWorld "by_country" = Some e /\
      msg = "creating by_country directory: " +:+ e) \/
   (exists e, openErr lockedWorld "geoip_ipv4.nft" = Some e /\
      msg = "generating IPv4 global file: creating file geoip_ipv4.nft: " +:+ e) \/
   (exists e, openErr lockedWorld "geoip_ipv6.nft" = Some e /\
      msg = "generating IPv6 global file: creating file geoip_ipv6.nft: " +:+ e) \/
   (exists fam4 code rest,
      code ∈ countryOrder fam4 exampleOrders /\
      index (bucket fam4 exampleGenerator) code <> [] /\
      countryFailure lockedWorld (familyOf fam4) (ipTypeOf fam4) code rest /\
      msg = "generating country files: " +:+ rest)).
Proof.
  intros msg.
  assert (H : fst (generateAllFiles exampleGenerator exampleOrders lockedWorld) = Some msg)
    by (vm_compute; reflexivity).
  exact (conj H (generateAllFiles_errors exampleGenerator exampleOrders lockedWorld msg H)).
Defined.

Lemma generateAllFiles_stops_at_ipv6_witness :
  mkdirErr lockedWorld "by_country" = None /\
  openErr lockedWorld "geoip_ipv4.nft" = None /\
  openErr lockedWorld "geoip_ipv6.nft" = Some "permission denied" /\
  let r := generateAllFiles exampleGenerator exampleOrders lockedWorld in
  fst r = Some ("generating IPv6 global file: creating file geoip_ipv6.nft: " +:+
                "permission denied") /\
  dirs (snd r) = {["by_country"]} ∪ dirs lockedWorld /\
  is_Some (files (snd r) !! "geoip_ipv4.nft") /\
  forall n, n <> "geoip_ipv4.nft" -> files (snd r) !! n = files lockedWorld !! n.
Proof.
  exact (conj eq_refl (conj eq_refl (conj eq_refl
    (generateAllFiles_stops_at_ipv6 exampleGenerator exampleOrders lockedWorld
       "permission denied" eq_refl eq_refl eq_refl)))).
Defined.

Lemma generateGlobalFile_failed_writes_witness :
  openErr fullDiskWorld "geoip_ipv4.nft" = None /\
  writeErr fullDiskWorld "geoip_ipv4.nft" = Some "no space left on device" /\
  generateGlobalFile ["US"; "DE"] (ipv4 exampleGenerator) "geoip_ipv4.nft" "ipv4"
    fullDiskWorld =
    (None, printed (setFile fullDiskWorld "geoip_ipv4.nft" "")
             (generatedLine "geoip_ipv4.nft")).
Proof.
  exact (conj eq_refl (conj eq_refl
    (generateGlobalFile_failed_writes ["US"; "DE"] (ipv4 exampleGenerator)
       "geoip_ipv4.nft" "ipv4" fullDiskWorld "no space left on device"
       eq_refl eq_refl))).
Defined.

Lemma run_touches_nothing_without_data_witness :
  snd (@run plainTables exampleDB exampleHTTP newGeoIPGenerator exampleOrders quietWorld)
    <> quietWorld /\
  exists mmdbData networks,
    @downloadAndExtractMMDB exampleHTTP url = Ok mmdbData /\
    @maxminddbNetworks exampleDB mmdbData = Ok networks.
Proof.
  assert (H : snd (@run plainTables exampleDB exampleHTTP newGeoIPGenerator
                     exampleOrders quietWorld) <> quietWorld).
  { intros E. apply (f_equal stdout) in E. vm_compute in E. discriminate E. }
  exact (conj H (@run_touches_nothing_without_data exampleHTTP plainTables exampleDB
                   newGeoIPGenerator exampleOrders quietWorld H)).
Defined.

Lemma run_output_witness :
  @downloadAndExtractMMDB exampleHTTP url = Ok "mmdb" /\
  @maxminddbNetworks exampleDB "mmdb" = Ok exampleNetworks /\
  noFaults quietWorld /\
  let r := @run plainTables exampleDB exampleHTTP newGeoIPGenerator exampleOrders
             quietWorld in
  fst r = None /\
  (forall fam4 code, @yielded plainTables fam4 code exampleNetworks <> [] ->
     files (snd r) !! countryFileName code (ipTypeOf fam4) =
       Some (countryFile code (@yielded plainTables fam4 code exampleNetworks)
               (ipTypeOf fam4))) /\
  (forall d, d ∈ dirs (snd r) <->
     d ∈ dirs quietWorld \/ d = "by_country" \/
     exists fam4 code, @yielded plainTables fam4 code exampleNetworks <> [] /\
                       d = "by_country/" +:+ code).
Proof.
  assert (Hdl : @downloadAndExtractMMDB exampleHTTP url = Ok "mmdb")
    by (vm_compute; reflexivity).
  exact (conj Hdl (conj eq_refl (conj quietWorld_noFaults
    (@run_output exampleHTTP plainTables exampleDB exampleOrders quietWorld
       "mmdb" exampleNetworks Hdl eq_refl exampleOrder4' exampleOrder6
       quietWorld_noFaults)))).
Defined.

Lemma generateAllFiles_country_block_in_global_witness :
  noFaults quietWorld /\
  index (ipv4 exampleGenerator) "DE" <> [] /\
  let w' := snd (generateAllFiles exampleGenerator exampleOrders quietWorld) in
  let block := setBlock "DE" (index (ipv4 exampleGenerator) "DE") "ipv4" in
  exists before after,
    files w' !! "geoip_ipv4.nft" =
      Some (fileHeader +:+ (before +:+ block +:+ after) +:+ fileFooter) /\
    files w' !! countryFileName "DE" "ipv4" =
      Some (fileHeader +:+ block +:+ fileFooter).
Proof.
  assert (Hne : index (ipv4 exampleGenerator) "DE" <> [])
    by (vm_compute; discriminate).
  exact (conj quietWorld_noFaults (conj Hne
    (@generateAllFiles_country_block_in_global plainTables exampleGenerator
       exampleOrders quietWorld true "DE"
       exampleOrder4 exampleOrder6 exampleOrder4' exampleOrder6
       exampleGenerator_valid quietWorld_noFaults Hne))).
Defined.

Lemma generateCountryFile_effects_witness :
  let r := generateCountryFile "DE" [prefix4 9 9 9 0 24] "ipv4" quietWorld in
  filepathJoin "by_country" "DE" = "by_country/DE" /\
  ancestors "by_country/DE" = ["by_country"] /\
  fst r = None /\
  "by_country/DE" ∈ dirs (snd r) /\ "by_country" ∈ dirs (snd r) /\
  is_Some (files (snd r) !! "by_country/DE/DE_ipv4.nft") /\
  forall d, d ∈ dirs (snd r) -> d = "by_country/DE" \/ d = "by_country".
Proof.
  intros r.
  destruct (generateCountryFile_effects "DE" [prefix4 9 9 9 0 24] "ipv4" quietWorld)
    as (_ & _ & Hnew & _ & _ & Hok).
  assert (Hne : [prefix4 9 9 9 0 24] <> []) by discriminate.
  assert (He : fst r = None) by (vm_compute; reflexivity).
  destruct (Hok Hne He) as (Hd & Ha & Hf).
  split_and!.
  - reflexivity.
  - reflexivity.
  - exact He.
  - exact Hd.
  - exact (Ha "by_country" (list_elem_of_here "by_country" [])).
  - exact Hf.
  - intros d Hin. destruct (Hnew d Hin) as [H0|[H1|H2]].
    + by apply elem_of_empty in H0.
    + by left.
    + right. by apply list_elem_of_singleton in H2.
Defined.
